(** * RPG Companion prompt builder: tracker formatting and history injection

    A shallow embedding of [src/systems/generation/promptBuilder.js]:
    the two field value resolvers ([getValue]), the context formatter
    ([formatTrackerDataForContext]), the historical formatter
    ([formatHistoricalTrackerData]), the contextual summary
    ([generateContextualSummary]), the tracker example
    ([generateTrackerExample]) and the construction of the history injection
    map inside [generateSeparateUpdatePrompt].

    Conventions of the embedding.
    - Every JavaScript value the functions read (tracker payloads, settings,
      chat messages) is a [jsval]: a tree as [JSON.parse] builds it, plus
      [undefined].  An object is the list of its own properties in
      enumeration order.  Numbers are the integers.  Members inherited from
      a prototype (methods) are not values of the model: the member names
      the source reads by a fixed identifier are never inherited ones, and
      a computed key (a stat id, a swipe id) is taken not to name one.
    - A computation that can raise is an [outcome]: [Ok v], [Throw e], or
      [Diverge] for a recursion that ran out of fuel.
    - A string is its sequence of code units; positions are counted in
      bytes, which are the code units of ASCII text.
    - What the language runtime supplies and the model does not fix
      ([JSON.parse], Unicode case mapping, [trim], the numeric value of a
      string) is the interface [Builtins]. *)

From Stdlib Require Import ZArith Ascii DecimalString Lia.
From stdpp Require Import base strings list gmap.

Local Open Scope Z_scope.

(* ================================================================== *)
(** ** Values *)

#[warnings="-register-all"]
Inductive jsval : Type :=
| JUndefined
| JNull
| JBool (b : bool)
| JNum (n : Z)
| JStr (s : string)
| JArr (items : list jsval)
| JObj (props : list (string * jsval)).

(** Nesting depth: the measure on which the resolvers recurse. *)
Fixpoint height (v : jsval) : nat :=
  match v with
  | JArr items => S (foldr (fun x h => Nat.max (height x) h) 0%nat items)
  | JObj props => S (foldr (fun kv h => Nat.max (height (snd kv)) h) 0%nat props)
  | _ => 0%nat
  end.

(* ================================================================== *)
(** ** Outcomes of a computation that may raise *)

Inductive exn := TypeError | SyntaxError.

Inductive outcome (A : Type) : Type :=
| Ok (a : A)
| Throw (e : exn)
| Diverge.
Arguments Ok {A} a.
Arguments Throw {A} e.
Arguments Diverge {A}.

Definition bind {A B} (c : outcome A) (k : A -> outcome B) : outcome B :=
  match c with
  | Ok a => k a
  | Throw e => Throw e
  | Diverge => Diverge
  end.

Notation "x <- c ;; k" := (bind c (fun x => k))
  (at level 100, c at next level, right associativity).

(** [try { c } catch { h }]: only a raised exception reaches the handler. *)
Definition try_catch {A} (c : outcome A) (h : exn -> outcome A) : outcome A :=
  match c with
  | Throw e => h e
  | r => r
  end.

(** [for (const x of l) body], threading the accumulator [acc]. *)
Fixpoint for_of {A S} (l : list A) (acc : S) (body : S -> A -> outcome S) : outcome S :=
  match l with
  | [] => Ok acc
  | x :: rest => acc' <- body acc x ;; for_of rest acc' body
  end.

(** [l.map(f)] for a callback that may raise. *)
Fixpoint mapM {A B} (f : A -> outcome B) (l : list A) : outcome (list B) :=
  match l with
  | [] => Ok []
  | x :: rest => y <- f x ;; ys <- mapM f rest ;; Ok (y :: ys)
  end.

(** [l.find(p)]: the first element on which the callback is truthy. *)
Fixpoint findM (p : jsval -> outcome bool) (l : list jsval) : outcome jsval :=
  match l with
  | [] => Ok JUndefined
  | x :: rest => b <- p x ;; if b then Ok x else findM p rest
  end.

(* ================================================================== *)
(** ** Strings *)

Definition nl : string := String (ascii_of_nat 10) EmptyString.

Definition dquote : string := String (ascii_of_nat 34) EmptyString.

Definition nonempty (s : string) : bool := negb (String.eqb s "").

(** [l.join(sep)] on strings. *)
Fixpoint join (sep : string) (l : list string) : string :=
  match l with
  | [] => ""
  | [x] => x
  | x :: rest => x +:+ sep +:+ join sep rest
  end.

(** [s.slice(0, -2)]. *)
Definition slice_0_m2 (s : string) : string :=
  String.substring 0 (String.length s - 2) s.

(** [s.charAt(0)] and [s.slice(1)]. *)
Definition charAt0 (s : string) : string :=
  match s with String c _ => String c "" | EmptyString => "" end.
Definition slice1 (s : string) : string :=
  match s with String _ r => r | EmptyString => "" end.

Definition is_upper (c : ascii) : bool :=
  let n := nat_of_ascii c in (65 <=? n)%nat && (n <=? 90)%nat.

(** [s.replace(/([A-Z])/g, ' $1')]. *)
Fixpoint space_before_capitals (s : string) : string :=
  match s with
  | EmptyString => ""
  | String c r =>
      if is_upper c then String " " (String c (space_before_capitals r))
      else String c (space_before_capitals r)
  end.

(** [s.replace(/_/g, ' ')]. *)
Fixpoint underscores_to_spaces (s : string) : string :=
  match s with
  | EmptyString => ""
  | String c r =>
      String (if Ascii.eqb c "_" then " "%char else c) (underscores_to_spaces r)
  end.

(** String(n) for an integer [n]. *)
Definition number_to_string (n : Z) : string :=
  NilZero.string_of_int (Z.to_int n).

(** The part of the runtime the model leaves open. *)
Class Builtins := {
  (** [JSON.parse(s)]; [None] is the SyntaxError. *)
  JSON_parse : string -> option jsval;
  (** Whether the number a string converts to is greater than 1. *)
  string_gt_1 : string -> bool;
  toUpperCase : string -> string;
  toLowerCase : string -> string;
  trim : string -> string
}.

(* ================================================================== *)
(** ** Operators of the language *)

(** ToBoolean. *)
Definition truthy (v : jsval) : bool :=
  match v with
  | JUndefined | JNull => false
  | JBool b => b
  | JNum n => negb (n =? 0)
  | JStr s => nonempty s
  | JArr _ | JObj _ => true
  end.

Definition is_nullish (v : jsval) : bool :=
  match v with JUndefined | JNull => true | _ => false end.

(** [typeof v === 'object']. *)
Definition typeof_object (v : jsval) : bool :=
  match v with JNull | JArr _ | JObj _ => true | _ => false end.

Definition typeof_string (v : jsval) : bool :=
  match v with JStr _ => true | _ => false end.

Definition typeof_number (v : jsval) : bool :=
  match v with JNum _ => true | _ => false end.

Definition isArray (v : jsval) : bool :=
  match v with JArr _ => true | _ => false end.

(** The elements of an array (used under an [Array.isArray] test). *)
Definition elements (v : jsval) : list jsval :=
  match v with JArr items => items | _ => [] end.

Fixpoint lookup_prop (k : string) (props : list (string * jsval)) : option jsval :=
  match props with
  | [] => None
  | (k', v) :: rest => if String.eqb k' k then Some v else lookup_prop k rest
  end.

(** The decimal string of an array index. *)
Definition index_key (i : nat) : string := number_to_string (Z.of_nat i).

Fixpoint indexed_from {A} (i : nat) (l : list A) : list (string * A) :=
  match l with
  | [] => []
  | x :: rest => (index_key i, x) :: indexed_from (S i) rest
  end.

Fixpoint chars (s : string) : list jsval :=
  match s with
  | EmptyString => []
  | String c r => JStr (String c "") :: chars r
  end.

(** [Object.entries(v)] for a value that is not null or undefined. *)
Definition own_entries (v : jsval) : list (string * jsval) :=
  match v with
  | JObj props => props
  | JArr items => indexed_from 0 items
  | JStr s => indexed_from 0 (chars s)
  | _ => []
  end.

(** [v[k]] / [v.k] for a value that is not null or undefined. *)
Definition prop (v : jsval) (k : string) : jsval :=
  match v with
  | JObj props => default JUndefined (lookup_prop k props)
  | JArr items =>
      if String.eqb k "length" then JNum (Z.of_nat (length items))
      else default JUndefined (lookup_prop k (indexed_from 0 items))
  | JStr s =>
      if String.eqb k "length" then JNum (Z.of_nat (String.length s))
      else default JUndefined (lookup_prop k (indexed_from 0 (chars s)))
  | _ => JUndefined
  end.

(** [v.k]: reading a member of null or undefined raises. *)
Definition member (v : jsval) (k : string) : outcome jsval :=
  if is_nullish v then Throw TypeError else Ok (prop v k).

(** [v?.k]. *)
Definition opt_member (v : jsval) (k : string) : jsval :=
  if is_nullish v then JUndefined else prop v k.

(** ['k' in v] for an object [v], and a name [k] no prototype defines. *)
Definition js_in (k : string) (v : jsval) : bool :=
  match v with
  | JObj props => bool_decide (is_Some (lookup_prop k props))
  | _ => false
  end.

(** [a === b].  Two objects or arrays are compared by identity; the
    comparisons of the source are between a configuration value and a
    tracker value, which are never the same object. *)
Definition strict_eq (a b : jsval) : bool :=
  match a, b with
  | JUndefined, JUndefined | JNull, JNull => true
  | JBool x, JBool y => bool_decide (x = y)
  | JNum x, JNum y => x =? y
  | JStr x, JStr y => String.eqb x y
  | _, _ => false
  end.

(** ToString, as in a template literal or a string concatenation.  An
    array joins its elements with a comma, a null or undefined element
    being empty.  An object goes through OrdinaryToPrimitive: with an own
    [toString] property (never callable in a value built by [JSON.parse])
    no method yields a primitive and a TypeError is raised; otherwise the
    inherited method answers. *)
Fixpoint to_string (v : jsval) : outcome string :=
  match v with
  | JUndefined => Ok "undefined"
  | JNull => Ok "null"
  | JBool b => Ok (if b then "true" else "false")
  | JNum n => Ok (number_to_string n)
  | JStr s => Ok s
  | JArr items =>
      parts <- (fix elems (l : list jsval) : outcome (list string) :=
                  match l with
                  | [] => Ok []
                  | x :: rest =>
                      s <- (if is_nullish x then Ok "" else to_string x) ;;
                      ss <- elems rest ;;
                      Ok (s :: ss)
                  end) items ;;
      Ok (join "," parts)
  | JObj props =>
      if bool_decide (is_Some (lookup_prop "toString" props))
      then Throw TypeError
      else Ok "[object Object]"
  end.

(** String(v) for a value that is not an object. *)
Definition scalar_string (v : jsval) : string :=
  match to_string v with Ok s => s | _ => "" end.

Section WithBuiltins.
Context `{Builtins}.

(** [v > 1]: ToPrimitive with hint number, then ToNumber. *)
Definition gt_1 (v : jsval) : outcome bool :=
  match v with
  | JUndefined | JNull | JBool _ => Ok false
  | JNum n => Ok (1 <? n)
  | JStr s => Ok (string_gt_1 s)
  | JArr _ | JObj _ => s <- to_string v ;; Ok (string_gt_1 s)
  end.

(** [JSON.parse(v)]: the argument is converted to a string first. *)
Definition JSON_parse_value (v : jsval) : outcome jsval :=
  s <- to_string v ;;
  match JSON_parse s with
  | Some x => Ok x
  | None => Throw SyntaxError
  end.

(** [v[k]] for a computed key [k] and a value [v] that is not null or
    undefined: the key is converted to a string. *)
Definition computed_prop (v k : jsval) : outcome jsval :=
  key <- to_string k ;; Ok (prop v key).

(** [a || b], the right operand evaluated only when needed. *)
Definition js_or (a : jsval) (b : outcome jsval) : outcome jsval :=
  if truthy a then Ok a else b.

End WithBuiltins.

(* ================================================================== *)
(** ** The field value resolver of the context formatter *)

Module ContextFormat.
Section Resolver.
Context `{Builtins}.

(** One unfolding of [getValue] (inside [formatTrackerDataForContext]);
    the parameter [getValue] stands for the recursive calls. *)
Definition getValue_body (getValue : jsval -> outcome string) (field : jsval)
  : outcome string :=
  if is_nullish field then Ok "" else
  (* a locked object {value, locked}: extract the value *)
  if truthy field && typeof_object field && negb (isArray field) && js_in "value" field
  then getValue (prop field "value") else
  (* a regular value *)
  if negb (typeof_object field) then Ok (scalar_string field) else
  if isArray field then
    items <- mapM getValue (elements field) ;;
    Ok (join ", " (List.filter nonempty items))
  else
  if truthy field && typeof_object field then
    (* status object: {mood, [customFields...]} *)
    if js_in "mood" field then
      mood <- getValue (prop field "mood") ;;
      statusParts <-
        for_of (own_entries field) (if nonempty mood then [mood] else [])
          (fun statusParts entry =>
             if negb (String.eqb (fst entry) "mood") then
               fieldValue <- getValue (snd entry) ;;
               if nonempty fieldValue && negb (String.eqb fieldValue "None")
               then Ok (statusParts ++ [fieldValue])
               else Ok statusParts
             else Ok statusParts) ;;
      Ok (join " - " statusParts)
    (* skill/item/quest objects: {name}, {title}, {name, quantity} *)
    else if js_in "name" field then
      name <- getValue (prop field "name") ;;
      many <- (if js_in "quantity" field then gt_1 (prop field "quantity")
               else Ok false) ;;
      if many then
        quantity <- to_string (prop field "quantity") ;;
        Ok (name +:+ " (x" +:+ quantity +:+ ")")
      else Ok name
    else if js_in "title" field then getValue (prop field "title")
    (* time object: {start, end} *)
    else if js_in "start" field && js_in "end" field then
      s <- getValue (prop field "start") ;;
      e <- getValue (prop field "end") ;;
      Ok (s +:+ " - " +:+ e)
    (* weather object: {emoji, forecast} *)
    else if js_in "emoji" field && js_in "forecast" field then
      e <- getValue (prop field "emoji") ;;
      f <- getValue (prop field "forecast") ;;
      Ok (e +:+ " " +:+ f)
    else
      (* generic object fallback: key-value pairs *)
      let keys := map fst (own_entries field) in
      if (0 <? length keys)%nat && (length keys <=? 3)%nat then
        values <- mapM (fun k =>
                          val <- getValue (prop field k) ;;
                          Ok (if nonempty val then [k +:+ ": " +:+ val] else []))
                       keys ;;
        let values := concat values in
        if (0 <? length values)%nat then Ok (join ", " values) else Ok ""
      else Ok ""
  else Ok "".

(** The recursion, with the number of nested calls bounded by [fuel]. *)
Fixpoint getValue_fuel (fuel : nat) (field : jsval) : outcome string :=
  match fuel with
  | O => Diverge
  | S fuel' => getValue_body (getValue_fuel fuel') field
  end.

(** [getValue(field)]: the nesting depth of [field] bounds the calls
    (lemma [getValue_fuel_enough] below). *)
Definition getValue (field : jsval) : outcome string :=
  getValue_fuel (S (height field)) field.

(** [key.charAt(0).toUpperCase() + key.slice(1)]. *)
Definition capitalize (s : string) : string :=
  toUpperCase (charAt0 s) +:+ slice1 s.

(** [s.replace(/^./, str => str.toUpperCase())]: the dot matches any
    first character but a line terminator. *)
Definition upper_first (s : string) : string :=
  match s with
  | EmptyString => ""
  | String c r =>
      if Ascii.eqb c (ascii_of_nat 10) || Ascii.eqb c (ascii_of_nat 13) then s
      else toUpperCase (String c "") +:+ r
  end.

(** [l.map(i => getValue(i)).filter(i => i)]. *)
Definition resolve_all (l : list jsval) : outcome (list string) :=
  items <- mapM getValue l ;;
  Ok (List.filter nonempty items).

(** [includes] on a list of string literals. *)
Definition includes (l : list string) (k : string) : bool :=
  existsb (String.eqb k) l.

(** [v.find(p)]: only an array has the method. *)
Definition array_find (v : jsval) (p : jsval -> outcome bool) : outcome jsval :=
  match v with
  | JArr items => findM p items
  | _ => Throw TypeError
  end.

(** [s.charAt(0).toUpperCase() + s.slice(1)] on a value: only a string
    has the methods. *)
Definition capitalize_value (v : jsval) : outcome jsval :=
  match v with
  | JStr s => Ok (JStr (capitalize s))
  | _ => Throw TypeError
  end.

Definition toLowerCase_value (v : jsval) : outcome jsval :=
  match v with
  | JStr s => Ok (JStr (toLowerCase s))
  | _ => Throw TypeError
  end.

Section UserStats.
Variable extensionSettings : jsval.

Definition userStatsConfig : jsval :=
  opt_member (prop extensionSettings "trackerConfig") "userStats".
Definition displayMode : jsval :=
  let m := opt_member userStatsConfig "statsDisplayMode" in
  if truthy m then m else JStr "percentage".
Definition customStats : jsval :=
  let c := opt_member userStatsConfig "customStats" in
  if truthy c then c else JArr [].

Definition getMaxValue (statId : jsval) : outcome jsval :=
  statConfig <- array_find customStats
                  (fun s => id <- member s "id" ;; Ok (strict_eq id statId)) ;;
  let m := opt_member statConfig "maxValue" in
  Ok (if truthy m then m else JNum 100).

Definition formatStatValue (value statId : jsval) : outcome jsval :=
  if strict_eq displayMode (JStr "number") then
    maxValue <- getMaxValue statId ;;
    v <- to_string value ;;
    m <- to_string maxValue ;;
    Ok (JStr (v +:+ "/" +:+ m))
  else Ok value.

Definition statFieldOrder : list string :=
  ["health"; "mana"; "stamina"; "satiety"; "hygiene"; "energy"; "arousal"].
Definition specialFields : list string :=
  ["status"; "mood"; "skills"; "inventory"; "quests"].

(** The stats of the player: the array format, or the flat fallback. *)
Definition format_stats (data : jsval) (formatted : string) : outcome string :=
  stats <- member data "stats" ;;
  if truthy stats && isArray stats then
    for_of (elements stats) formatted (fun formatted stat =>
      if truthy stat && negb (strict_eq (prop stat "value") JUndefined) then
        statName <- js_or (prop stat "name")
                      (if truthy (prop stat "id") then capitalize_value (prop stat "id")
                       else Ok (JStr "Unknown")) ;;
        statId <- js_or (prop stat "id") (toLowerCase_value statName) ;;
        n <- to_string statName ;;
        shown <- formatStatValue (prop stat "value") statId ;;
        v <- to_string shown ;;
        Ok (formatted +:+ n +:+ ": " +:+ v +:+ nl)
      else Ok formatted)
  else
    formatted <- for_of statFieldOrder formatted (fun formatted statName =>
      if negb (strict_eq (prop data statName) JUndefined) then
        value <- getValue (prop data statName) ;;
        if nonempty value then
          shown <- formatStatValue (JStr value) (JStr statName) ;;
          v <- to_string shown ;;
          Ok (formatted +:+ capitalize statName +:+ ": " +:+ v +:+ nl)
        else Ok formatted
      else Ok formatted) ;;
    (* custom numeric stats *)
    for_of (own_entries data) formatted (fun formatted entry =>
      let key := fst entry in
      let value := snd entry in
      if negb (includes statFieldOrder key) && negb (includes specialFields key)
         && typeof_number value then
        resolved <- getValue value ;;
        shown <- formatStatValue (JStr resolved) (JStr key) ;;
        v <- to_string shown ;;
        Ok (formatted +:+ capitalize key +:+ ": " +:+ v +:+ nl)
      else Ok formatted).

Definition format_status_mood (data : jsval) (formatted : string) : outcome string :=
  status <- member data "status" ;;
  formatted <- (if truthy status then
                  s <- getValue status ;; Ok (formatted +:+ "Status: " +:+ s +:+ nl)
                else Ok formatted) ;;
  mood <- member data "mood" ;;
  if truthy mood then
    s <- getValue mood ;; Ok (formatted +:+ "Mood: " +:+ s +:+ nl)
  else Ok formatted.

(** Skills: an array of names, or an object from name to value. *)
Definition format_skills (data : jsval) (formatted : string) : outcome string :=
  skills <- member data "skills" ;;
  if truthy skills then
    if isArray skills then
      items <- resolve_all (elements skills) ;;
      let skillsList := join ", " items in
      Ok (if nonempty skillsList then formatted +:+ "Skills: " +:+ skillsList +:+ nl
          else formatted)
    else if typeof_object skills then
      items <- mapM (fun entry =>
                       skillName <- getValue (JStr (fst entry)) ;;
                       skillVal <- getValue (snd entry) ;;
                       Ok (if nonempty skillVal then skillName +:+ ": " +:+ skillVal
                           else skillName))
                    (own_entries skills) ;;
      let skillsList := join ", " (List.filter nonempty items) in
      Ok (if nonempty skillsList then formatted +:+ "Skills: " +:+ skillsList +:+ nl
          else formatted)
    else Ok formatted
  else Ok formatted.

(** A list section: [v && Array.isArray(v) && v.length > 0], the
    resolved items under [label] when any is left. *)
Definition format_item_list (label : string) (v : jsval) (formatted : string)
  : outcome string :=
  if truthy v && isArray v && (0 <? length (elements v))%nat then
    items <- resolve_all (elements v) ;;
    Ok (if (0 <? length items)%nat
        then formatted +:+ label +:+ ": " +:+ join ", " items +:+ nl
        else formatted)
  else Ok formatted.

Definition format_inventory (data : jsval) (formatted : string) : outcome string :=
  inv <- member data "inventory" ;;
  if truthy inv then
    formatted <- format_item_list "On Person" (prop inv "onPerson") formatted ;;
    formatted <- format_item_list "Clothing" (prop inv "clothing") formatted ;;
    let stored := prop inv "stored" in
    formatted <-
      (if truthy stored && typeof_object stored && negb (isArray stored) then
         for_of (own_entries stored) formatted (fun formatted entry =>
           let items := snd entry in
           if isArray items && (0 <? length (elements items))%nat then
             itemsList <- resolve_all (elements items) ;;
             if (0 <? length itemsList)%nat then
               location <- getValue (JStr (fst entry)) ;;
               Ok (formatted +:+ location +:+ ": " +:+ join ", " itemsList +:+ nl)
             else Ok formatted
           else Ok formatted)
       else Ok formatted) ;;
    format_item_list "Assets" (prop inv "assets") formatted
  else Ok formatted.

Definition format_quests (data : jsval) (formatted : string) : outcome string :=
  quests <- member data "quests" ;;
  if truthy quests then
    let main := prop quests "main" in
    formatted <-
      (if truthy main then
         if typeof_string main then
           mainQuest <- getValue main ;;
           Ok (if nonempty mainQuest
               then formatted +:+ "Main Quest: " +:+ mainQuest +:+ nl else formatted)
         else if isArray main && (0 <? length (elements main))%nat then
           questsList <- resolve_all (elements main) ;;
           Ok (if (0 <? length questsList)%nat
               then formatted +:+ "Main Quests: " +:+ join ", " questsList +:+ nl
               else formatted)
         else if typeof_object main then
           mainQuest <- getValue main ;;
           Ok (if nonempty mainQuest
               then formatted +:+ "Main Quest: " +:+ mainQuest +:+ nl else formatted)
         else Ok formatted
       else Ok formatted) ;;
    format_item_list "Optional Quests" (prop quests "optional") formatted
  else Ok formatted.

Definition format_userStats (data : jsval) (userName : string) : outcome string :=
  let formatted := userName +:+ "'s Stats:" +:+ nl in
  formatted <- format_stats data formatted ;;
  formatted <- format_status_mood data formatted ;;
  formatted <- format_skills data formatted ;;
  formatted <- format_inventory data formatted ;;
  format_quests data formatted.

End UserStats.

Definition knownFields : list string :=
  ["location"; "date"; "time"; "weather"; "temperature"].

(** [if (data.k) formatted += `Label: ${getValue(data.k)}\n`]. *)
Definition format_known (data : jsval) (k label : string) (formatted : string)
  : outcome string :=
  v <- member data k ;;
  if truthy v then
    s <- getValue v ;; Ok (formatted +:+ label +:+ ": " +:+ s +:+ nl)
  else Ok formatted.

Definition format_infoBox (data : jsval) : outcome string :=
  let formatted := "Info Box:" +:+ nl in
  formatted <- format_known data "location" "Location" formatted ;;
  formatted <- format_known data "date" "Date" formatted ;;
  formatted <- format_known data "time" "Time" formatted ;;
  formatted <- format_known data "weather" "Weather" formatted ;;
  formatted <- format_known data "temperature" "Temperature" formatted ;;
  (* custom fields *)
  for_of (own_entries data) formatted (fun formatted entry =>
    if negb (includes knownFields (fst entry)) then
      val <- getValue (snd entry) ;;
      if nonempty val then
        (* camelCase to Title Case with spaces *)
        let displayName := trim (upper_first (space_before_capitals (fst entry))) in
        Ok (formatted +:+ displayName +:+ ": " +:+ val +:+ nl)
      else Ok formatted
    else Ok formatted).

(** Relationship and thoughts: a scalar, or an object wrapping it under
    [inner]. *)
Definition format_wrapped (v : jsval) (inner label : string) (formatted : string)
  : outcome string :=
  if truthy v then
    s <- (if typeof_object v && negb (isArray v) && js_in inner v
          then getValue (prop v inner) else getValue v) ;;
    Ok (if nonempty s then formatted +:+ "  " +:+ label +:+ ": " +:+ s +:+ nl
        else formatted)
  else Ok formatted.

Definition format_character (formatted : string) (char : jsval) : outcome string :=
  name <- member char "name" ;;
  resolved <- getValue name ;;
  let charName := if nonempty resolved then resolved else "Unknown" in
  let formatted := formatted +:+ "- " +:+ charName +:+ ":" +:+ nl in
  let details := prop char "details" in
  formatted <-
    (if truthy details && typeof_object details then
       for_of (own_entries details) formatted (fun formatted entry =>
         fieldValue <- getValue (snd entry) ;;
         if nonempty fieldValue then
           let fieldName :=
             trim (upper_first (space_before_capitals
                                  (underscores_to_spaces (fst entry)))) in
           Ok (formatted +:+ "  " +:+ fieldName +:+ ": " +:+ fieldValue +:+ nl)
         else Ok formatted)
     else Ok formatted) ;;
  formatted <- format_wrapped (prop char "relationship") "status" "Relationship" formatted ;;
  formatted <- format_wrapped (prop char "thoughts") "content" "Thoughts" formatted ;;
  let stats := prop char "stats" in
  if truthy stats && typeof_object stats && negb (isArray stats) then
    items <- mapM (fun entry =>
                     statValue <- getValue (snd entry) ;;
                     Ok (if nonempty statValue
                         then [fst entry +:+ ": " +:+ statValue] else []))
                  (own_entries stats) ;;
    let statsList := join ", " (concat items) in
    Ok (if nonempty statsList then formatted +:+ "  Stats: " +:+ statsList +:+ nl
        else formatted)
  else Ok formatted.

Definition format_characters (data : jsval) : outcome string :=
  if isArray data then
    for_of (elements data) ("Present Characters:" +:+ nl) format_character
  else Ok "".

(** [formatTrackerDataForContext(jsonData, trackerType, userName)]. *)
Definition formatTrackerDataForContext (extensionSettings : jsval)
    (jsonData : jsval) (trackerType userName : string) : outcome string :=
  if negb (truthy jsonData) then Ok "" else
  try_catch
    (data <- (if typeof_string jsonData then JSON_parse_value jsonData
              else Ok jsonData) ;;
     if String.eqb trackerType "userStats" then
       format_userStats extensionSettings data userName
     else if String.eqb trackerType "infoBox" then format_infoBox data
     else if String.eqb trackerType "characters" then format_characters data
     else Ok "")
    (fun _ => Ok "").

End Resolver.
End ContextFormat.

(* ================================================================== *)
(** ** The field value resolver of the historical formatter *)

Module Historical.
Section Resolver.
Context `{Builtins}.

(** One unfolding of [getValue] (inside [formatHistoricalTrackerData]). *)
Definition getValue_body (getValue : jsval -> outcome string) (field : jsval)
  : outcome string :=
  if is_nullish field then Ok "" else
  if truthy field && typeof_object field && negb (isArray field) && js_in "value" field
  then getValue (prop field "value") else
  if negb (typeof_object field) then Ok (scalar_string field) else
  if isArray field then
    items <- mapM getValue (elements field) ;;
    Ok (join ", " (List.filter nonempty items))
  else
  if truthy field && typeof_object field then
    if js_in "start" field && js_in "end" field then
      s <- getValue (prop field "start") ;;
      e <- getValue (prop field "end") ;;
      Ok (s +:+ " - " +:+ e)
    else if js_in "emoji" field && js_in "forecast" field then
      e <- getValue (prop field "emoji") ;;
      f <- getValue (prop field "forecast") ;;
      Ok (e +:+ " " +:+ f)
    else if js_in "name" field then
      name <- getValue (prop field "name") ;;
      many <- (if js_in "quantity" field then gt_1 (prop field "quantity")
               else Ok false) ;;
      if many then
        quantity <- to_string (prop field "quantity") ;;
        Ok (name +:+ " (x" +:+ quantity +:+ ")")
      else Ok name
    else if js_in "title" field then getValue (prop field "title")
    else Ok ""
  else Ok "".

Fixpoint getValue_fuel (fuel : nat) (field : jsval) : outcome string :=
  match fuel with
  | O => Diverge
  | S fuel' => getValue_body (getValue_fuel fuel') field
  end.

Definition getValue (field : jsval) : outcome string :=
  getValue_fuel (S (height field)) field.

(** [l.map(i => getValue(i)).filter(i => i)]. *)
Definition resolve_all (l : list jsval) : outcome (list string) :=
  items <- mapM getValue l ;;
  Ok (List.filter nonempty items).

(** The values a [for ... of] loop visits: the elements of an array or
    the characters of a string; nothing else here is iterable. *)
Definition iterate (v : jsval) : outcome (list jsval) :=
  match v with
  | JArr items => Ok items
  | JStr s => Ok (chars s)
  | _ => Throw TypeError
  end.

(** [v.find(p)]: only an array has the method. *)
Definition array_find (v : jsval) (p : jsval -> outcome bool) : outcome jsval :=
  match v with
  | JArr items => findM p items
  | _ => Throw TypeError
  end.

Definition toLowerCase_value (v : jsval) : outcome string :=
  match v with
  | JStr s => Ok (toLowerCase s)
  | _ => Throw TypeError
  end.

Section Filtered.
Variable useAllEnabled : bool.

(** Whether a field should be included. *)
Definition shouldInclude (config : jsval) : bool :=
  if useAllEnabled then
    negb (strict_eq (opt_member config "enabled") (JBool false))
  else strict_eq (opt_member config "persistInHistory") (JBool true).

(** Whether a stat or attribute should be included. *)
Definition shouldIncludeStat (configStat : jsval) : bool :=
  if useAllEnabled then
    negb (strict_eq (opt_member configStat "enabled") (JBool false))
  else strict_eq (opt_member configStat "persistInHistory") (JBool true).

(** A list section of the inventory. *)
Definition hist_item_list (label : string) (v : jsval) (statsFormatted : string)
  : outcome string :=
  if truthy v && isArray v && (0 <? length (elements v))%nat then
    items <- resolve_all (elements v) ;;
    Ok (if (0 <? length items)%nat
        then statsFormatted +:+ label +:+ ": " +:+ join ", " items +:+ ", "
        else statsFormatted)
  else Ok statsFormatted.

Definition hist_custom_stats (userStatsData userStatsConfig : jsval)
    (statsFormatted : string) : outcome string :=
  stats <- member userStatsData "stats" ;;
  if truthy stats && isArray stats then
    customStats <- member userStatsConfig "customStats" ;;
    if truthy customStats then
      for_of (elements stats) statsFormatted (fun statsFormatted stat =>
        configStat <- array_find customStats
                        (fun s => a <- member s "id" ;;
                                  b <- member stat "id" ;;
                                  Ok (strict_eq a b)) ;;
        if shouldIncludeStat configStat then
          value <- member stat "value" ;;
          if negb (strict_eq value JUndefined) then
            statName <- js_or (prop stat "name")
                          (n <- member configStat "name" ;;
                           js_or n (Ok (prop stat "id"))) ;;
            n <- to_string statName ;;
            v <- to_string value ;;
            Ok (statsFormatted +:+ n +:+ ": " +:+ v +:+ ", ")
          else Ok statsFormatted
        else Ok statsFormatted)
    else Ok statsFormatted
  else Ok statsFormatted.

Definition hist_status (userStatsData userStatsConfig : jsval)
    (statsFormatted : string) : outcome string :=
  statusSection <- member userStatsConfig "statusSection" ;;
  if shouldInclude statusSection then
    status <- member userStatsData "status" ;;
    if truthy status then
      moodField <- js_or (prop status "mood") (Ok status) ;;
      mood <- getValue moodField ;;
      statsFormatted <-
        (if nonempty mood then
           showMoodEmoji <- member statusSection "showMoodEmoji" ;;
           Ok (if truthy showMoodEmoji
               then statsFormatted +:+ "Mood: " +:+ mood +:+ ", "
               else statsFormatted)
         else Ok statsFormatted) ;;
      (* all custom status fields *)
      configured <- member statusSection "customFields" ;;
      customFields <- iterate (if truthy configured then configured else JArr []) ;;
      for_of customFields statsFormatted (fun statsFormatted fieldName =>
        fieldKey <- toLowerCase_value fieldName ;;
        fieldValue <- getValue (prop status fieldKey) ;;
        if nonempty fieldValue && negb (String.eqb fieldValue "None") then
          n <- to_string fieldName ;;
          Ok (statsFormatted +:+ n +:+ ": " +:+ fieldValue +:+ ", ")
        else Ok statsFormatted)
    else Ok statsFormatted
  else Ok statsFormatted.

Definition hist_skills (userStatsData userStatsConfig : jsval)
    (statsFormatted : string) : outcome string :=
  skillsSection <- member userStatsConfig "skillsSection" ;;
  if shouldInclude skillsSection then
    skills <- member userStatsData "skills" ;;
    if truthy skills then
      skillsList <- (if isArray skills then
                       items <- resolve_all (elements skills) ;; Ok (join ", " items)
                     else getValue skills) ;;
      Ok (if nonempty skillsList
          then statsFormatted +:+ "Skills: " +:+ skillsList +:+ ", "
          else statsFormatted)
    else Ok statsFormatted
  else Ok statsFormatted.

Definition hist_inventory (userStatsData userStatsConfig : jsval)
    (statsFormatted : string) : outcome string :=
  shouldIncludeInventory <-
    (if useAllEnabled then Ok true
     else p <- member userStatsConfig "inventoryPersistInHistory" ;; Ok (truthy p)) ;;
  if shouldIncludeInventory then
    inv <- member userStatsData "inventory" ;;
    if truthy inv then
      statsFormatted <- hist_item_list "On Person" (prop inv "onPerson") statsFormatted ;;
      hist_item_list "Clothing" (prop inv "clothing") statsFormatted
    else Ok statsFormatted
  else Ok statsFormatted.

Definition hist_quests (userStatsData userStatsConfig : jsval)
    (statsFormatted : string) : outcome string :=
  shouldIncludeQuests <-
    (if useAllEnabled then Ok true
     else p <- member userStatsConfig "questsPersistInHistory" ;; Ok (truthy p)) ;;
  if shouldIncludeQuests then
    quests <- member userStatsData "quests" ;;
    if truthy quests then
      if truthy (prop quests "main") then
        mainQuest <- getValue (prop quests "main") ;;
        Ok (if nonempty mainQuest && negb (String.eqb mainQuest "None")
            then statsFormatted +:+ "Quest: " +:+ mainQuest +:+ ", "
            else statsFormatted)
      else Ok statsFormatted
    else Ok statsFormatted
  else Ok statsFormatted.

(** The userStats part: appended to [formatted] when anything is kept. *)
Definition hist_userStats (trackerData trackerConfig : jsval) (userName : string)
    (formatted : string) : outcome string :=
  let raw := prop trackerData "userStats" in
  if truthy raw then
    let userStatsConfig := prop trackerConfig "userStats" in
    userStatsData <- (if typeof_string raw then JSON_parse_value raw else Ok raw) ;;
    statsFormatted <- hist_custom_stats userStatsData userStatsConfig "" ;;
    statsFormatted <- hist_status userStatsData userStatsConfig statsFormatted ;;
    statsFormatted <- hist_skills userStatsData userStatsConfig statsFormatted ;;
    statsFormatted <- hist_inventory userStatsData userStatsConfig statsFormatted ;;
    statsFormatted <- hist_quests userStatsData userStatsConfig statsFormatted ;;
    Ok (if nonempty statsFormatted
        then formatted +:+ userName +:+ ": " +:+ slice_0_m2 statsFormatted +:+ nl
        else formatted)
  else Ok formatted.

(** One widget of the info box:
    [shouldInclude(infoBoxConfig.widgets.k) && infoBoxData.k]. *)
Definition hist_widget (infoBoxData infoBoxConfig : jsval) (k label : string)
    (infoFormatted : string) : outcome string :=
  widgets <- member infoBoxConfig "widgets" ;;
  widget <- member widgets k ;;
  if shouldInclude widget then
    v <- member infoBoxData k ;;
    if truthy v then
      s <- getValue v ;;
      Ok (if nonempty s then infoFormatted +:+ label +:+ ": " +:+ s +:+ ", "
          else infoFormatted)
    else Ok infoFormatted
  else Ok infoFormatted.

Definition hist_infoBox (trackerData trackerConfig : jsval) (formatted : string)
  : outcome string :=
  let raw := prop trackerData "infoBox" in
  if truthy raw then
    let infoBoxConfig := prop trackerConfig "infoBox" in
    infoBoxData <- (if typeof_string raw then JSON_parse_value raw else Ok raw) ;;
    infoFormatted <- hist_widget infoBoxData infoBoxConfig "date" "Date" "" ;;
    infoFormatted <- hist_widget infoBoxData infoBoxConfig "time" "Time" infoFormatted ;;
    infoFormatted <- hist_widget infoBoxData infoBoxConfig "weather" "Weather" infoFormatted ;;
    infoFormatted <- hist_widget infoBoxData infoBoxConfig "temperature" "Temp" infoFormatted ;;
    infoFormatted <- hist_widget infoBoxData infoBoxConfig "location" "Location" infoFormatted ;;
    infoFormatted <- hist_widget infoBoxData infoBoxConfig "recentEvents" "Events" infoFormatted ;;
    Ok (if nonempty infoFormatted
        then formatted +:+ slice_0_m2 infoFormatted +:+ nl
        else formatted)
  else Ok formatted.

Definition hist_character (charsConfig : jsval) (formatted : string) (char : jsval)
  : outcome string :=
  if negb (truthy char) || negb (truthy (prop char "name")) then Ok formatted else
  let details := prop char "details" in
  (* custom fields (appearance, demeanor, etc.) *)
  charFormatted <-
    (if truthy details && typeof_object details then
       configured <- member charsConfig "customFields" ;;
       fields <- iterate configured ;;
       for_of fields "" (fun charFormatted field =>
         if shouldIncludeStat field then
           id <- member field "id" ;;
           detail <- computed_prop details id ;;
           if truthy detail then
             value <- getValue detail ;;
             if nonempty value then
               n <- to_string (prop field "name") ;;
               Ok (charFormatted +:+ n +:+ ": " +:+ value +:+ ", ")
             else Ok charFormatted
           else Ok charFormatted
         else Ok charFormatted)
     else Ok "") ;;
  (* thoughts *)
  thoughtsConfig <- member charsConfig "thoughts" ;;
  charFormatted <-
    (if shouldInclude thoughtsConfig && truthy (prop char "thoughts") then
       let t := prop char "thoughts" in
       thoughts <- (if typeof_object t && truthy (prop t "content")
                    then getValue (prop t "content") else getValue t) ;;
       Ok (if nonempty thoughts
           then charFormatted +:+ "Thinking: " +:+ thoughts +:+ ", "
           else charFormatted)
     else Ok charFormatted) ;;
  if nonempty charFormatted then
    name <- getValue (prop char "name") ;;
    Ok (formatted +:+ name +:+ ": " +:+ slice_0_m2 charFormatted +:+ nl)
  else Ok formatted.

Definition hist_characters (trackerData trackerConfig : jsval) (formatted : string)
  : outcome string :=
  let raw := prop trackerData "characterThoughts" in
  if truthy raw then
    let charsConfig := prop trackerConfig "presentCharacters" in
    charsData <- (if typeof_string raw then JSON_parse_value raw else Ok raw) ;;
    (* characters can be an array or wrapped in an object *)
    characters <- (if isArray charsData then Ok charsData
                   else wrapped <- member charsData "characters" ;;
                        Ok (if truthy wrapped then wrapped else JArr [])) ;;
    chars <- iterate characters ;;
    for_of chars formatted (hist_character charsConfig)
  else Ok formatted.

End Filtered.

(** [formatHistoricalTrackerData(trackerData, trackerConfig, userName,
    useAllEnabled)]. *)
Definition formatHistoricalTrackerData (trackerData trackerConfig : jsval)
    (userName : string) (useAllEnabled : bool) : outcome string :=
  if negb (truthy trackerData) || negb (truthy trackerConfig) then Ok "" else
  try_catch
    (formatted <- hist_userStats useAllEnabled trackerData trackerConfig userName "" ;;
     formatted <- hist_infoBox useAllEnabled trackerData trackerConfig formatted ;;
     formatted <- hist_characters useAllEnabled trackerData trackerConfig formatted ;;
     Ok (trim formatted))
    (fun _ => Ok "").

End Resolver.
End Historical.

(* ================================================================== *)
(** ** The contextual summary *)

Section Summary.
Context `{Builtins}.

(** The global state the functions read: the extension settings and the
    committed tracker data. *)
Variable extensionSettings : jsval.
Variable committedTrackerData : jsval.

Definition defaultAttributes : jsval :=
  JArr (map (fun p : string * string =>
               JObj [("id", JStr p.1); ("name", JStr p.2); ("enabled", JBool true)])
            [("str", "STR"); ("dex", "DEX"); ("con", "CON");
             ("int", "INT"); ("wis", "WIS"); ("cha", "CHA")]).

(** [buildAttributesString()]. *)
Definition buildAttributesString : outcome string :=
  let trackerConfig := prop extensionSettings "trackerConfig" in
  let classicStats := prop extensionSettings "classicStats" in
  let userStatsConfig := opt_member trackerConfig "userStats" in
  let configured := opt_member userStatsConfig "rpgAttributes" in
  let rpgAttributes := if truthy configured then configured else defaultAttributes in
  match rpgAttributes with
  | JArr attrs =>
      let enabledAttributes :=
        List.filter (fun attr => truthy attr && truthy (prop attr "enabled")
                                 && truthy (prop attr "name") && truthy (prop attr "id"))
                    attrs in
      attributeParts <- mapM (fun attr =>
          key <- to_string (prop attr "id") ;;
          stat <- member classicStats key ;;
          let value := if negb (strict_eq stat JUndefined) then stat else JNum 10 in
          n <- to_string (prop attr "name") ;;
          v <- to_string value ;;
          Ok (n +:+ " " +:+ v)) enabledAttributes ;;
      let showLevel :=
        negb (strict_eq (opt_member (opt_member trackerConfig "userStats") "showLevel")
                        (JBool false)) in
      attributeParts <-
        (if showLevel then
           level <- to_string (prop extensionSettings "level") ;;
           Ok (attributeParts ++ ["LVL " +:+ level])
         else Ok attributeParts) ;;
      Ok (join ", " attributeParts)
  | _ => Throw TypeError
  end.

(** One tracker of the summary: formatted inside its own [try]. *)
Definition summary_part (show payload trackerType : string) (userName : string)
    (summary : string) : outcome string :=
  if truthy (prop extensionSettings show)
     && truthy (prop committedTrackerData payload) then
    try_catch
      (formatted <- ContextFormat.formatTrackerDataForContext extensionSettings
                      (prop committedTrackerData payload) trackerType userName ;;
       Ok (if nonempty formatted then summary +:+ formatted +:+ nl else summary))
      (fun _ => Ok summary)
  else Ok summary.

(** [generateContextualSummary()]; [userName] is [getContext().name1]. *)
Definition generateContextualSummary (userName : string) : outcome string :=
  let trackerConfig := prop extensionSettings "trackerConfig" in
  summary <- summary_part "showUserStats" "userStats" "userStats" userName "" ;;
  summary <- summary_part "showInfoBox" "infoBox" "infoBox" userName summary ;;
  summary <- summary_part "showCharacterThoughts" "characterThoughts" "characters"
               userName summary ;;
  (* attributes, based on settings *)
  let alwaysSendAttributes :=
    opt_member (opt_member trackerConfig "userStats") "alwaysSendAttributes" in
  let showRPGAttributes :=
    negb (strict_eq (opt_member (opt_member trackerConfig "userStats") "showRPGAttributes")
                    (JBool false)) in
  let shouldSendAttributes := truthy alwaysSendAttributes && showRPGAttributes in
  summary <-
    (if shouldSendAttributes then
       attributesString <- buildAttributesString ;;
       Ok (summary +:+ userName +:+ "'s attributes: " +:+ attributesString +:+ nl)
     else Ok summary) ;;
  (* dice roll context, independent of attributes *)
  let roll := prop extensionSettings "lastDiceRoll" in
  summary <-
    (if truthy roll then
       total <- to_string (prop roll "total") ;;
       formula <- to_string (prop roll "formula") ;;
       Ok (summary +:+ userName +:+ " rolled " +:+ total +:+ " on the last "
           +:+ formula +:+ " roll. "
           +:+ (if shouldSendAttributes
                then "Based on their attributes, decide whether they succeeded or failed the action they attempted."
                else "Decide whether they succeeded or failed the action they attempted.")
           +:+ nl +:+ nl)
     else if shouldSendAttributes then Ok (summary +:+ nl)
     else Ok summary) ;;
  Ok (trim summary).

End Summary.

(* ================================================================== *)
(** ** The tracker example *)

Section Example.
Context `{Builtins}.

(** [applyLocks(data, trackerType)] of the lock manager, which is not part
    of this module: taken as given. *)
Variable applyLocks : jsval -> string -> outcome jsval.

Variable extensionSettings : jsval.
Variable committedTrackerData : jsval.

Definition fence : string := "```".

(** ['{\n' + parts.join(',\n') + '\n}']. *)
Definition unified (parts : list string) : string :=
  "{" +:+ nl +:+ join ("," +:+ nl) parts +:+ nl +:+ "}".

(** The body of the [try] of one tracker: the data is valid JSON, locks
    are applied and the result is the tracker's part of the unified
    structure. *)
Definition json_part (data : jsval) (key lockType : string) : outcome string :=
  _ <- JSON_parse_value data ;;
  lockedData <- applyLocks data lockType ;;
  locked <- to_string lockedData ;;
  Ok ("  " +:+ dquote +:+ key +:+ dquote +:+ ": " +:+ locked).

(** One tracker of the example.  The state is the list [parts] and the
    text [example]; [closing] ends the code block of the text format. *)
Definition example_part (show payload key lockType closing : string)
    (st : list string * string) : outcome (list string * string) :=
  let data := prop committedTrackerData payload in
  if truthy (prop extensionSettings show) && truthy data then
    try_catch
      (part <- json_part data key lockType ;; Ok (st.1 ++ [part], st.2))
      (fun _ =>
         (* text format: no locks applied *)
         text <- to_string data ;;
         Ok (st.1, st.2 +:+ fence +:+ nl +:+ text +:+ nl +:+ fence +:+ closing))
  else Ok st.

(** [generateTrackerExample()]. *)
Definition generateTrackerExample : outcome string :=
  st <- example_part "showUserStats" "userStats" "userStats" "userStats" nl ([], "") ;;
  st <- example_part "showInfoBox" "infoBox" "infoBox" "infoBox" nl st ;;
  st <- example_part "showCharacterThoughts" "characterThoughts" "characters"
          "characters" "" st ;;
  let parts := st.1 in
  (* JSON parts are wrapped in the unified structure *)
  let example := if (0 <? length parts)%nat then unified parts else st.2 in
  Ok (trim example).

End Example.

(* ================================================================== *)
(** ** The history injection map of [generateSeparateUpdatePrompt] *)

Section Injection.
Context `{Builtins}.

(** [recentMessages[i]]. *)
Definition message_at (recentMessages : list jsval) (i : nat) : jsval :=
  nth i recentMessages JUndefined.

(** The last assistant message index, scanning down from [n - 1];
    [-1] when there is none. *)
Fixpoint lastAssistantIdx_from (recentMessages : list jsval) (n : nat) : outcome Z :=
  match n with
  | O => Ok (-1)
  | S i =>
      is_user <- member (message_at recentMessages i) "is_user" ;;
      if negb (truthy is_user)
         && negb (truthy (prop (message_at recentMessages i) "is_system"))
      then Ok (Z.of_nat i)
      else lastAssistantIdx_from recentMessages i
  end.

Definition lastAssistantIdx (recentMessages : list jsval) : outcome Z :=
  lastAssistantIdx_from recentMessages (length recentMessages).

(** The preceding user message, scanning down from [n - 1]; [i] itself
    when there is none. *)
Fixpoint preceding_user (recentMessages : list jsval) (i : nat) (n : nat) : outcome nat :=
  match n with
  | O => Ok i
  | S j =>
      is_user <- member (message_at recentMessages j) "is_user" ;;
      if truthy is_user
         && negb (truthy (prop (message_at recentMessages j) "is_system"))
      then Ok j
      else preceding_user recentMessages i j
  end.

Section Loop.
Variable recentMessages : list jsval.
Variable trackerConfig historyPersistence : jsval.
Variable userName : string.
Variable position : jsval.
Variable last : Z.

(** One iteration of the loop over the assistant messages; a [continue]
    leaves the map as it is. *)
Definition injection_step (contextInjectionMap : gmap Z string) (i : nat)
  : outcome (gmap Z string) :=
  let message := message_at recentMessages i in
  (* only assistant messages have tracker data *)
  is_user <- member message "is_user" ;;
  if truthy is_user || truthy (prop message "is_system") then Ok contextInjectionMap else
  (* the last assistant message gets current context elsewhere *)
  if Z.of_nat i =? last then Ok contextInjectionMap else
  let swipe_id := prop message "swipe_id" in
  let currentSwipeId := if truthy swipe_id then swipe_id else JNum 0 in
  let swipeData := opt_member (prop message "extra") "rpg_companion_swipes" in
  (* if not in message.extra, check swipe_info *)
  swipeData <-
    (if negb (truthy swipeData) && truthy (prop message "swipe_info") then
       info <- computed_prop (prop message "swipe_info") currentSwipeId ;;
       Ok (if truthy info
           then opt_member (prop info "extra") "rpg_companion_swipes"
           else swipeData)
     else Ok swipeData) ;;
  if negb (truthy swipeData) then Ok contextInjectionMap else
  trackerData <- computed_prop swipeData currentSwipeId ;;
  if negb (truthy trackerData) then Ok contextInjectionMap else
  let useAllEnabled :=
    strict_eq (prop historyPersistence "sendAllEnabledOnRefresh") (JBool true) in
  formattedContext <-
    Historical.formatHistoricalTrackerData trackerData trackerConfig userName
      useAllEnabled ;;
  if negb (nonempty formattedContext) then Ok contextInjectionMap else
  let configured := prop historyPersistence "contextPreamble" in
  preamble <- to_string (if truthy configured then configured
                         else JStr "Context for that moment:") ;;
  let wrappedContext := nl +:+ preamble +:+ nl +:+ formattedContext in
  (* the target message, based on position *)
  targetIdx <- (if strict_eq position (JStr "user_message_end")
                then preceding_user recentMessages i i
                else Ok i) ;;
  if strict_eq position (JStr "user_message_end") && (targetIdx =? i)%nat
  then Ok contextInjectionMap else
  (* append to existing or create new entry *)
  Ok (match contextInjectionMap !! Z.of_nat targetIdx with
      | Some existing =>
          <[Z.of_nat targetIdx := existing +:+ wrappedContext]> contextInjectionMap
      | None => <[Z.of_nat targetIdx := wrappedContext]> contextInjectionMap
      end).

End Loop.

(** The map from message index to context string that
    [generateSeparateUpdatePrompt] builds over [recentMessages]. *)
Definition contextInjectionMap (recentMessages : list jsval)
    (trackerConfig historyPersistence : jsval) (userName : string)
  : outcome (gmap Z string) :=
  let configured := opt_member historyPersistence "injectionPosition" in
  let position := if truthy configured then configured
                  else JStr "assistant_message_end" in
  if truthy (opt_member historyPersistence "enabled") then
    last <- lastAssistantIdx recentMessages ;;
    for_of (seq 0 (length recentMessages)) ∅
      (injection_step recentMessages trackerConfig historyPersistence userName
         position last)
  else Ok ∅.

End Injection.

(* ================================================================== *)
(** ** A runtime for ASCII text and integer JSON

    An instance of [Builtins] on which the worked examples run.  Its
    [JSON.parse] covers the JSON texts whose numbers are integer literals
    and whose strings have no [\u] escape and rejects the others; case
    mapping and trimming act on ASCII. *)

Module Runtime.

Definition code (c : ascii) : nat := nat_of_ascii c.

Definition is_space (c : ascii) : bool :=
  let n := code c in ((9 <=? n) && (n <=? 13) || (n =? 32))%nat.

Definition is_digit (c : ascii) : bool :=
  let n := code c in ((48 <=? n) && (n <=? 57))%nat.

Definition upper_ascii (c : ascii) : ascii :=
  let n := code c in
  if ((97 <=? n) && (n <=? 122))%nat then ascii_of_nat (n - 32) else c.

Definition lower_ascii (c : ascii) : ascii :=
  let n := code c in
  if ((65 <=? n) && (n <=? 90))%nat then ascii_of_nat (n + 32) else c.

Fixpoint map_ascii (f : ascii -> ascii) (s : string) : string :=
  match s with
  | EmptyString => ""
  | String c r => String (f c) (map_ascii f r)
  end.

Fixpoint trim_start (l : list ascii) : list ascii :=
  match l with
  | c :: r => if is_space c then trim_start r else l
  | [] => []
  end.

Definition trim_ascii (s : string) : string :=
  String.string_of_list_ascii
    (rev (trim_start (rev (trim_start (String.list_ascii_of_string s))))).

(** The value of a run of decimal digits; [None] on any other character. *)
Fixpoint digits_value (acc : Z) (l : list ascii) : option Z :=
  match l with
  | [] => Some acc
  | c :: r =>
      if is_digit c then digits_value (10 * acc + Z.of_nat (code c - 48)) r
      else None
  end.

(** A signed decimal integer between optional spaces. *)
Definition integer_literal (s : string) : option Z :=
  match trim_start (rev (trim_start (rev (String.list_ascii_of_string s)))) with
  | [] => Some 0
  | "-"%char :: (_ :: _) as r => d ← digits_value 0 (tail r); Some (- d)
  | "+"%char :: (_ :: _) as r => digits_value 0 (tail r)
  | l => digits_value 0 l
  end.

Definition integer_gt_1 (s : string) : bool :=
  match integer_literal s with Some n => 1 <? n | None => false end.

(** *** JSON texts *)

Definition is_json_space (c : ascii) : bool :=
  let n := code c in ((n =? 32) || (n =? 9) || (n =? 10) || (n =? 13))%nat.

Fixpoint skip_ws (l : list ascii) : list ascii :=
  match l with
  | c :: r => if is_json_space c then skip_ws r else l
  | [] => []
  end.

(** The characters of a string literal after its opening quote. *)
Fixpoint string_body (l : list ascii) : option (string * list ascii) :=
  match l with
  | [] => None
  | c :: r =>
      if (code c =? 34)%nat then Some ("", r)
      else if (code c =? 92)%nat then
        match r with
        | e :: r' =>
            let unescaped :=
              match code e with
              | 34%nat => Some e | 92%nat => Some e | 47%nat => Some e
              | 98%nat => Some (ascii_of_nat 8)
              | 102%nat => Some (ascii_of_nat 12)
              | 110%nat => Some (ascii_of_nat 10)
              | 114%nat => Some (ascii_of_nat 13)
              | 116%nat => Some (ascii_of_nat 9)
              | _ => None
              end in
            ch ← unescaped;
            '(s, rest) ← string_body r';
            Some (String ch s, rest)
        | [] => None
        end
      else if (code c <? 32)%nat then None
      else '(s, rest) ← string_body r; Some (String c s, rest)
  end.

Fixpoint span_digits (l : list ascii) : list ascii * list ascii :=
  match l with
  | c :: r => if is_digit c then let '(d, rest) := span_digits r in (c :: d, rest)
              else ([], l)
  | [] => ([], [])
  end.

(** An integer literal: no leading zero, no fraction, no exponent. *)
Definition number_literal (l : list ascii) : option (Z * list ascii) :=
  let '(negative, l) := match l with
                        | "-"%char :: r => (true, r)
                        | _ => (false, l)
                        end in
  let '(d, rest) := span_digits l in
  match d with
  | [] => None
  | first :: more =>
      if (code first =? 48)%nat && bool_decide (more ≠ []) then None
      else match rest with
           | c :: _ =>
               if ((code c =? 46) || (code c =? 101) || (code c =? 69))%nat
               then None
               else n ← digits_value 0 d; Some (if negative then - n else n, rest)
           | [] => n ← digits_value 0 d; Some (if negative then - n else n, rest)
           end
  end.

(** Defining a property: a repeated key keeps its place and takes the
    new value. *)
Fixpoint set_prop (k : string) (v : jsval) (props : list (string * jsval))
  : list (string * jsval) :=
  match props with
  | [] => [(k, v)]
  | (k', v') :: rest =>
      if String.eqb k' k then (k, v) :: rest else (k', v') :: set_prop k v rest
  end.

(** Integer-like keys are enumerated first, in ascending order. *)
Definition array_index (k : string) : option Z :=
  match digits_value 0 (String.list_ascii_of_string k) with
  | Some n => if String.eqb (number_to_string n) k && (n <? 4294967295)
              then Some n else None
  | None => None
  end.

Fixpoint insert_index (n : Z) (kv : string * jsval)
    (sorted : list (Z * (string * jsval))) : list (Z * (string * jsval)) :=
  match sorted with
  | [] => [(n, kv)]
  | (m, kv') :: rest =>
      if n <? m then (n, kv) :: sorted else (m, kv') :: insert_index n kv rest
  end.

Definition enumeration_order (props : list (string * jsval))
  : list (string * jsval) :=
  let indexed := foldl (fun acc kv =>
                          match array_index kv.1 with
                          | Some n => insert_index n kv acc
                          | None => acc
                          end) [] props in
  map snd indexed
  ++ List.filter (fun kv => bool_decide (array_index kv.1 = None)) props.

Fixpoint parse_value (fuel : nat) (l : list ascii) : option (jsval * list ascii) :=
  match fuel with
  | O => None
  | S fuel' =>
      match skip_ws l with
      | "{"%char :: r =>
          match skip_ws r with
          | "}"%char :: rest => Some (JObj [], rest)
          | r' => parse_members fuel' [] r'
          end
      | "["%char :: r =>
          match skip_ws r with
          | "]"%char :: rest => Some (JArr [], rest)
          | r' => parse_elements fuel' [] r'
          end
      | "t"%char :: "r"%char :: "u"%char :: "e"%char :: rest =>
          Some (JBool true, rest)
      | "f"%char :: "a"%char :: "l"%char :: "s"%char :: "e"%char :: rest =>
          Some (JBool false, rest)
      | "n"%char :: "u"%char :: "l"%char :: "l"%char :: rest => Some (JNull, rest)
      | c :: r =>
          if (code c =? 34)%nat then
            '(s, rest) ← string_body r; Some (JStr s, rest)
          else '(n, rest) ← number_literal (c :: r); Some (JNum n, rest)
      | [] => None
      end
  end
with parse_members (fuel : nat) (acc : list (string * jsval)) (l : list ascii)
  : option (jsval * list ascii) :=
  match fuel with
  | O => None
  | S fuel' =>
      match skip_ws l with
      | c :: r =>
          if (code c =? 34)%nat then
            '(k, r1) ← string_body r;
            match skip_ws r1 with
            | ":"%char :: r2 =>
                '(v, r3) ← parse_value fuel' r2;
                match skip_ws r3 with
                | ","%char :: r4 => parse_members fuel' (set_prop k v acc) r4
                | "}"%char :: rest =>
                    Some (JObj (enumeration_order (set_prop k v acc)), rest)
                | _ => None
                end
            | _ => None
            end
          else None
      | [] => None
      end
  end
with parse_elements (fuel : nat) (acc : list jsval) (l : list ascii)
  : option (jsval * list ascii) :=
  match fuel with
  | O => None
  | S fuel' =>
      '(v, r) ← parse_value fuel' l;
      match skip_ws r with
      | ","%char :: r' => parse_elements fuel' (acc ++ [v]) r'
      | "]"%char :: rest => Some (JArr (acc ++ [v]), rest)
      | _ => None
      end
  end.

Definition parse (s : string) : option jsval :=
  let l := String.list_ascii_of_string s in
  '(v, rest) ← parse_value (S (length l)) l;
  match skip_ws rest with
  | [] => Some v
  | _ => None
  end.

#[export] Instance builtins : Builtins := {|
  JSON_parse := parse;
  string_gt_1 := integer_gt_1;
  toUpperCase := map_ascii upper_ascii;
  toLowerCase := map_ascii lower_ascii;
  trim := trim_ascii
|}.

End Runtime.

(* ================================================================== *)
(** ** Predicates and data of the statements *)

(** The computation ends: it returns or raises. *)
Definition defined {A} (c : outcome A) : Prop := c <> Diverge.

Definition raises {A} (c : outcome A) : Prop := exists e, c = Throw e.

Definition returns {A} (c : outcome A) : Prop := exists a, c = Ok a.

(** No object inside the value has an own [toString] member. *)
Fixpoint plain (v : jsval) : bool :=
  match v with
  | JArr items => forallb plain items
  | JObj props =>
      negb (bool_decide (is_Some (lookup_prop "toString" props)))
      && forallb (fun kv => plain (snd kv)) props
  | _ => true
  end.

(** [s.split('\n')]. *)
Fixpoint lines (s : string) : list string :=
  match s with
  | EmptyString => [""]
  | String c r =>
      if Ascii.eqb c (ascii_of_nat 10) then "" :: lines r
      else match lines r with
           | h :: t => String c h :: t
           | [] => [String c ""]
           end
  end.

(** The locked wrapper [{value: v, locked: b}]. *)
Definition locked_wrapper (v : jsval) (b : bool) : jsval :=
  JObj [("value", v); ("locked", JBool b)].

(** A named item whose quantity is an object with an own [toString]
    member, as JSON text can describe it. *)
Definition odd_quantity_item : jsval :=
  JObj [("name", JStr "Potion"); ("quantity", JObj [("toString", JNum 1)])].

(** What the context formatter gives on an object with no fields: the
    heading of the category. *)
Definition empty_snapshot_text (trackerType userName : string) : string :=
  if String.eqb trackerType "userStats" then userName +:+ "'s Stats:" +:+ nl
  else if String.eqb trackerType "infoBox" then "Info Box:" +:+ nl
  else "".

(** The scene-info snapshot of the weather example and its text. *)
Definition forest_scene : jsval :=
  JObj [("location", JStr "Forest Clearing");
        ("weather", JObj [("emoji", JStr "☀️"); ("forecast", JStr "Clear")])].

Definition forest_text : string :=
  "Info Box:" +:+ nl +:+ "Location: Forest Clearing" +:+ nl
  +:+ "Weather: ☀️ Clear" +:+ nl.

(** The player-stats snapshot and the settings of the HP example. *)
Definition hp_snapshot : jsval :=
  JObj [("stats", JArr [JObj [("id", JStr "hp"); ("name", JStr "HP");
                              ("value", JNum 7)]])].

Definition hp_customStats : jsval :=
  JArr [JObj [("id", JStr "hp"); ("maxValue", JNum 10)]].

Definition hp_settings : jsval :=
  JObj [("trackerConfig",
         JObj [("userStats",
                JObj [("statsDisplayMode", JStr "number");
                      ("customStats", hp_customStats)])])].

(** Tracker data with its three categories. *)
Definition tracker (userStats infoBox characterThoughts : jsval) : jsval :=
  JObj [("userStats", userStats); ("infoBox", infoBox);
        ("characterThoughts", characterThoughts)].

(** A tracker configuration in which the skills and the location persist
    in history and nothing else does. *)
Definition history_config : jsval :=
  JObj [("userStats",
         JObj [("customStats", JArr []);
               ("statusSection", JObj [("enabled", JBool true);
                                       ("persistInHistory", JBool false)]);
               ("skillsSection", JObj [("enabled", JBool true);
                                       ("persistInHistory", JBool true)])]);
        ("infoBox",
         JObj [("widgets",
                JObj [("date", JObj [("enabled", JBool true);
                                     ("persistInHistory", JBool false)]);
                      ("location", JObj [("enabled", JBool true);
                                         ("persistInHistory", JBool true)])])]);
        ("presentCharacters",
         JObj [("customFields", JArr []);
               ("thoughts", JObj [("enabled", JBool true);
                                  ("persistInHistory", JBool false)])])].

Definition skills_stats : jsval :=
  JObj [("status", JObj [("mood", JStr "Calm")]);
        ("skills", JArr [JStr "Stealth"; JStr "Archery"])].

Definition dated_scene : jsval :=
  JObj [("date", JStr "Monday"); ("location", JStr "Forest Clearing")].

(** An info box in the legacy text format. *)
Definition legacy_text : string := "Location: Forest Clearing".

(** The snapshot S: its persisted fields are the skills and the location. *)
Definition snapshot_S : jsval := tracker skills_stats dated_scene JUndefined.

Definition user_turn (text : string) : jsval :=
  JObj [("is_user", JBool true); ("is_system", JBool false); ("mes", JStr text)].

Definition model_turn (text : string) : jsval :=
  JObj [("is_user", JBool false); ("is_system", JBool false); ("mes", JStr text)].

Definition model_turn_with (text : string) (snapshot : jsval) : jsval :=
  JObj [("is_user", JBool false); ("is_system", JBool false); ("mes", JStr text);
        ("swipe_id", JNum 0);
        ("extra", JObj [("rpg_companion_swipes", JObj [("0", snapshot)])])].

Definition persistence (position : string) : jsval :=
  JObj [("enabled", JBool true); ("injectionPosition", JStr position)].

(** The window of the example: the snapshot is on the last turn. *)
Definition example_window : list jsval :=
  [user_turn "Hi"; model_turn "Hello"; user_turn "Go on";
   model_turn_with "We walk" snapshot_S].

(** The same turns with the snapshot on the first model turn. *)
Definition shifted_window : list jsval :=
  [user_turn "Hi"; model_turn_with "Hello" snapshot_S; user_turn "Go on";
   model_turn "We walk"].

Definition shifted_map : gmap Z string :=
  {[ 1 := nl +:+ "Context for that moment:" +:+ nl
          +:+ "Alice: Skills: Stealth, Archery" +:+ nl
          +:+ "Location: Forest Clearing" ]}.

Definition is_assistant (message : jsval) : bool :=
  negb (truthy (prop message "is_user")) && negb (truthy (prop message "is_system")).

(** [i] is the index of the last model-authored turn of the window. *)
Definition is_last_assistant (recentMessages : list jsval) (i : nat) : Prop :=
  (i < length recentMessages)%nat
  /\ is_assistant (message_at recentMessages i) = true
  /\ forall j, (i < j < length recentMessages)%nat ->
       is_assistant (message_at recentMessages j) = false.

(** A tracker of the example whose data is valid JSON: it is enabled and
    the [try] gives its part. *)
Definition json_category `{Builtins} (applyLocks : jsval -> string -> outcome jsval)
    (extensionSettings : jsval) (show : string) (data : jsval)
    (key lockType part : string) : Prop :=
  truthy (prop extensionSettings show) = true
  /\ truthy data = true
  /\ json_part applyLocks data key lockType = Ok part.

(** The example as a function of what the three trackers add. *)
Definition example_of `{Builtins} (du di dc : list string * string) : string :=
  let parts := du.1 ++ di.1 ++ dc.1 in
  trim (if (0 <? length parts)%nat then unified parts
        else du.2 +:+ di.2 +:+ dc.2).

(** A lock manager that leaves the data as it is. *)
Definition no_locks (data : jsval) (lockType : string) : outcome jsval := Ok data.

Definition all_shown : jsval :=
  JObj [("showUserStats", JBool true); ("showInfoBox", JBool true);
        ("showCharacterThoughts", JBool true)].

(** The JSON text {"hp": 7}. *)
Definition hp_json : string :=
  "{" +:+ dquote +:+ "hp" +:+ dquote +:+ ": 7}".

(* ================================================================== *)
(** ** Further definitions: the rest of the module and the statements about it *)

(** Two resolved texts put side by side as [join(', ')] does after the
    empty ones are dropped. *)
Definition glue (a b : string) : string :=
  if nonempty a then (if nonempty b then a +:+ ", " +:+ b else a) else b.

(** The shapes both resolvers know: scalars, lists, locked wrappers, and
    records without a mood that are either named or titled, or else a time
    range or a weather record; every member is of such a shape. *)
Fixpoint common_shape (v : jsval) : bool :=
  match v with
  | JArr items => forallb common_shape items
  | JObj props =>
      forallb (fun kv => common_shape (snd kv)) props
      && (js_in "value" (JObj props)
          || negb (js_in "mood" (JObj props))
             && xorb (js_in "name" (JObj props) || js_in "title" (JObj props))
                     (js_in "start" (JObj props) && js_in "end" (JObj props)
                      || js_in "emoji" (JObj props) && js_in "forecast" (JObj props)))
  | _ => true
  end.

(** The widgets of the info box the historical formatter reads. *)
Definition history_widgets : list string :=
  ["date"; "time"; "weather"; "temperature"; "location"; "recentEvents"].

(** The values a [for ... of] loop visits, none when the value is not
    iterable. *)
Definition visited (v : jsval) : list jsval :=
  match Historical.iterate v with Ok l => l | _ => [] end.

(** No entry of the tracker configuration asks to persist in history:
    no custom stat, section, widget or character field has
    [persistInHistory] true, and the inventory and quests flags are off. *)
Definition nothing_persists (trackerConfig : jsval) : bool :=
  let userStats := prop trackerConfig "userStats" in
  let widgets := prop (prop trackerConfig "infoBox") "widgets" in
  let characters := prop trackerConfig "presentCharacters" in
  forallb (fun s => negb (Historical.shouldIncludeStat false s))
          (elements (prop userStats "customStats"))
  && negb (Historical.shouldInclude false (prop userStats "statusSection"))
  && negb (Historical.shouldInclude false (prop userStats "skillsSection"))
  && negb (truthy (prop userStats "inventoryPersistInHistory"))
  && negb (truthy (prop userStats "questsPersistInHistory"))
  && forallb (fun k => negb (Historical.shouldInclude false (prop widgets k)))
             history_widgets
  && forallb (fun f => negb (Historical.shouldIncludeStat false f))
             (visited (prop characters "customFields"))
  && negb (Historical.shouldInclude false (prop characters "thoughts")).

(** A user-authored turn, as the backward scan tests it. *)
Definition is_user_turn (message : jsval) : bool :=
  truthy (prop message "is_user") && negb (truthy (prop message "is_system")).

(** The anchor read from the settings:
    [historyPersistence?.injectionPosition || 'assistant_message_end']. *)
Definition injection_position (historyPersistence : jsval) : jsval :=
  let configured := opt_member historyPersistence "injectionPosition" in
  if truthy configured then configured else JStr "assistant_message_end".

(** The preamble line:
    [historyPersistence.contextPreamble || 'Context for that moment:']. *)
Definition context_preamble (historyPersistence : jsval) : jsval :=
  let configured := prop historyPersistence "contextPreamble" in
  if truthy configured then configured else JStr "Context for that moment:".

(** A tracker configuration in which nothing persists in history. *)
Definition silent_config : jsval :=
  JObj [("userStats",
         JObj [("customStats", JArr [JObj [("id", JStr "hp");
                                           ("persistInHistory", JBool false)]]);
               ("statusSection", JObj [("persistInHistory", JBool false)]);
               ("skillsSection", JObj [("enabled", JBool true)])]);
        ("infoBox", JObj [("widgets", JObj [("date", JObj [("enabled", JBool true)])])]);
        ("presentCharacters",
         JObj [("customFields", JArr [JObj [("id", JStr "mood")]]);
               ("thoughts", JObj [])])].

(** The wrapped context of the snapshot S under the default preamble. *)
Definition context_S : string :=
  nl +:+ "Context for that moment:" +:+ nl
  +:+ "Alice: Skills: Stealth, Archery" +:+ nl +:+ "Location: Forest Clearing".

(** Two model turns with a snapshot answer the same user turn. *)
Definition double_window : list jsval :=
  [user_turn "Hi"; model_turn_with "Hello" snapshot_S;
   model_turn_with "And more" snapshot_S; model_turn "We walk"].

(** A window without any user turn. *)
Definition model_only_window : list jsval :=
  [model_turn_with "Hello" snapshot_S; model_turn_with "And more" snapshot_S;
   model_turn "We walk"].

(** [chat.slice(-depth)] for an integer [depth]: the relative start
    [-depth] counts from the end when negative and is clamped to the
    length otherwise. *)
Definition slice_last {A} (depth : Z) (chat : list A) : list A :=
  let len := Z.of_nat (length chat) in
  let start := if - depth <? 0 then Z.max (len - depth) 0 else Z.min (- depth) len in
  drop (Z.to_nat start) chat.

(** Whether [pattern] starts [s], and what follows it. *)
Fixpoint strip_prefix (pattern s : string) : option string :=
  match pattern, s with
  | EmptyString, _ => Some s
  | String p pattern', String c s' =>
      if Ascii.eqb p c then strip_prefix pattern' s' else None
  | String _ _, EmptyString => None
  end.

(** [s.replace(pattern, replacement)] for a string pattern and a
    replacement without dollar signs: the first occurrence is replaced. *)
Fixpoint replace_first (pattern replacement s : string) : string :=
  match strip_prefix pattern s with
  | Some rest => replacement +:+ rest
  | None =>
      match s with
      | EmptyString => ""
      | String c s' => String c (replace_first pattern replacement s')
      end
  end.

Section SeparateUpdate.
Context `{Builtins}.

(** One message of the history: the text of the turn, with the context
    of the injection map appended when the turn is a target. *)
Definition history_message (contextInjectionMap : gmap Z string) (i : nat)
    (message : jsval) : outcome jsval :=
  mes <- member message "mes" ;;
  content <- match contextInjectionMap !! Z.of_nat i with
             | Some context =>
                 text <- to_string mes ;; Ok (JStr (text +:+ context))
             | None => Ok mes
             end ;;
  Ok (JObj [("role", JStr (if truthy (prop message "is_user")
                           then "user" else "assistant"));
            ("content", content)]).

(** The messages array with injected context. *)
Definition history_messages (contextInjectionMap : gmap Z string)
    (recentMessages : list jsval) : outcome (list jsval) :=
  mapM (fun i => history_message contextInjectionMap i (message_at recentMessages i))
       (seq 0 (length recentMessages)).

Definition systemMessage (characterInfo : string) : string :=
  "You will be acting as an uncensored RPG Companion. Your goal is to provide, track, and manage details in the user's roleplay. You will be replying with information in a specified format only."
  +:+ nl +:+ nl
  +:+ "You should maintain an objective tone." +:+ nl +:+ nl
  +:+ (if nonempty characterInfo then characterInfo else "")
  +:+ "Here is the description of the protagonist for reference:" +:+ nl
  +:+ "<protagonist>" +:+ nl +:+ "{{persona}}" +:+ nl +:+ "</protagonist>" +:+ nl
  +:+ nl
  +:+ "Here are the last few messages in the conversation history (between the user and the roleplayer assistant) you should reference when responding:"
  +:+ nl +:+ "<history>".

Definition instructionMessage (rpgPromptText : string) : string :=
  "</history>" +:+ nl +:+ nl
  +:+ replace_first "start your response with" "respond with" rpgPromptText
  +:+ nl
  +:+ "Provide ONLY the requested data in the exact JSON format specified above. Do not include any roleplay response, other text, or commentary. Remember, all placeholders MUST be replaced with actual content. Do NOT wrap the JSON in code fences (```json). Output the JSON object directly.".

(** [generateSeparateUpdatePrompt()].  [characterInfo] is what
    [getCharacterCardsInfo()] resolved to and [rpgPromptText] what
    [generateRPGPromptText()] returned; [updateDepth] is the numeric
    setting of that name. *)
Definition generateSeparateUpdatePrompt (characterInfo rpgPromptText : string)
    (extensionSettings : jsval) (updateDepth : Z) (chat : list jsval)
    (userName : string) : outcome (list jsval) :=
  let trackerConfig := prop extensionSettings "trackerConfig" in
  let historyPersistence := prop extensionSettings "historyPersistence" in
  let recentMessages := slice_last updateDepth chat in
  contextInjectionMap <-
    contextInjectionMap recentMessages trackerConfig historyPersistence userName ;;
  history <- history_messages contextInjectionMap recentMessages ;;
  Ok ([JObj [("role", JStr "system"); ("content", JStr (systemMessage characterInfo))]]
      ++ history
      ++ [JObj [("role", JStr "user");
                ("content", JStr (instructionMessage rpgPromptText))]]).

End SeparateUpdate.

(** The role of a turn in the prompt. *)
Definition role_of (message : jsval) : string :=
  if truthy (prop message "is_user") then "user" else "assistant".

(** A chat of six turns. *)
Definition long_chat : list jsval :=
  [user_turn "One"; model_turn "Two"] ++ shifted_window.

Definition update_settings : jsval :=
  JObj [("trackerConfig", history_config);
        ("historyPersistence", persistence "assistant_message_end")].

(** [s.includes(pattern)] for two strings. *)
Fixpoint includes_text (pattern s : string) : bool :=
  match strip_prefix pattern s with
  | Some _ => true
  | None =>
      match s with
      | EmptyString => false
      | String _ s' => includes_text pattern s'
      end
  end.

Definition DEFAULT_NARRATOR_PROMPT : string :=
  "Infer the identity and details of characters present in each scene from the story context below. Do not use fixed character references; instead, identify characters naturally based on their actions, dialogue, and descriptions in the narrative.".

Section CharacterCards.
Context `{Builtins}.

(** The globals the function reads.  [getGroupMembers(selected_group)]
    belongs to the host application; [groupMembers] is the array it
    returned, or [None] when it returned [undefined]. *)
Variable extensionSettings : jsval.
Variable this_chid : jsval.
Variable characters : jsval.
Variable selected_group : jsval.
Variable groups : jsval.
Variable groupMembers : option (list jsval).

(** The description and personality lines of a card. *)
Definition card_lines (character : jsval) : outcome string :=
  let description := prop character "description" in
  d <- (if truthy description
        then text <- to_string description ;; Ok (text +:+ nl) else Ok "") ;;
  let personality := prop character "personality" in
  p <- (if truthy personality
        then text <- to_string personality ;; Ok (text +:+ nl) else Ok "") ;;
  Ok (d +:+ p).

(** [this_chid !== undefined && characters && characters[this_chid]]. *)
Definition selected_character : outcome jsval :=
  if negb (strict_eq this_chid JUndefined) && truthy characters then
    computed_prop characters this_chid
  else Ok JUndefined.

(** [disabledMembers.includes(avatar)]: the members of an array are
    compared with the avatar, a string is searched for its text, and
    every other truthy value has no such method. *)
Definition includes_value (disabledMembers avatar : jsval) : outcome bool :=
  match disabledMembers with
  | JArr muted => Ok (existsb (strict_eq avatar) muted)
  | JStr text => a <- to_string avatar ;; Ok (includes_text a text)
  | _ => Throw TypeError
  end.

(** The card of a group member under the number [characterIndex]. *)
Definition member_card (characterIndex : nat) (member : jsval) : outcome string :=
  let index := number_to_string (Z.of_nat characterIndex) in
  name <- to_string (prop member "name") ;;
  body <- card_lines member ;;
  Ok ("<character" +:+ index +:+ "=" +:+ dquote +:+ name +:+ dquote +:+ ">" +:+ nl
      +:+ body +:+ "</character" +:+ index +:+ ">" +:+ nl +:+ nl).

(** The callback of [groupMembers.forEach] on the state
    [(characterIndex, characterInfo)]. *)
Definition member_step (disabledMembers : jsval) (st : nat * string)
    (member : jsval) : outcome (nat * string) :=
  if negb (truthy member) || negb (truthy (prop member "name")) then Ok st else
  (* muted characters are skipped, by avatar filename *)
  muted <- (if truthy (prop member "avatar")
            then includes_value disabledMembers (prop member "avatar")
            else Ok false) ;;
  if muted then Ok st else
  let characterIndex := S st.1 in
  card <- member_card characterIndex member ;;
  Ok (characterIndex, st.2 +:+ card).

(** [group?.disabled_members || []]. *)
Definition disabledMembers (group : jsval) : jsval :=
  let configured := opt_member group "disabled_members" in
  if truthy configured then configured else JArr [].

(** [groups.find(g => g.id === selected_group)]. *)
Definition current_group : outcome jsval :=
  match groups with
  | JArr gs =>
      findM (fun g => id <- member g "id" ;; Ok (strict_eq id selected_group)) gs
  | _ => Throw TypeError
  end.

(** [getCharacterCardsInfo()]. *)
Definition getCharacterCardsInfo : outcome string :=
  if truthy (prop extensionSettings "narratorMode") then
    (* the character card is the narrator context *)
    character <- selected_character ;;
    if truthy character then
      body <- card_lines character ;;
      let custom := prop extensionSettings "customNarratorPrompt" in
      narratorPrompt <- to_string (if truthy custom then custom
                                   else JStr DEFAULT_NARRATOR_PROMPT) ;;
      Ok ("You are acting as the narrator for this story. The narrator card provides context for the story tone and style:"
          +:+ nl +:+ nl
          +:+ "<narrator>" +:+ nl +:+ body +:+ "</narrator>" +:+ nl +:+ nl
          +:+ narratorPrompt +:+ nl +:+ nl)
    else Ok ""
  else if truthy selected_group then
    group <- current_group ;;
    match groupMembers with
    | Some (first :: others) =>
        st <- for_of (first :: others)
                (0%nat, "Characters in this roleplay:" +:+ nl +:+ nl)
                (member_step (disabledMembers group)) ;;
        Ok st.2
    | _ => Ok ""
    end
  else
    character <- selected_character ;;
    if truthy character then
      name <- to_string (prop character "name") ;;
      body <- card_lines character ;;
      Ok ("Character in this roleplay:" +:+ nl +:+ nl
          +:+ "<character=" +:+ dquote +:+ name +:+ dquote +:+ ">" +:+ nl
          +:+ body +:+ "</character>" +:+ nl +:+ nl)
    else Ok "".

End CharacterCards.

(** A member is listed by the group loop: it has a name and its avatar
    is not among the muted ones. *)
Definition listed (muted : list jsval) (member : jsval) : bool :=
  truthy member && truthy (prop member "name")
  && negb (truthy (prop member "avatar")
           && existsb (strict_eq (prop member "avatar")) muted).

(** The cards of [members], numbered from [characterIndex + 1] on. *)
Fixpoint cards_from `{Builtins} (characterIndex : nat) (members : list jsval)
  : outcome string :=
  match members with
  | [] => Ok ""
  | member :: rest =>
      card <- member_card (S characterIndex) member ;;
      others <- cards_from (S characterIndex) rest ;;
      Ok (card +:+ others)
  end.

Definition group_of (id : string) (muted : list jsval) : jsval :=
  JObj [("id", JStr id); ("disabled_members", JArr muted)].

Definition member_of (name avatar description : string) : jsval :=
  JObj [("name", JStr name); ("avatar", JStr avatar);
        ("description", JStr description)].

Definition party : list jsval :=
  [member_of "Ann" "ann.png" "A ranger.";
   member_of "Bob" "bob.png" "A bard.";
   member_of "Cid" "cid.png" "A smith."].

(** The first line of a formatted tracker. *)
Definition heading (trackerType userName : string) : string :=
  if String.eqb trackerType "userStats" then userName +:+ "'s Stats:" +:+ nl
  else if String.eqb trackerType "infoBox" then "Info Box:" +:+ nl
  else "Present Characters:" +:+ nl.

(** A text whose lines are all ended by a newline. *)
Definition ends_nl (s : string) : Prop := exists p, s = p +:+ nl.

Definition closed (s : string) : Prop := s = "" \/ ends_nl s.

(** [r] is [formatted] with closed lines added. *)
Definition grows (formatted r : string) : Prop :=
  exists s, r = formatted +:+ s /\ closed s.

Section Inventory.
Context `{Builtins}.

(** [if (v && v !== 'None') summary += `Label: ${v}` + closing]. *)
Definition inventory_section (label : string) (v : jsval) (closing : string)
    (summary : string) : outcome string :=
  if truthy v && negb (strict_eq v (JStr "None")) then
    text <- to_string v ;; Ok (summary +:+ label +:+ ": " +:+ text +:+ closing)
  else Ok summary.

(** The body of the loop over the stored locations. *)
Definition stored_section (summary : string) (entry : string * jsval)
  : outcome string :=
  let location := fst entry in
  let items := snd entry in
  if truthy items && negb (strict_eq items (JStr "None")) then
    text <- to_string items ;;
    Ok (summary +:+ "Stored - " +:+ location +:+ ": " +:+ text +:+ nl)
  else Ok summary.

(** [buildInventorySummary(inventory)]. *)
Definition buildInventorySummary (inventory : jsval) : outcome string :=
  match inventory with
  | JStr legacy => Ok legacy
  | _ =>
      if truthy inventory && typeof_object inventory
         && strict_eq (prop inventory "version") (JNum 2) then
        summary <- inventory_section "On Person" (prop inventory "onPerson") nl "" ;;
        summary <- inventory_section "Clothing" (prop inventory "clothing") nl summary ;;
        let stored := prop inventory "stored" in
        summary <-
          (if truthy stored && (0 <? length (own_entries stored))%nat then
             for_of (own_entries stored) summary stored_section
           else Ok summary) ;;
        summary <- inventory_section "Assets" (prop inventory "assets") "" summary ;;
        Ok (trim summary)
      else Ok "None"
  end.

End Inventory.

(** A version 2 inventory. *)
Definition inventory_v2 (onPerson clothing : jsval) (stored : list (string * jsval))
    (assets : jsval) : jsval :=
  JObj [("version", JNum 2); ("onPerson", onPerson); ("clothing", clothing);
        ("stored", JObj stored); ("assets", assets)].

(** A stored location that holds items. *)
Definition holds_items (entry : string * jsval) : bool :=
  truthy (snd entry) && negb (strict_eq (snd entry) (JStr "None")).

(** The replacement text of [String.prototype.replace] for a pattern
    without capture groups: [$$] is a dollar sign, [$&] the matched
    text, a dollar sign with a backquote the text before the match, with
    a quote the text after it; any other dollar sign stands for itself. *)
Fixpoint substitution (matched before after replacement : string) : string :=
  match replacement with
  | EmptyString => ""
  | String c tail =>
      if Ascii.eqb c "$" then
        match tail with
        | EmptyString => "$"
        | String d rest =>
            if Ascii.eqb d "$" then
              "$" +:+ substitution matched before after rest
            else if Ascii.eqb d "&" then
              matched +:+ substitution matched before after rest
            else if Ascii.eqb d "`" then
              before +:+ substitution matched before after rest
            else if Ascii.eqb d "'" then
              after +:+ substitution matched before after rest
            else String c (substitution matched before after tail)
        end
      else String c (substitution matched before after tail)
  end.

(** The scan of [s.replace(/pattern/g, replacement)] for a pattern that is
    a literal, non-empty text: [before] is the text already passed and
    [skip] the number of characters left of the current match. *)
Fixpoint replace_scan (pattern replacement before s : string) (skip : nat) : string :=
  match s with
  | EmptyString => ""
  | String c s' =>
      match skip with
      | S k => replace_scan pattern replacement (before +:+ String c "") s' k
      | O =>
          match strip_prefix pattern s with
          | Some after =>
              substitution pattern before after replacement
              +:+ replace_scan pattern replacement (before +:+ String c "") s'
                    (String.length pattern - 1)
          | None =>
              String c (replace_scan pattern replacement (before +:+ String c "") s' 0)
          end
      end
  end.

Definition replace_all (pattern replacement s : string) : string :=
  replace_scan pattern replacement "" s 0.

(** The character [c] does not occur in [s]. *)
Fixpoint no_char (c : ascii) (s : string) : bool :=
  match s with
  | EmptyString => true
  | String d s' => negb (Ascii.eqb d c) && no_char c s'
  end.

(** [l.indexOf(k)]. *)
Fixpoint index_of (k : string) (l : list string) : Z :=
  match l with
  | [] => -1
  | x :: rest =>
      if String.eqb x k then 0
      else let i := index_of k rest in if i <? 0 then -1 else i + 1
  end.

(** [json.split('\n').map((line, i) => i === 0 ? line : '  ' + line).join('\n')]:
    the lines after the first are moved two spaces in. *)
Definition nest (json : string) : string :=
  match lines json with
  | [] => ""
  | first :: rest => join nl (first :: map (fun line => "  " +:+ line) rest)
  end.

Definition DEFAULT_HTML_PROMPT : string :=
  "If appropriate, include inline HTML, CSS, and JS segments whenever they enhance visual storytelling (e.g., for in-world screens, posters, books, letters, signs, crests, labels, etc.). Style them to match the setting's theme (e.g., fantasy, sci-fi), keep the text readable, and embed all assets directly (using inline SVGs only with no external scripts, libraries, or fonts). Use these elements freely and naturally within the narrative as characters would encounter them, including animations, 3D effects, pop-ups, dropdowns, websites, and so on. Do not wrap the HTML/CSS/JS in code fences!".

Definition DEFAULT_SPOTIFY_PROMPT : string :=
  "If fitting for the current scene's mood and atmosphere, suggest a song that fits the ambiance. Choose music that enhances the emotional tone, setting, or action of the scene.".

Definition SPOTIFY_FORMAT_INSTRUCTION : string :=
  "Include it in this exact format: <spotify:Song Title - Artist Name/>.".

Section Instructions.
Context `{Builtins}.

Variable extensionSettings : jsval.

(** The instruction builders of [jsonPromptHelpers.js], which are not part
    of this module: the three JSON instructions they return, and
    [addLockInstruction]. *)
Variable buildUserStatsJSONInstruction : string.
Variable buildInfoBoxJSONInstruction : string.
Variable buildCharactersJSONInstruction : string.
Variable addLockInstruction : string -> string.

(** [trackerConfig?.userStats?.alwaysSendAttributes && showRPGAttributes]. *)
Definition shouldSendAttributes : bool :=
  let trackerConfig := prop extensionSettings "trackerConfig" in
  let alwaysSendAttributes :=
    opt_member (opt_member trackerConfig "userStats") "alwaysSendAttributes" in
  let showRPGAttributes :=
    negb (strict_eq (opt_member (opt_member trackerConfig "userStats")
                       "showRPGAttributes") (JBool false)) in
  truthy alwaysSendAttributes && showRPGAttributes.

(** One tracker of the FORMAT block: its key and its instruction, moved
    in. *)
Definition format_section (key json : string) (instructions : string) : string :=
  instructions +:+ "  " +:+ dquote +:+ key +:+ dquote +:+ ": " +:+ nest json.

(** A comma after a tracker that is not the last of the enabled ones. *)
Definition separator (enabledTrackers : list string) (key : string) : string :=
  if index_of key enabledTrackers <? Z.of_nat (length enabledTrackers) - 1
  then "," +:+ nl else nl.

(** [generateTrackerInstructions(includeHtmlPrompt, includeContinuation,
    includeAttributes)]; [userName] is [getContext().name1]. *)
Definition generateTrackerInstructions
    (includeHtmlPrompt includeContinuation includeAttributes : bool)
    (userName : string) : outcome string :=
  let showUserStats := truthy (prop extensionSettings "showUserStats") in
  let showInfoBox := truthy (prop extensionSettings "showInfoBox") in
  let showCharacterThoughts := truthy (prop extensionSettings "showCharacterThoughts") in
  let hasAnyTrackers := showUserStats || showInfoBox || showCharacterThoughts in
  instructions <-
    (if hasAnyTrackers then
       (* universal instruction header *)
       let instructions :=
      nl
      +:+ "At the start of every reply, you must attach an update to the trackers in EXACTLY the JSON format shown below as a single unified JSON object containing all enabled tracker fields. " in
       let customPrompt := prop extensionSettings "customTrackerInstructionsPrompt" in
       instructions <-
         (if truthy customPrompt then
            match customPrompt with
            | JStr text =>
                Ok (instructions +:+ replace_all "{userName}" userName text)
            | _ => Throw TypeError
            end
          else
            Ok (instructions +:+
      "Replace X with actual numbers (e.g., 69) and replace all placeholders with concrete in-world details that "
      +:+ userName
      +:+ " perceives about the current scene and the present characters. For example: "
      +:+ dquote +:+ "Location" +:+ dquote +:+ " becomes " +:+ dquote
      +:+ "Forest Clearing" +:+ dquote +:+ ", " +:+ dquote +:+ "Mood Emoji"
      +:+ dquote +:+ " becomes " +:+ dquote +:+ "😊" +:+ dquote
      +:+ ". DO NOT include " +:+ userName
      +:+ " in the characters section, only NPCs. "
                +:+
      "Consider the last trackers in the conversation (if they exist). Manage them accordingly and realistically; raise, lower, change, or keep the values unchanged based on the user's actions, the passage of time, and logical consequences.")) ;;
       let instructions := instructions +:+ addLockInstruction "" in
       let enabledTrackers :=
         (if showUserStats then ["userStats"] else [])
         ++ (if showInfoBox then ["infoBox"] else [])
         ++ (if showCharacterThoughts then ["characters"] else []) in
       let instructions :=
         if (0 <? length enabledTrackers)%nat then
           let instructions := instructions +:+
      nl +:+ nl +:+ "FORMAT:" +:+ nl +:+ nl
      +:+ "Provide EXACTLY ONE JSON code block with ALL tracker sections wrapped in a single object:"
      +:+ nl +:+ nl +:+ "```json" +:+ nl +:+ "{" +:+ nl in
           let instructions :=
             if showUserStats
             then format_section "userStats" buildUserStatsJSONInstruction
                    instructions
                  +:+ separator enabledTrackers "userStats"
             else instructions in
           let instructions :=
             if showInfoBox
             then format_section "infoBox" buildInfoBoxJSONInstruction
                    instructions
                  +:+ separator enabledTrackers "infoBox"
             else instructions in
           let instructions :=
             if showCharacterThoughts
             then format_section "characters" buildCharactersJSONInstruction
                    instructions
             else instructions in
           instructions +:+
      nl +:+ "}" +:+ nl +:+ "```" +:+ nl +:+ nl
      +:+ "Do NOT output multiple separate JSON objects. Everything must be in ONE unified object with the keys shown above."
         else instructions in
       (* the continuation instruction *)
       instructions <-
         (if includeContinuation then
            let customPrompt := prop extensionSettings "customTrackerContinuationPrompt" in
            if truthy customPrompt then
              text <- to_string customPrompt ;;
              Ok (instructions +:+ nl +:+ nl +:+ text +:+ nl +:+ nl)
            else
              Ok (instructions +:+
      nl +:+ nl
      +:+ "After updating the trackers, continue directly from where the last message in the chat history left off. Ensure the trackers you provide naturally reflect and influence the narrative. Character behavior, dialogue, and story events should acknowledge these conditions when relevant, such as fatigue affecting the protagonist's performance, low hygiene influencing their social interactions, environmental factors shaping the scene, a character's emotional state coloring their responses, and so on. Remember, all bracketed placeholders (e.g., [Location], [Mood Emoji]) MUST be replaced with actual content without the square brackets."
      +:+ nl +:+ nl)
          else Ok instructions) ;;
       (* the attributes *)
       instructions <-
         (if includeAttributes && shouldSendAttributes then
            attributesString <- buildAttributesString extensionSettings ;;
            Ok (instructions +:+
      userName +:+ "'s attributes: " +:+ attributesString +:+ nl)
          else Ok instructions) ;;
       (* dice roll context, independent of attributes *)
       let roll := prop extensionSettings "lastDiceRoll" in
       if truthy roll then
         total <- to_string (prop roll "total") ;;
         formula <- to_string (prop roll "formula") ;;
         if includeAttributes && shouldSendAttributes then
           Ok (instructions +:+
      userName +:+ " rolled " +:+ total +:+ " on the last " +:+ formula
      +:+ " roll. Based on their attributes, decide whether they succeeded or failed the action they attempted."
      +:+ nl +:+ nl)
         else
           Ok (instructions +:+
      userName +:+ " rolled " +:+ total +:+ " on the last " +:+ formula
      +:+ " roll. Decide whether they succeeded or failed the action they attempted."
      +:+ nl +:+ nl)
       else if includeAttributes && shouldSendAttributes then Ok (instructions +:+ nl)
       else Ok instructions
     else Ok "") ;;
  (* the HTML prompt *)
  instructions <-
    (if truthy (prop extensionSettings "enableHtmlPrompt") && includeHtmlPrompt then
       let instructions := if hasAnyTrackers then instructions else instructions +:+ nl in
       let custom := prop extensionSettings "customHtmlPrompt" in
       htmlPrompt <- to_string (if truthy custom then custom
                                else JStr DEFAULT_HTML_PROMPT) ;;
       Ok (instructions +:+ htmlPrompt)
     else Ok instructions) ;;
  (* the Spotify music prompt *)
  if truthy (prop extensionSettings "enableSpotifyMusic") && includeHtmlPrompt then
    let instructions :=
      if hasAnyTrackers || truthy (prop extensionSettings "enableHtmlPrompt")
      then instructions +:+ nl +:+ nl else instructions +:+ nl in
    let custom := prop extensionSettings "customSpotifyPrompt" in
    spotifyPrompt <- to_string (if truthy custom then custom
                                else JStr DEFAULT_SPOTIFY_PROMPT) ;;
    Ok (instructions +:+ spotifyPrompt +:+ " " +:+ SPOTIFY_FORMAT_INSTRUCTION)
  else Ok instructions.

End Instructions.

Section RPGPrompt.
Context `{Builtins}.

(** [applyLocks] of the lock manager and [JSON.stringify(v, null, 2)],
    which are not part of this module. *)
Variable applyLocks : jsval -> string -> outcome jsval.
Variable JSON_stringify : jsval -> string.

Variable extensionSettings : jsval.
Variable committedTrackerData : jsval.

Variable buildUserStatsJSONInstruction : string.
Variable buildInfoBoxJSONInstruction : string.
Variable buildCharactersJSONInstruction : string.
Variable addLockInstruction : string -> string.

(** The state of the previous block: the text and the object
    [unifiedPrevious], its keys in the order they were set. *)
Definition previous_state : Type := string * list (string * jsval).

(** [!unifiedPrevious.key]. *)
Definition unset (unifiedPrevious : list (string * jsval)) (key : string) : bool :=
  negb (truthy (prop (JObj unifiedPrevious) key)).

Definition previous_userStats (st : previous_state) : outcome previous_state :=
  let data := prop committedTrackerData "userStats" in
  if truthy (prop extensionSettings "showUserStats") && truthy data then
    try_catch
      (lockedData <- applyLocks data "userStats" ;;
       parsed <- JSON_parse_value lockedData ;;
       Ok (st.1, st.2 ++ [("userStats", parsed)]))
      (fun _ =>
         (* old text format, shown separately *)
         text <- to_string data ;;
         Ok (st.1 +:+ text +:+ nl +:+ nl, st.2))
  else Ok st.

Definition previous_infoBox (st : previous_state) : outcome previous_state :=
  let data := prop committedTrackerData "infoBox" in
  if truthy (prop extensionSettings "showInfoBox") && truthy data then
    try_catch
      (lockedData <- applyLocks data "infoBox" ;;
       parsed <- JSON_parse_value lockedData ;;
       Ok (st.1, st.2 ++ [("infoBox", parsed)]))
      (fun _ =>
         if unset st.2 "userStats" then
           text <- to_string data ;;
           Ok (st.1 +:+ text +:+ nl +:+ nl, st.2)
         else Ok st)
  else Ok st.

(** There is actual character data: a non-empty array, or an object with
    a non-empty [characters] array. *)
Definition has_characters (parsed : jsval) : bool :=
  truthy parsed
  && ((isArray parsed && (0 <? length (elements parsed))%nat)
      || (truthy (prop parsed "characters") && isArray (prop parsed "characters")
          && (0 <? length (elements (prop parsed "characters")))%nat)).

(** The characters are included whatever [showCharacterThoughts] is. *)
Definition previous_characters (st : previous_state) : outcome previous_state :=
  let data := prop committedTrackerData "characterThoughts" in
  if truthy data then
    try_catch
      (parsed <- (if typeof_object data then applyLocks data "characters"
                  else lockedData <- applyLocks data "characters" ;;
                       JSON_parse_value lockedData) ;;
       Ok (if has_characters parsed
           then (st.1, st.2 ++ [("characters", parsed)]) else st))
      (fun _ =>
         if unset st.2 "userStats" && unset st.2 "infoBox" then
           charText <- (if typeof_string data then to_string data
                        else Ok (JSON_stringify data)) ;;
           Ok (st.1 +:+ charText +:+ nl, st.2)
         else Ok st)
  else Ok st.

(** [generateRPGPromptText()]. *)
Definition generateRPGPromptText (userName : string) : outcome string :=
  let promptText :=
      "Here are the previous trackers in the roleplay that you should consider when responding:"
      +:+ nl
      +:+
      "<previous>" +:+ nl in
  let hasAnyPreviousData :=
    truthy (prop committedTrackerData "userStats")
    || truthy (prop committedTrackerData "infoBox")
    || truthy (prop committedTrackerData "characterThoughts") in
  promptText <-
    (if hasAnyPreviousData then
       st <- previous_userStats (promptText, []) ;;
       st <- previous_infoBox st ;;
       st <- previous_characters st ;;
       Ok (if (0 <? length st.2)%nat
           then st.1 +:+ JSON_stringify (JObj st.2) +:+ nl else st.1)
     else
       Ok (promptText +:+
      "None - this is the first update." +:+ nl)) ;;
  let promptText := promptText +:+
      "</previous>" +:+ nl in
  (* no HTML prompt, continuation instruction or attributes here *)
  instructions <-
    generateTrackerInstructions extensionSettings buildUserStatsJSONInstruction
      buildInfoBoxJSONInstruction buildCharactersJSONInstruction addLockInstruction
      false false false userName ;;
  Ok (promptText +:+ instructions).

End RPGPrompt.

(** A turn the prompt builder can read: it is an object or another value
    with members, and neither its text nor its swipe number has an own
    [toString] member inside. *)
Definition readable_turn (message : jsval) : bool :=
  negb (is_nullish message) && plain (prop message "swipe_id")
  && plain (prop message "mes").

(* ================================================================== *)
(** * Properties *)

(** A statement with a [Builtins] binder holds for every runtime; a closed
    example is evaluated on the runtime [Runtime.builtins]. *)
#[local] Existing Instance Runtime.builtins.

(** ** Outcomes *)

Lemma bind_ext {A B} (c : outcome A) (k1 k2 : A -> outcome B) :
  (forall a, c = Ok a -> k1 a = k2 a) -> bind c k1 = bind c k2.
Proof. destruct c; simpl; auto. Qed.

Lemma bind_defined {A B} (c : outcome A) (k : A -> outcome B) :
  defined c -> (forall a, c = Ok a -> defined (k a)) -> defined (bind c k).
Proof.
  intros Hc Hk. destruct c; simpl; [apply Hk; reflexivity | discriminate | now destruct Hc].
Qed.

Lemma mapM_ext {A B} (f g : A -> outcome B) l :
  (forall x, In x l -> f x = g x) -> mapM f l = mapM g l.
Proof.
  induction l as [|x l IH]; simpl; intros Hfg; [reflexivity|].
  rewrite (Hfg x) by auto. apply bind_ext; intros y _.
  rewrite IH by auto. reflexivity.
Qed.

Lemma mapM_defined {A B} (f : A -> outcome B) l :
  (forall x, In x l -> defined (f x)) -> defined (mapM f l).
Proof.
  induction l as [|x l IH]; simpl; intros Hf; [discriminate|].
  apply bind_defined; [auto|]. intros y _.
  apply bind_defined; [auto|]. intros ys _. discriminate.
Qed.

Lemma for_of_ext {A S} (l : list A) (acc : S) (b1 b2 : S -> A -> outcome S) :
  (forall s x, In x l -> b1 s x = b2 s x) -> for_of l acc b1 = for_of l acc b2.
Proof.
  revert acc. induction l as [|x l IH]; simpl; intros acc Hb; [reflexivity|].
  rewrite (Hb acc x) by auto. apply bind_ext; intros acc' _. apply IH; auto.
Qed.

Lemma for_of_defined {A S} (l : list A) (acc : S) (b : S -> A -> outcome S) :
  (forall s x, In x l -> defined (b s x)) -> defined (for_of l acc b).
Proof.
  revert acc. induction l as [|x l IH]; simpl; intros acc Hb; [discriminate|].
  apply bind_defined; [auto|]. intros acc' _. apply IH; auto.
Qed.

Lemma findM_defined p l :
  (forall x, In x l -> defined (p x)) -> defined (findM p l).
Proof.
  induction l as [|x l IH]; simpl; intros Hp; [discriminate|].
  apply bind_defined; [auto|]. intros [] _; [discriminate|auto].
Qed.

Lemma to_string_defined v : defined (to_string v).
Proof.
  unfold defined. revert v.
  fix IH 1. intros [| | b | n | s | items | props]; simpl; try discriminate.
  - assert (Hel : forall l, (fix elems (l : list jsval) : outcome (list string) :=
                  match l with
                  | [] => Ok []
                  | x :: rest =>
                      s <- (if is_nullish x then Ok "" else to_string x) ;;
                      ss <- elems rest ;;
                      Ok (s :: ss)
                  end) l <> Diverge).
    { fix IHl 1. intros [|x l]; [discriminate|].
      apply bind_defined.
      - destruct (is_nullish x); [discriminate|apply IH].
      - intros s _. apply bind_defined; [apply IHl|]. intros; discriminate. }
    apply bind_defined; [apply Hel|]. intros; discriminate.
  - destruct (bool_decide _); discriminate.
Qed.

(** ** Nesting depth *)

Lemma height_elem x items : In x items -> (height x < height (JArr items))%nat.
Proof.
  simpl. induction items as [|y l IH]; simpl; [tauto|].
  intros [->|Hin]; [lia|]. specialize (IH Hin). lia.
Qed.

Lemma height_value k v props :
  In (k, v) props -> (height v < height (JObj props))%nat.
Proof.
  simpl. induction props as [|[k' v'] l IH]; simpl; [tauto|].
  intros [Heq|Hin]; [inversion Heq; subst; lia|]. specialize (IH Hin). lia.
Qed.

Lemma lookup_prop_In k props v : lookup_prop k props = Some v -> exists k', In (k', v) props.
Proof.
  induction props as [|[k' v'] l IH]; simpl; [discriminate|].
  destruct (String.eqb k' k).
  - intros [= ->]. eauto.
  - intros Hl. destruct (IH Hl) as [k'' ?]. eauto.
Qed.

Lemma height_prop props k : (height (prop (JObj props) k) < height (JObj props))%nat.
Proof.
  unfold prop. destruct (lookup_prop k props) as [v|] eqn:Hl; simpl default.
  - destruct (lookup_prop_In _ _ _ Hl) as [k' Hin]. eapply height_value; eauto.
  - simpl. lia.
Qed.

Lemma height_entry entry props :
  In entry props -> (height (snd entry) < height (JObj props))%nat.
Proof. destruct entry as [k v]. apply height_value. Qed.

Lemma bind_cong {A B} (c1 c2 : outcome A) (k1 k2 : A -> outcome B) :
  c1 = c2 -> (forall a, k1 a = k2 a) -> bind c1 k1 = bind c2 k2.
Proof. intros -> Hk. destruct c2; simpl; auto. Qed.

Lemma gt_1_defined `{Builtins} v : defined (gt_1 v).
Proof.
  destruct v; unfold gt_1; try discriminate;
    (apply bind_defined; [apply to_string_defined | intros; discriminate]).
Qed.

(** Closing the goals of the resolver lemmas: [Hrec] is the hypothesis on
    the recursive calls, at values below the argument. *)
Ltac smaller :=
  first [ apply height_prop
        | apply height_elem; assumption
        | apply height_entry; assumption ].

Ltac ext_tac Hrec :=
  repeat first
    [ reflexivity
    | apply Hrec; smaller
    | apply bind_cong; [|intros]
    | apply mapM_ext; intros
    | apply for_of_ext; intros
    | match goal with
      | |- (if ?c then _ else _) = (if ?c then _ else _) => destruct c
      end ].

Ltac defined_tac Hrec :=
  repeat first
    [ discriminate
    | apply Hrec; smaller
    | apply to_string_defined
    | apply gt_1_defined
    | apply bind_defined; [|intros]
    | apply mapM_defined; intros
    | apply for_of_defined; intros
    | match goal with
      | |- defined (if ?c then _ else _) => destruct c
      end ].

(** ** The recursion of the resolvers ends *)

Section ContextFormatFacts.
Context `{Builtins}.

Lemma ctx_getValue_body_ext f g field :
  (forall v, (height v < height field)%nat -> f v = g v) ->
  ContextFormat.getValue_body f field = ContextFormat.getValue_body g field.
Proof.
  intros Hrec. unfold ContextFormat.getValue_body.
  destruct field as [| | b | n | s | items | props]; simpl;
    rewrite ?andb_false_r; simpl; try reflexivity.
  - ext_tac Hrec.
  - ext_tac Hrec.
Qed.

Lemma ctx_getValue_body_defined f field :
  (forall v, (height v < height field)%nat -> defined (f v)) ->
  defined (ContextFormat.getValue_body f field).
Proof.
  intros Hrec. unfold ContextFormat.getValue_body.
  destruct field as [| | b | n | s | items | props]; simpl;
    rewrite ?andb_false_r; simpl; try discriminate.
  - defined_tac Hrec.
  - defined_tac Hrec.
Qed.

(** Any two amounts of fuel above the nesting depth give the same result. *)
Lemma ctx_getValue_fuel_stable n m field :
  (height field < n)%nat -> (height field < m)%nat ->
  ContextFormat.getValue_fuel n field = ContextFormat.getValue_fuel m field.
Proof.
  revert m field. induction n as [|n IH]; intros m field Hn Hm; [lia|].
  destruct m as [|m]; [lia|]. simpl.
  apply ctx_getValue_body_ext. intros v Hv. apply IH; lia.
Qed.

Lemma ctx_getValue_fuel_enough n field :
  (height field < n)%nat -> ContextFormat.getValue_fuel n field = ContextFormat.getValue field.
Proof. intros Hn. apply ctx_getValue_fuel_stable; [assumption|lia]. Qed.

(** [ContextFormat.getValue] satisfies the recursive equation of the source. *)
Lemma ctx_getValue_unfold field : ContextFormat.getValue field = ContextFormat.getValue_body ContextFormat.getValue field.
Proof.
  unfold ContextFormat.getValue at 1. simpl.
  apply ctx_getValue_body_ext. intros v Hv. apply ctx_getValue_fuel_enough. lia.
Qed.

Lemma ctx_getValue_fuel_defined n field :
  (height field < n)%nat -> defined (ContextFormat.getValue_fuel n field).
Proof.
  revert field. induction n as [|n IH]; intros field Hn; [lia|].
  simpl. apply ctx_getValue_body_defined. intros v Hv. apply IH. lia.
Qed.

Lemma ctx_getValue_defined field : defined (ContextFormat.getValue field).
Proof. apply ctx_getValue_fuel_defined. lia. Qed.

End ContextFormatFacts.

Section HistoricalFacts.
Context `{Builtins}.

Lemma hist_getValue_body_ext f g field :
  (forall v, (height v < height field)%nat -> f v = g v) ->
  Historical.getValue_body f field = Historical.getValue_body g field.
Proof.
  intros Hrec. unfold Historical.getValue_body.
  destruct field as [| | b | n | s | items | props]; simpl;
    rewrite ?andb_false_r; simpl; try reflexivity.
  - ext_tac Hrec.
  - ext_tac Hrec.
Qed.

Lemma hist_getValue_body_defined f field :
  (forall v, (height v < height field)%nat -> defined (f v)) ->
  defined (Historical.getValue_body f field).
Proof.
  intros Hrec. unfold Historical.getValue_body.
  destruct field as [| | b | n | s | items | props]; simpl;
    rewrite ?andb_false_r; simpl; try discriminate.
  - defined_tac Hrec.
  - defined_tac Hrec.
Qed.

Lemma hist_getValue_fuel_stable n m field :
  (height field < n)%nat -> (height field < m)%nat ->
  Historical.getValue_fuel n field = Historical.getValue_fuel m field.
Proof.
  revert m field. induction n as [|n IH]; intros m field Hn Hm; [lia|].
  destruct m as [|m]; [lia|]. simpl.
  apply hist_getValue_body_ext. intros v Hv. apply IH; lia.
Qed.

Lemma hist_getValue_fuel_enough n field :
  (height field < n)%nat -> Historical.getValue_fuel n field = Historical.getValue field.
Proof. intros Hn. apply hist_getValue_fuel_stable; [assumption|lia]. Qed.

Lemma hist_getValue_unfold field : Historical.getValue field = Historical.getValue_body Historical.getValue field.
Proof.
  unfold Historical.getValue at 1. simpl.
  apply hist_getValue_body_ext. intros v Hv. apply hist_getValue_fuel_enough. lia.
Qed.

Lemma hist_getValue_fuel_defined n field :
  (height field < n)%nat -> defined (Historical.getValue_fuel n field).
Proof.
  revert field. induction n as [|n IH]; intros field Hn; [lia|].
  simpl. apply hist_getValue_body_defined. intros v Hv. apply IH. lia.
Qed.

Lemma hist_getValue_defined field : defined (Historical.getValue field).
Proof. apply hist_getValue_fuel_defined. lia. Qed.

End HistoricalFacts.

(** ** Values on which the resolvers return a string *)
Lemma bind_returns {A B} (c : outcome A) (k : A -> outcome B) :
  returns c -> (forall a, returns (k a)) -> returns (bind c k).
Proof. intros [a ->] Hk. apply Hk. Qed.

Lemma mapM_returns {A B} (f : A -> outcome B) l :
  (forall x, In x l -> returns (f x)) -> returns (mapM f l).
Proof.
  induction l as [|x l IH]; simpl; intros Hf; [now eexists|].
  apply bind_returns; [auto|]. intros y.
  apply bind_returns; [auto|]. intros ys. now eexists.
Qed.

Lemma for_of_returns {A S} (l : list A) (acc : S) (b : S -> A -> outcome S) :
  (forall s x, In x l -> returns (b s x)) -> returns (for_of l acc b).
Proof.
  revert acc. induction l as [|x l IH]; simpl; intros acc Hb; [now eexists|].
  apply bind_returns; [auto|]. intros acc'. apply IH; auto.
Qed.

Lemma plain_elem items x : plain (JArr items) = true -> In x items -> plain x = true.
Proof.
  simpl. intros Hp Hin. rewrite forallb_forall in Hp. auto.
Qed.

Lemma plain_entry props entry :
  plain (JObj props) = true -> In entry props -> plain (snd entry) = true.
Proof.
  simpl. intros Hp Hin. apply andb_true_iff in Hp as [_ Hp].
  rewrite forallb_forall in Hp. auto.
Qed.

Lemma plain_prop props k : plain (JObj props) = true -> plain (prop (JObj props) k) = true.
Proof.
  intros Hp. unfold prop.
  destruct (lookup_prop k props) as [v|] eqn:Hl; [|reflexivity].
  destruct (lookup_prop_In _ _ _ Hl) as [k' Hin].
  apply (plain_entry props (k', v)); assumption.
Qed.

Lemma to_string_plain v : plain v = true -> returns (to_string v).
Proof.
  revert v. fix IH 1.
  intros [| | b | n | s | items | props]; simpl; intros Hp; try (now eexists).
  - apply bind_returns; [|intros; now eexists].
    revert items Hp. fix IHl 1. intros [|x l]; simpl; intros Hp; [now eexists|].
    apply andb_true_iff in Hp as [Hx Hl].
    apply bind_returns.
    + destruct (is_nullish x); [now eexists|now apply IH].
    + intros s. apply bind_returns; [now apply IHl|]. intros; now eexists.
  - apply andb_true_iff in Hp as [Hn _]. apply negb_true_iff in Hn.
    rewrite Hn. now eexists.
Qed.

Lemma gt_1_plain `{Builtins} v : plain v = true -> returns (gt_1 v).
Proof.
  intros Hp. destruct v; unfold gt_1; try (now eexists);
    (apply bind_returns; [now apply to_string_plain | intros; now eexists]).
Qed.

Ltac plain_tac Hrec Hp :=
  repeat first
    [ solve [eexists; reflexivity]
    | apply Hrec;
      [ smaller
      | first [ apply plain_prop; exact Hp
              | eapply plain_elem; [exact Hp|assumption]
              | eapply plain_entry; [exact Hp|assumption] ] ]
    | apply to_string_plain; apply plain_prop; exact Hp
    | apply gt_1_plain; apply plain_prop; exact Hp
    | apply bind_returns; [|intros]
    | apply mapM_returns; intros
    | apply for_of_returns; intros
    | match goal with
      | |- returns (if ?c then _ else _) => destruct c
      end ].

Section PlainValues.
Context `{Builtins}.

Lemma ContextFormat_body_plain f field :
  plain field = true ->
  (forall v, (height v < height field)%nat -> plain v = true -> returns (f v)) ->
  returns (ContextFormat.getValue_body f field).
Proof.
  intros Hp Hrec. unfold ContextFormat.getValue_body.
  destruct field as [| | b | n | s | items | props]; simpl;
    rewrite ?andb_false_r; simpl; try (now eexists).
  - plain_tac Hrec Hp.
  - plain_tac Hrec Hp.
Qed.

Lemma Historical_body_plain f field :
  plain field = true ->
  (forall v, (height v < height field)%nat -> plain v = true -> returns (f v)) ->
  returns (Historical.getValue_body f field).
Proof.
  intros Hp Hrec. unfold Historical.getValue_body.
  destruct field as [| | b | n | s | items | props]; simpl;
    rewrite ?andb_false_r; simpl; try (now eexists).
  - plain_tac Hrec Hp.
  - plain_tac Hrec Hp.
Qed.

(** On a value in which no object has an own [toString] member both
    resolvers return a string. *)
Lemma getValue_plain_returns field :
  plain field = true ->
  (exists s, ContextFormat.getValue field = Ok s)
  /\ (exists s, Historical.getValue field = Ok s).
Proof.
  intros Hp. split.
  - unfold ContextFormat.getValue.
    assert (Hn : forall n v, (height v < n)%nat -> plain v = true ->
                 returns (ContextFormat.getValue_fuel n v)).
    { induction n as [|n IH]; intros v Hv Hpv; [lia|]. simpl.
      apply ContextFormat_body_plain; [assumption|].
      intros w Hw Hpw. apply IH; [lia|assumption]. }
    apply Hn; [lia|assumption].
  - unfold Historical.getValue.
    assert (Hn : forall n v, (height v < n)%nat -> plain v = true ->
                 returns (Historical.getValue_fuel n v)).
    { induction n as [|n IH]; intros v Hv Hpv; [lia|]. simpl.
      apply Historical_body_plain; [assumption|].
      intros w Hw Hpw. apply IH; [lia|assumption]. }
    apply Hn; [lia|assumption].
Qed.

End PlainValues.

(** ** The formatters return *)

Lemma member_defined v k : defined (member v k).
Proof. unfold member. destruct (is_nullish v); discriminate. Qed.

Lemma js_or_defined a b : defined b -> defined (js_or a b).
Proof. unfold js_or. destruct (truthy a); [discriminate|auto]. Qed.

Lemma computed_prop_defined v k : defined (computed_prop v k).
Proof.
  unfold computed_prop. apply bind_defined; [apply to_string_defined|].
  intros; discriminate.
Qed.

Lemma JSON_parse_value_defined `{Builtins} v : defined (JSON_parse_value v).
Proof.
  unfold JSON_parse_value. apply bind_defined; [apply to_string_defined|].
  intros s _. destruct (JSON_parse s); discriminate.
Qed.

Lemma try_catch_returns {A} (c : outcome A) (d : A) :
  defined c -> exists a, try_catch c (fun _ => Ok d) = Ok a.
Proof. destruct c; simpl; intros Hc; [eauto | eauto | now destruct Hc]. Qed.

Create HintDb ends discriminated.
#[export] Hint Resolve to_string_defined member_defined computed_prop_defined
  : ends.
#[export] Hint Resolve @gt_1_defined @JSON_parse_value_defined
  @ctx_getValue_defined @hist_getValue_defined
  : ends.

Ltac returns_tac :=
  repeat first
    [ discriminate
    | solve [auto with ends]
    | apply bind_defined; [|intros]
    | apply js_or_defined
    | apply mapM_defined; intros
    | apply for_of_defined; intros
    | apply findM_defined; intros
    | match goal with
      | |- defined (if ?c then _ else _) => destruct c
      | |- defined (match ?c with _ => _ end) => destruct c
      end ].

Section ContextFormatReturns.
Context `{Builtins}.

Lemma ctx_resolve_all_defined l : defined (ContextFormat.resolve_all l).
Proof. unfold ContextFormat.resolve_all. returns_tac. Qed.

Lemma ctx_array_find_defined v p :
  (forall x, defined (p x)) -> defined (ContextFormat.array_find v p).
Proof. intros Hp. unfold ContextFormat.array_find. destruct v; returns_tac. Qed.

Lemma formatStatValue_defined s value statId :
  defined (ContextFormat.formatStatValue s value statId).
Proof.
  unfold ContextFormat.formatStatValue, ContextFormat.getMaxValue.
  returns_tac. apply ctx_array_find_defined. intros. returns_tac.
Qed.

Lemma ctx_capitalize_value_defined v : defined (ContextFormat.capitalize_value v).
Proof. destruct v; discriminate. Qed.

Lemma ctx_toLowerCase_value_defined v : defined (ContextFormat.toLowerCase_value v).
Proof. destruct v; discriminate. Qed.

Hint Resolve ctx_resolve_all_defined formatStatValue_defined
  ctx_capitalize_value_defined ctx_toLowerCase_value_defined : ends.

Lemma format_item_list_defined label v formatted :
  defined (ContextFormat.format_item_list label v formatted).
Proof. unfold ContextFormat.format_item_list. returns_tac. Qed.
Hint Resolve format_item_list_defined : ends.

Lemma format_userStats_defined s data userName :
  defined (ContextFormat.format_userStats s data userName).
Proof.
  unfold ContextFormat.format_userStats, ContextFormat.format_stats, ContextFormat.format_status_mood, ContextFormat.format_skills,
    ContextFormat.format_inventory, ContextFormat.format_quests.
  returns_tac.
Qed.

Lemma format_infoBox_defined data : defined (ContextFormat.format_infoBox data).
Proof. unfold ContextFormat.format_infoBox, ContextFormat.format_known. returns_tac. Qed.

Lemma format_characters_defined data : defined (ContextFormat.format_characters data).
Proof.
  unfold ContextFormat.format_characters, ContextFormat.format_character, ContextFormat.format_wrapped. returns_tac.
Qed.

(** [ContextFormat.formatTrackerDataForContext] returns a string on every input: no
    exception escapes and the recursion ends. *)
Lemma formatTrackerDataForContext_returns s jsonData trackerType userName :
  exists text, ContextFormat.formatTrackerDataForContext s jsonData trackerType userName = Ok text.
Proof.
  unfold ContextFormat.formatTrackerDataForContext.
  destruct (negb (truthy jsonData)); [eauto|].
  apply try_catch_returns. apply bind_defined; [returns_tac|]. intros data _.
  destruct (String.eqb trackerType "userStats"); [apply format_userStats_defined|].
  destruct (String.eqb trackerType "infoBox"); [apply format_infoBox_defined|].
  destruct (String.eqb trackerType "characters"); [apply format_characters_defined|].
  discriminate.
Qed.

End ContextFormatReturns.

Section HistoricalReturns.
Context `{Builtins}.

Lemma hist_resolve_all_defined l : defined (Historical.resolve_all l).
Proof. unfold Historical.resolve_all. returns_tac. Qed.

Lemma hist_array_find_defined v p :
  (forall x, defined (p x)) -> defined (Historical.array_find v p).
Proof. intros Hp. unfold Historical.array_find. destruct v; returns_tac. Qed.

Lemma hist_iterate_defined v : defined (Historical.iterate v).
Proof. destruct v; discriminate. Qed.

Lemma hist_toLowerCase_value_defined v : defined (Historical.toLowerCase_value v).
Proof. destruct v; discriminate. Qed.

Hint Resolve hist_resolve_all_defined hist_iterate_defined hist_toLowerCase_value_defined
  : ends.

Lemma hist_item_list_defined label v text :
  defined (Historical.hist_item_list label v text).
Proof. unfold Historical.hist_item_list. returns_tac. Qed.
Hint Resolve hist_item_list_defined : ends.

Lemma hist_userStats_defined u trackerData trackerConfig userName formatted :
  defined (Historical.hist_userStats u trackerData trackerConfig userName formatted).
Proof.
  unfold Historical.hist_userStats, Historical.hist_custom_stats, Historical.hist_status, Historical.hist_skills,
    Historical.hist_inventory, Historical.hist_quests.
  returns_tac. apply hist_array_find_defined. intros. returns_tac.
Qed.

Lemma hist_infoBox_defined u trackerData trackerConfig formatted :
  defined (Historical.hist_infoBox u trackerData trackerConfig formatted).
Proof. unfold Historical.hist_infoBox, Historical.hist_widget. returns_tac. Qed.

Lemma hist_characters_defined u trackerData trackerConfig formatted :
  defined (Historical.hist_characters u trackerData trackerConfig formatted).
Proof. unfold Historical.hist_characters, Historical.hist_character. returns_tac. Qed.

(** [Historical.formatHistoricalTrackerData] returns a string on every input. *)
Lemma formatHistoricalTrackerData_returns trackerData trackerConfig userName u :
  exists text,
    Historical.formatHistoricalTrackerData trackerData trackerConfig userName u = Ok text.
Proof.
  unfold Historical.formatHistoricalTrackerData.
  destruct (negb (truthy trackerData) || negb (truthy trackerConfig)); [eauto|].
  apply try_catch_returns.
  apply bind_defined; [apply hist_userStats_defined|]. intros f1 _.
  apply bind_defined; [apply hist_infoBox_defined|]. intros f2 _.
  apply bind_defined; [apply hist_characters_defined|]. intros f3 _.
  discriminate.
Qed.

End HistoricalReturns.

(* ================================================================== *)
(** ** The field value resolver (C2, C9) *)

Section Claims.
Context `{Builtins}.

Lemma ContextFormat_getValue_wrapper field :
  js_in "value" field = true ->
  ContextFormat.getValue field = ContextFormat.getValue (prop field "value").
Proof.
  intros Hin. rewrite ctx_getValue_unfold at 1.
  destruct field; try discriminate. unfold ContextFormat.getValue_body.
  simpl in *. rewrite Hin. reflexivity.
Qed.

Lemma Historical_getValue_wrapper field :
  js_in "value" field = true ->
  Historical.getValue field = Historical.getValue (prop field "value").
Proof.
  intros Hin. rewrite hist_getValue_unfold at 1.
  destruct field; try discriminate. unfold Historical.getValue_body.
  simpl in *. rewrite Hin. reflexivity.
Qed.

(** C2.  Resolving the locked wrapper {value: v, locked: b} gives what
    resolving v gives, for both resolvers and for every v (a wrapper
    included, so nesting is covered); the result does not depend on b. *)
Theorem getValue_locked_wrapper (v : jsval) (b : bool) :
  ContextFormat.getValue (locked_wrapper v b) = ContextFormat.getValue v
  /\ Historical.getValue (locked_wrapper v b) = Historical.getValue v
  /\ ContextFormat.getValue (locked_wrapper v true)
     = ContextFormat.getValue (locked_wrapper v false)
  /\ Historical.getValue (locked_wrapper v true)
     = Historical.getValue (locked_wrapper v false).
Proof.
  assert (Hc : forall b', ContextFormat.getValue (locked_wrapper v b')
                          = ContextFormat.getValue v).
  { intros b'. rewrite ContextFormat_getValue_wrapper; reflexivity. }
  assert (Hh : forall b', Historical.getValue (locked_wrapper v b')
                          = Historical.getValue v).
  { intros b'. rewrite Historical_getValue_wrapper; reflexivity. }
  rewrite !Hc, !Hh. auto.
Qed.

(** The resolvers terminate: any fuel above the nesting depth of the
    value gives one and the same result, which is a string or a raised
    exception. *)
Lemma getValue_terminates (field : jsval) :
  (exists r, r <> Diverge /\
     forall fuel, (height field < fuel)%nat ->
       ContextFormat.getValue_fuel fuel field = r)
  /\ (exists r, r <> Diverge /\
     forall fuel, (height field < fuel)%nat ->
       Historical.getValue_fuel fuel field = r).
Proof.
  split.
  - exists (ContextFormat.getValue field). split.
    + apply ctx_getValue_defined.
    + intros. now apply ctx_getValue_fuel_enough.
  - exists (Historical.getValue field). split.
    + apply hist_getValue_defined.
    + intros. now apply hist_getValue_fuel_enough.
Qed.

(** C9.  On a named item whose quantity is an object with an own toString
    member, both resolvers raise a TypeError: the comparison
    [field.quantity > 1] cannot convert the object to a primitive. *)
Theorem getValue_raises_on_odd_quantity :
  ContextFormat.getValue odd_quantity_item = Throw TypeError
  /\ Historical.getValue odd_quantity_item = Throw TypeError.
Proof. split; reflexivity. Qed.

(** ** The context formatter on empty and unparseable snapshots (C3) *)

Lemma format_falsy s jsonData trackerType userName :
  truthy jsonData = false ->
  ContextFormat.formatTrackerDataForContext s jsonData trackerType userName = Ok "".
Proof.
  intros Hf. unfold ContextFormat.formatTrackerDataForContext.
  rewrite Hf. reflexivity.
Qed.

Lemma format_unparseable s text trackerType userName :
  JSON_parse text = None ->
  ContextFormat.formatTrackerDataForContext s (JStr text) trackerType userName
  = Ok "".
Proof.
  intros Hp. unfold ContextFormat.formatTrackerDataForContext.
  destruct (negb (truthy (JStr text))); [reflexivity|].
  unfold JSON_parse_value. simpl. rewrite Hp. reflexivity.
Qed.

Lemma format_empty_object s trackerType userName :
  ContextFormat.formatTrackerDataForContext s (JObj []) trackerType userName
  = Ok (empty_snapshot_text trackerType userName).
Proof.
  unfold ContextFormat.formatTrackerDataForContext, empty_snapshot_text.
  simpl.
  destruct (String.eqb trackerType "userStats"); [reflexivity|].
  destruct (String.eqb trackerType "infoBox"); [reflexivity|].
  destruct (String.eqb trackerType "characters"); reflexivity.
Qed.

Lemma format_empty_object_text s text trackerType userName :
  JSON_parse text = Some (JObj []) -> text <> "" ->
  ContextFormat.formatTrackerDataForContext s (JStr text) trackerType userName
  = Ok (empty_snapshot_text trackerType userName).
Proof.
  intros Hp Hne. rewrite <- (format_empty_object s).
  unfold ContextFormat.formatTrackerDataForContext.
  assert (Ht : truthy (JStr text) = true).
  { simpl. unfold nonempty. destruct (String.eqb_spec text ""); [contradiction|reflexivity]. }
  rewrite Ht. simpl negb. cbv iota.
  unfold JSON_parse_value. simpl to_string. simpl bind. rewrite Hp. reflexivity.
Qed.

(** C3, amended.  For every category and user name the context formatter
    returns a string, never raising.  It returns the empty string on a
    falsy snapshot (null, undefined, the empty string) and on a string that
    JSON.parse rejects.  On a payload with no fields (the object {} or a
    text parsed to it) it returns the heading of the category alone: the
    stats heading for userStats, "Info Box:" for infoBox, and the empty
    string for any other category. *)
Theorem format_empty_or_unparseable (s : jsval) (trackerType userName : string) :
  (forall jsonData, exists text,
     ContextFormat.formatTrackerDataForContext s jsonData trackerType userName
     = Ok text)
  /\ (forall jsonData, truthy jsonData = false ->
        ContextFormat.formatTrackerDataForContext s jsonData trackerType userName
        = Ok "")
  /\ (forall text, JSON_parse text = None ->
        ContextFormat.formatTrackerDataForContext s (JStr text) trackerType userName
        = Ok "")
  /\ ContextFormat.formatTrackerDataForContext s (JObj []) trackerType userName
     = Ok (empty_snapshot_text trackerType userName)
  /\ (forall text, JSON_parse text = Some (JObj []) -> text <> "" ->
        ContextFormat.formatTrackerDataForContext s (JStr text) trackerType userName
        = Ok (empty_snapshot_text trackerType userName)).
Proof.
  split; [|split; [|split; [|split]]].
  - intros. apply formatTrackerDataForContext_returns.
  - intros. now apply format_falsy.
  - intros. now apply format_unparseable.
  - apply format_empty_object.
  - intros. now apply format_empty_object_text.
Qed.

End Claims.

(** C3, counterexample: on the JSON text of the empty object the info box
    formatter returns its heading, not the empty string. *)
Lemma format_empty_object_not_empty :
  ContextFormat.formatTrackerDataForContext (JObj []) (JStr "{}") "infoBox" "Alice"
  = Ok ("Info Box:" +:+ nl)
  /\ ContextFormat.formatTrackerDataForContext (JObj []) (JStr "{}") "infoBox" "Alice"
     <> Ok "".
Proof. split; [reflexivity|discriminate]. Qed.

Lemma format_empty_or_unparseable_witness :
  ContextFormat.formatTrackerDataForContext (JObj []) (JStr "not json") "infoBox" "Alice"
  = Ok ""
  /\ ContextFormat.formatTrackerDataForContext (JObj []) JNull "infoBox" "Alice"
     = Ok ""
  /\ ContextFormat.formatTrackerDataForContext (JObj []) (JStr "{}") "userStats" "Alice"
     = Ok ("Alice's Stats:" +:+ nl).
Proof.
  destruct (format_empty_or_unparseable (JObj []) "infoBox" "Alice")
    as (_ & Hfalsy & Hbad & _ & _).
  destruct (format_empty_or_unparseable (JObj []) "userStats" "Alice")
    as (_ & _ & _ & _ & Hempty).
  split; [|split].
  - apply Hbad. reflexivity.
  - apply Hfalsy. reflexivity.
  - apply Hempty; [reflexivity|discriminate].
Defined.

(** ** The weather example (C7) *)

(** C7, amended.  For the scene-info snapshot of the example the context
    formatter returns the heading "Info Box:", then the lines
    "Location: Forest Clearing" and "Weather: ☀️ Clear", each ended by a
    newline; the weather record resolves to the emoji, a space and the
    forecast. *)
Theorem format_forest_scene `{Builtins} (s : jsval) (userName : string) :
  ContextFormat.formatTrackerDataForContext s forest_scene "infoBox" userName
  = Ok forest_text
  /\ ContextFormat.getValue (prop forest_scene "weather") = Ok "☀️ Clear".
Proof. split; reflexivity. Qed.

(** C7, counterexample: the output is not the two bare lines. *)
Lemma format_forest_scene_not_bare :
  ContextFormat.formatTrackerDataForContext (JObj []) forest_scene "infoBox" "Alice"
  <> Ok ("Location: Forest Clearing" +:+ nl +:+ "Weather: ☀️ Clear").
Proof. discriminate. Qed.

(** ** The HP example (C8) *)

Lemma lines_nonempty s : lines s <> [].
Proof.
  destruct s as [|c r]; simpl; [discriminate|].
  destruct (Ascii.eqb c (ascii_of_nat 10)); [discriminate|].
  destruct (lines r); discriminate.
Qed.

Lemma lines_app_nl a b :
  lines (a +:+ nl +:+ b) = lines a ++ lines b.
Proof.
  induction a as [|c r IH]; simpl; [reflexivity|].
  destruct (Ascii.eqb c (ascii_of_nat 10)).
  - simpl in IH. rewrite IH. reflexivity.
  - simpl in IH. rewrite IH.
    pose proof (lines_nonempty r) as Hne.
    destruct (lines r); [contradiction|reflexivity].
Qed.

Lemma append_assoc (a b c : string) : (a +:+ b) +:+ c = a +:+ b +:+ c.
Proof.
  induction a as [|x a IH]; [reflexivity|].
  change (String x ((a +:+ b) +:+ c) = String x (a +:+ b +:+ c)).
  now rewrite IH.
Qed.

(** C8.  With stats display mode "number" and customStats
    [{id:"hp", maxValue:10}] in the settings, the context formatter turns
    the snapshot {stats:[{id:"hp",name:"HP",value:7}]} into the stats
    heading followed by the line "HP: 7/10". *)
Theorem format_hp_number_mode `{Builtins} (s : jsval) (userName : string) :
  ContextFormat.displayMode s = JStr "number" ->
  ContextFormat.customStats s = hp_customStats ->
  ContextFormat.formatTrackerDataForContext s hp_snapshot "userStats" userName
  = Ok (userName +:+ "'s Stats:" +:+ nl +:+ "HP: 7/10" +:+ nl)
  /\ forall text,
       ContextFormat.formatTrackerDataForContext s hp_snapshot "userStats" userName
       = Ok text -> In "HP: 7/10" (lines text).
Proof.
  intros Hmode Hstats.
  assert (Heq : ContextFormat.formatTrackerDataForContext s hp_snapshot "userStats"
                  userName
                = Ok (userName +:+ "'s Stats:" +:+ nl +:+ "HP: 7/10" +:+ nl)).
  { unfold ContextFormat.formatTrackerDataForContext, hp_snapshot.
    simpl. unfold ContextFormat.format_userStats, ContextFormat.format_stats.
    simpl. unfold ContextFormat.formatStatValue, ContextFormat.getMaxValue.
    rewrite Hmode, Hstats. simpl. rewrite append_assoc. reflexivity. }
  split; [exact Heq|].
  intros text Ht. rewrite Heq in Ht. injection Ht as <-.
  rewrite <- (append_assoc userName "'s Stats:" (nl +:+ "HP: 7/10" +:+ nl)).
  rewrite lines_app_nl. apply in_or_app. right.
  change ("HP: 7/10" +:+ nl) with ("HP: 7/10" +:+ nl +:+ "").
  rewrite lines_app_nl. simpl. auto.
Qed.

Lemma format_hp_number_mode_witness :
  ContextFormat.formatTrackerDataForContext hp_settings hp_snapshot "userStats" "Alice"
  = Ok ("Alice's Stats:" +:+ nl +:+ "HP: 7/10" +:+ nl).
Proof.
  apply (format_hp_number_mode hp_settings "Alice"); reflexivity.
Defined.

(** ** The history filter (C4) *)

Lemma strict_eq_bool a b : strict_eq a (JBool b) = true <-> a = JBool b.
Proof.
  destruct a; simpl; try (split; [discriminate | discriminate]).
  rewrite bool_decide_eq_true. split; [intros ->; reflexivity | intros [= ->]; reflexivity].
Qed.

(** C4, amended.  With includeAllEnabled true a field is included exactly
    when the enabled flag of its configuration entry is not false; with
    includeAllEnabled false, exactly when its persistInHistory flag is
    true.  A field with no configuration entry is therefore included
    when includeAllEnabled is true and left out when it is false.  Both
    filters, for fields and for stats, decide alike. *)
Theorem shouldInclude_spec (config : jsval) :
  (Historical.shouldInclude true config = true
     <-> opt_member config "enabled" <> JBool false)
  /\ (Historical.shouldInclude false config = true
     <-> opt_member config "persistInHistory" = JBool true)
  /\ (forall u, Historical.shouldIncludeStat u config = Historical.shouldInclude u config)
  /\ (forall u, Historical.shouldInclude u JUndefined = u).
Proof.
  unfold Historical.shouldInclude, Historical.shouldIncludeStat.
  split; [|split; [|split]].
  - rewrite negb_true_iff. rewrite <- strict_eq_bool.
    destruct (strict_eq _ _); split; congruence.
  - apply strict_eq_bool.
  - reflexivity.
  - intros []; reflexivity.
Qed.

Lemma shouldInclude_spec_witness :
  Historical.shouldInclude false (JObj [("persistInHistory", JBool true)]) = true
  /\ Historical.shouldInclude true (JObj [("enabled", JBool false)]) = false.
Proof.
  destruct (shouldInclude_spec (JObj [("persistInHistory", JBool true)]))
    as (_ & Hpersist & _).
  split; [apply Hpersist; reflexivity|reflexivity].
Defined.

(** C4, counterexample: with includeAllEnabled true a field that has no
    configuration entry is included. *)
Lemma shouldInclude_missing_entry :
  Historical.shouldInclude true JUndefined = true
  /\ Historical.shouldIncludeStat true JUndefined = true.
Proof. split; reflexivity. Qed.

(** ** A category that fails to parse (C1) *)

Lemma prop_tracker u i c :
  prop (tracker u i c) "userStats" = u
  /\ prop (tracker u i c) "infoBox" = i
  /\ prop (tracker u i c) "characterThoughts" = c.
Proof. repeat split. Qed.

Lemma summary_part_unparseable `{Builtins} s committed show payload trackerType
    userName summary text :
  prop committed payload = JStr text -> JSON_parse text = None ->
  summary_part s committed show payload trackerType userName summary = Ok summary.
Proof.
  intros Hp Hbad. unfold summary_part. rewrite Hp.
  destruct (truthy (prop s show) && truthy (JStr text)); [|reflexivity].
  rewrite format_unparseable by assumption. reflexivity.
Qed.

Lemma summary_part_absent `{Builtins} s committed show payload trackerType
    userName summary :
  prop committed payload = JUndefined ->
  summary_part s committed show payload trackerType userName summary = Ok summary.
Proof.
  intros Hp. unfold summary_part. rewrite Hp. rewrite andb_false_r. reflexivity.
Qed.

Lemma summary_part_returns `{Builtins} s committed show payload trackerType
    userName summary :
  exists text,
    summary_part s committed show payload trackerType userName summary = Ok text.
Proof.
  unfold summary_part.
  destruct (truthy (prop s show) && truthy (prop committed payload)); [|eauto].
  destruct (formatTrackerDataForContext_returns s
              (prop committed payload) trackerType userName) as [text ->].
  simpl. eauto.
Qed.

Lemma hist_parse_fails `{Builtins} text :
  text <> "" -> JSON_parse text = None ->
  truthy (JStr text) = true
  /\ (if typeof_string (JStr text) then JSON_parse_value (JStr text)
      else Ok (JStr text)) = Throw SyntaxError.
Proof.
  intros Hne Hbad. split.
  - simpl. unfold nonempty. destruct (String.eqb_spec text ""); [contradiction|reflexivity].
  - unfold JSON_parse_value. simpl. rewrite Hbad. reflexivity.
Qed.

Lemma bind_raises {A B} (c : outcome A) (k : A -> outcome B) :
  defined c -> (forall a, raises (k a)) -> raises (bind c k).
Proof.
  intros Hc Hk. destruct c as [a|e|]; simpl; [apply Hk | now exists e | now destruct Hc].
Qed.

Lemma bind_raises_now {A B} (c : outcome A) (k : A -> outcome B) :
  raises c -> raises (bind c k).
Proof. intros [e ->]. now exists e. Qed.

Lemma try_catch_raises {A} (c : outcome A) (d : A) :
  raises c -> try_catch c (fun _ => Ok d) = Ok d.
Proof. intros [e ->]. reflexivity. Qed.

(** The historical formatter gives the empty string as soon as one
    category is a text that JSON.parse rejects. *)
Lemma formatHistorical_unparseable `{Builtins} trackerData trackerConfig userName u
    text :
  text <> "" -> JSON_parse text = None ->
  prop trackerData "userStats" = JStr text
  \/ prop trackerData "infoBox" = JStr text
  \/ prop trackerData "characterThoughts" = JStr text ->
  Historical.formatHistoricalTrackerData trackerData trackerConfig userName u = Ok "".
Proof.
  intros Hne Hbad Hcat. destruct (hist_parse_fails text Hne Hbad) as [Ht Hthrow].
  unfold Historical.formatHistoricalTrackerData.
  destruct (negb (truthy trackerData) || negb (truthy trackerConfig)); [reflexivity|].
  apply try_catch_raises.
  destruct Hcat as [Hc|[Hc|Hc]].
  - apply bind_raises_now. unfold Historical.hist_userStats.
    rewrite Hc, Ht, Hthrow. now exists SyntaxError.
  - apply bind_raises; [apply hist_userStats_defined|]. intros f1.
    apply bind_raises_now. unfold Historical.hist_infoBox.
    rewrite Hc, Ht, Hthrow. now exists SyntaxError.
  - apply bind_raises; [apply hist_userStats_defined|]. intros f1.
    apply bind_raises; [apply hist_infoBox_defined|]. intros f2.
    apply bind_raises_now. unfold Historical.hist_characters.
    rewrite Hc, Ht, Hthrow. now exists SyntaxError.
Qed.

(** C1, amended.  In generateContextualSummary a category whose payload
    is a text that JSON.parse rejects contributes nothing: the result is
    the result with that category absent, whichever category it is, and
    no tracker part raises.  formatHistoricalTrackerData returns a string
    on every input and never raises; but there a category that JSON.parse
    rejects empties the whole result, the contributions of its siblings
    included. *)
Theorem parse_failure_by_path `{Builtins} (s : jsval) (userName text : string) :
  JSON_parse text = None ->
  (forall u i c,
     generateContextualSummary s (tracker (JStr text) i c) userName
     = generateContextualSummary s (tracker JUndefined i c) userName
     /\ generateContextualSummary s (tracker u (JStr text) c) userName
        = generateContextualSummary s (tracker u JUndefined c) userName
     /\ generateContextualSummary s (tracker u i (JStr text)) userName
        = generateContextualSummary s (tracker u i JUndefined) userName)
  /\ (forall committed show payload trackerType summary, exists r,
        summary_part s committed show payload trackerType userName summary = Ok r)
  /\ (forall trackerData trackerConfig u, exists r,
        Historical.formatHistoricalTrackerData trackerData trackerConfig userName u
        = Ok r)
  /\ (forall trackerConfig all u i c, text <> "" ->
        Historical.formatHistoricalTrackerData (tracker (JStr text) i c)
          trackerConfig userName all = Ok ""
        /\ Historical.formatHistoricalTrackerData (tracker u (JStr text) c)
             trackerConfig userName all = Ok ""
        /\ Historical.formatHistoricalTrackerData (tracker u i (JStr text))
             trackerConfig userName all = Ok "").
Proof.
  intros Hbad. split; [|split; [|split]].
  - intros u i c. unfold generateContextualSummary.
    repeat split.
    + rewrite (summary_part_unparseable s (tracker (JStr text) i c) "showUserStats"
                 "userStats" "userStats" userName "" text) by (reflexivity || assumption).
      rewrite (summary_part_absent s (tracker JUndefined i c) "showUserStats"
                 "userStats") by reflexivity.
      reflexivity.
    + apply bind_cong; [reflexivity|]. intros s1.
      rewrite (summary_part_unparseable s (tracker u (JStr text) c) "showInfoBox"
                 "infoBox" "infoBox" userName s1 text) by (reflexivity || assumption).
      rewrite (summary_part_absent s (tracker u JUndefined c) "showInfoBox"
                 "infoBox") by reflexivity.
      reflexivity.
    + apply bind_cong; [reflexivity|]. intros s1.
      apply bind_cong; [reflexivity|]. intros s2.
      rewrite (summary_part_unparseable s (tracker u i (JStr text))
                 "showCharacterThoughts" "characterThoughts" "characters" userName
                 s2 text) by (reflexivity || assumption).
      rewrite (summary_part_absent s (tracker u i JUndefined)
                 "showCharacterThoughts" "characterThoughts") by reflexivity.
      reflexivity.
  - intros. apply summary_part_returns.
  - intros. apply formatHistoricalTrackerData_returns.
  - intros trackerConfig all u i c Hne.
    repeat split; apply (formatHistorical_unparseable _ _ _ _ text); auto.
Qed.

(** C1, counterexample: in the historical path a malformed infoBox text
    beside well-formed userStats data removes the userStats contribution
    that appears when the infoBox is absent. *)
Lemma historical_sibling_lost :
  Historical.formatHistoricalTrackerData
    (tracker skills_stats JUndefined JUndefined) history_config "Alice" false
  = Ok "Alice: Skills: Stealth, Archery"
  /\ Historical.formatHistoricalTrackerData
       (tracker skills_stats (JStr legacy_text) JUndefined) history_config "Alice" false
     = Ok "".
Proof. split; reflexivity. Qed.

Lemma parse_failure_by_path_witness :
  generateContextualSummary (JObj [("showUserStats", JBool true);
                                   ("showInfoBox", JBool true)])
    (tracker skills_stats (JStr legacy_text) JUndefined) "Alice"
  = generateContextualSummary (JObj [("showUserStats", JBool true);
                                     ("showInfoBox", JBool true)])
      (tracker skills_stats JUndefined JUndefined) "Alice"
  /\ Historical.formatHistoricalTrackerData
       (tracker skills_stats (JStr legacy_text) JUndefined) history_config "Alice" true
     = Ok "".
Proof.
  assert (Hbad : JSON_parse legacy_text = None) by reflexivity.
  destruct (parse_failure_by_path
              (JObj [("showUserStats", JBool true); ("showInfoBox", JBool true)])
              "Alice" legacy_text Hbad) as (Hsum & _ & _ & Hhist).
  split.
  - destruct (Hsum skills_stats JUndefined JUndefined) as (_ & Hinfo & _).
    exact Hinfo.
  - destruct (Hhist history_config true skills_stats JUndefined JUndefined)
      as (_ & Hinfo & _); [discriminate|].
    exact Hinfo.
Defined.

(** ** The injection map and the last model turn (C5) *)

Section InjectionReturns.
Context `{Builtins}.

Lemma lastAssistantIdx_from_defined msgs n :
  defined (lastAssistantIdx_from msgs n).
Proof. induction n as [|n IH]; simpl; returns_tac. Qed.

Lemma preceding_user_defined msgs i n : defined (preceding_user msgs i n).
Proof. induction n as [|n IH]; simpl; returns_tac. Qed.

Lemma formatHistoricalTrackerData_defined trackerData trackerConfig userName u :
  defined (Historical.formatHistoricalTrackerData trackerData trackerConfig
             userName u).
Proof.
  destruct (formatHistoricalTrackerData_returns trackerData trackerConfig userName u)
    as [text ->].
  discriminate.
Qed.

(** The construction of the injection map ends: it returns the map, or
    raises on a window that holds a null message or on a preamble or
    swipe id that has no string form. *)
Lemma contextInjectionMap_defined msgs trackerConfig historyPersistence userName :
  defined (contextInjectionMap msgs trackerConfig historyPersistence userName).
Proof.
  unfold contextInjectionMap.
  destruct (truthy (opt_member historyPersistence "enabled")); [|discriminate].
  apply bind_defined; [apply lastAssistantIdx_from_defined|]. intros last _.
  apply for_of_defined. intros m i _. unfold injection_step.
  pose proof formatHistoricalTrackerData_defined.
  pose proof preceding_user_defined.
  returns_tac.
Qed.

End InjectionReturns.

Lemma for_of_invariant {A S} (P : S -> Prop) (l : list A) (acc : S)
    (body : S -> A -> outcome S) (r : S) :
  P acc ->
  (forall s x s', In x l -> P s -> body s x = Ok s' -> P s') ->
  for_of l acc body = Ok r -> P r.
Proof.
  revert acc. induction l as [|x l IH]; simpl; intros acc Hacc Hbody Hr.
  - now injection Hr as <-.
  - destruct (body acc x) as [acc'| |] eqn:Hb; simpl in Hr; try discriminate.
    apply (IH acc'); eauto.
Qed.

Lemma bind_Ok {A B} (c : outcome A) (k : A -> outcome B) (b : B) :
  bind c k = Ok b -> exists a, c = Ok a /\ k a = Ok b.
Proof. destruct c; simpl; intros Hb; try discriminate. eauto. Qed.

Lemma member_Ok v k r : member v k = Ok r -> r = prop v k.
Proof. unfold member. destruct (is_nullish v); intros [=]; auto. Qed.

(** The scan for the last assistant message finds the index of the last
    model-authored turn. *)
Lemma lastAssistantIdx_from_spec msgs n last i :
  lastAssistantIdx_from msgs n = Ok last ->
  (i < n)%nat ->
  is_assistant (message_at msgs i) = true ->
  (forall j, (i < j < n)%nat -> is_assistant (message_at msgs j) = false) ->
  last = Z.of_nat i.
Proof.
  induction n as [|n IH]; intros Hl Hi Ha Hlater; [lia|].
  simpl in Hl. apply bind_Ok in Hl as (u & Hu & Hl).
  apply member_Ok in Hu. subst u.
  destruct (Nat.eq_dec i n) as [->|Hne].
  - unfold is_assistant in Ha. rewrite Ha in Hl. now injection Hl as <-.
  - assert (Hn : is_assistant (message_at msgs n) = false) by (apply Hlater; lia).
    unfold is_assistant in Hn. rewrite Hn in Hl.
    apply IH; auto; [lia|]. intros j Hj. apply Hlater. lia.
Qed.

(** The backward scan stops on a user message or gives back [i]. *)
Lemma preceding_user_spec msgs i n j :
  preceding_user msgs i n = Ok j ->
  j = i \/ truthy (prop (message_at msgs j) "is_user") = true.
Proof.
  induction n as [|n IH]; simpl; intros Hp.
  - left. now injection Hp as <-.
  - apply bind_Ok in Hp as (u & Hu & Hp). apply member_Ok in Hu. subst u.
    destruct (truthy (prop (message_at msgs n) "is_user")) eqn:Hu; simpl in Hp.
    + destruct (negb (truthy (prop (message_at msgs n) "is_system"))).
      * injection Hp as <-. now right.
      * auto.
    + auto.
Qed.

(** One iteration leaves the map as it was or sets an entry at an index
    that is not the excluded one and not a model-authored turn other than
    [i]. *)
Lemma injection_step_target `{Builtins} msgs cfg hp name position last m i m' :
  injection_step msgs cfg hp name position last m i = Ok m' ->
  m' = m
  \/ exists t text,
       m' = <[Z.of_nat t := text]> m
       /\ ((t = i /\ Z.of_nat i <> last)
           \/ truthy (prop (message_at msgs t) "is_user") = true).
Proof.
  unfold injection_step. intros Hs.
  repeat match type of Hs with
  | bind _ _ = Ok _ => apply bind_Ok in Hs as (? & ? & Hs)
  | (if ?c then _ else _) = Ok _ => destruct c eqn:?
  | Ok _ = Ok _ => injection Hs as <-
  end; auto; right.
  match goal with
  | Ht : (if strict_eq ?p _ then _ else _) = Ok ?t,
    Hc : _ && (?t =? _)%nat = false |- _ =>
      exists t;
      cut ((t = i /\ Z.of_nat i <> last)
           \/ truthy (prop (message_at msgs t) "is_user") = true);
      [ intros HQ; destruct (m !! Z.of_nat t); eexists;
        (split; [reflexivity|exact HQ]) | ];
      destruct (strict_eq p (JStr "user_message_end")); simpl in Hc;
      [ apply preceding_user_spec in Ht; destruct Ht as [->|Hu];
        [rewrite Nat.eqb_refl in Hc; discriminate | now right]
      | injection Ht as <-; left; split; [reflexivity|] ]
  end.
  match goal with
  | Hl : (Z.of_nat _ =? _) = false |- _ => now apply Z.eqb_neq
  end.
Qed.

(** C5.  Whatever the window, the persistence policy and the anchor, the
    injection map has no entry at the index of the last model-authored
    turn of the window. *)
Theorem no_injection_at_last_assistant `{Builtins} (recentMessages : list jsval)
    (trackerConfig historyPersistence : jsval) (userName : string)
    (m : gmap Z string) (i : nat) :
  contextInjectionMap recentMessages trackerConfig historyPersistence userName
  = Ok m ->
  is_last_assistant recentMessages i ->
  m !! Z.of_nat i = None.
Proof.
  intros Hm (Hi & Ha & Hlater). unfold contextInjectionMap in Hm.
  destruct (truthy (opt_member historyPersistence "enabled"));
    [|injection Hm as <-; apply lookup_empty].
  apply bind_Ok in Hm as (last & Hlast & Hm).
  assert (Hidx : last = Z.of_nat i).
  { unfold lastAssistantIdx in Hlast.
    eapply lastAssistantIdx_from_spec; eauto. }
  subst last.
  eapply (for_of_invariant (fun s => s !! Z.of_nat i = None));
    [apply lookup_empty | | exact Hm].
  intros s x s' _ Hs Hstep.
  apply injection_step_target in Hstep as [->|(t & text & -> & Ht)]; [assumption|].
  rewrite lookup_insert_ne; [assumption|].
  intros Heq. apply Nat2Z.inj in Heq. subst t.
  destruct Ht as [[-> Hne]|Hu]; [congruence|].
  unfold is_assistant in Ha. rewrite Hu in Ha. discriminate.
Qed.

Lemma shifted_window_map :
  contextInjectionMap shifted_window history_config
    (persistence "assistant_message_end") "Alice" = Ok shifted_map.
Proof. reflexivity. Qed.

Lemma no_injection_at_last_assistant_witness :
  shifted_map !! 1 <> None /\ shifted_map !! 3 = None.
Proof.
  split; [discriminate|].
  apply (no_injection_at_last_assistant shifted_window history_config
           (persistence "assistant_message_end") "Alice" shifted_map 3).
  - reflexivity.
  - split; [simpl; lia|]. split; [reflexivity|].
    intros j Hj. simpl in Hj. lia.
Defined.

(** ** The four-turn window (C6) *)

(** C6, amended.  For a window of exactly 4 turns [user, model with no
    attached snapshot, user, model with attached snapshot S], whatever the
    anchor and the persistence policy, the injection map is empty: the
    last turn is the current turn and is excluded, and the other model
    turn has no snapshot. *)
Theorem example_window_map_empty `{Builtins} (t0 t1 t2 t3 : string) (S : jsval)
    (trackerConfig historyPersistence : jsval) (userName : string) :
  contextInjectionMap
    [user_turn t0; model_turn t1; user_turn t2; model_turn_with t3 S]
    trackerConfig historyPersistence userName
  = Ok ∅.
Proof.
  unfold contextInjectionMap.
  destruct (truthy (opt_member historyPersistence "enabled")); reflexivity.
Qed.

(** C6, counterexample: the snapshot on the last turn has persisted
    fields, which the historical formatter renders, and yet the map has no
    entry at the last turn's index: it is empty. *)
Lemma example_window_no_entry :
  Historical.formatHistoricalTrackerData snapshot_S history_config "Alice" false
  = Ok ("Alice: Skills: Stealth, Archery" +:+ nl +:+ "Location: Forest Clearing")
  /\ contextInjectionMap example_window history_config
       (persistence "assistant_message_end") "Alice" = Ok ∅
  /\ forall m, contextInjectionMap example_window history_config
                 (persistence "assistant_message_end") "Alice" = Ok m ->
               m !! 3 = None.
Proof.
  split; [reflexivity|]. split; [reflexivity|]. intros m Hm.
  change (Ok (∅ : gmap Z string) = Ok m) in Hm. injection Hm as <-. reflexivity.
Qed.

(** With the snapshot on the first model turn, the map has exactly one
    entry, at that turn, and its text holds the persisted fields only:
    the skills and the location, not the mood or the date. *)
Lemma shifted_window_one_entry :
  contextInjectionMap shifted_window history_config
    (persistence "assistant_message_end") "Alice" = Ok shifted_map
  /\ map_to_list shifted_map
     = [(1, nl +:+ "Context for that moment:" +:+ nl
            +:+ "Alice: Skills: Stealth, Archery" +:+ nl
            +:+ "Location: Forest Clearing")].
Proof. split; [reflexivity|]. apply map_to_list_singleton. Qed.

(** ** The tracker example (C10) *)

Section ExampleFacts.
Context `{Builtins}.
Variable applyLocks : jsval -> string -> outcome jsval.
Variable s : jsval.

Lemma append_empty_r (a : string) : a +:+ "" = a.
Proof.
  induction a as [|x a IH]; [reflexivity|].
  change (String x (a +:+ "") = String x a). now rewrite IH.
Qed.

(** What one tracker adds does not depend on what is already there. *)
Lemma example_part_delta committed show payload key lockType closing parts text :
  example_part applyLocks s committed show payload key lockType closing (parts, text)
  = (d <- example_part applyLocks s committed show payload key lockType closing
            ([], "") ;;
     Ok (parts ++ d.1, text +:+ d.2)).
Proof.
  unfold example_part.
  destruct (truthy (prop s show) && truthy (prop committed payload)); simpl.
  - destruct (json_part applyLocks (prop committed payload) key lockType)
      as [part| |]; simpl; [now rewrite append_empty_r| |reflexivity].
    destruct (to_string (prop committed payload)); simpl;
      rewrite ?app_nil_r; reflexivity.
  - now rewrite app_nil_r, append_empty_r.
Qed.

Lemma example_part_legacy committed show payload key lockType closing text :
  prop committed payload = JStr text -> JSON_parse text = None ->
  exists x, example_part applyLocks s committed show payload key lockType closing
              ([], "") = Ok ([], x).
Proof.
  intros Hp Hbad. unfold example_part, json_part, JSON_parse_value.
  rewrite Hp. simpl to_string. simpl bind. rewrite Hbad.
  destruct (truthy (prop s show) && truthy (JStr text)); simpl; eauto.
Qed.

Lemma example_part_absent committed show payload key lockType closing :
  prop committed payload = JUndefined ->
  example_part applyLocks s committed show payload key lockType closing ([], "")
  = Ok ([], "").
Proof.
  intros Hp. unfold example_part. rewrite Hp, andb_false_r. reflexivity.
Qed.

Lemma example_part_json committed show payload key lockType closing part :
  json_category applyLocks s show (prop committed payload) key lockType part ->
  example_part applyLocks s committed show payload key lockType closing ([], "")
  = Ok ([part], "").
Proof.
  intros (Hs & Hd & Hp). unfold example_part. rewrite Hs, Hd, Hp. reflexivity.
Qed.

(** Each tracker adds at most its own part. *)
Lemma example_part_parts committed show payload key lockType closing ps x :
  example_part applyLocks s committed show payload key lockType closing ([], "")
  = Ok (ps, x) ->
  ps = [] \/ exists part,
    ps = [part]
    /\ json_category applyLocks s show (prop committed payload) key lockType part.
Proof.
  unfold example_part, json_category.
  destruct (truthy (prop s show)) eqn:Hs; simpl;
    [|intros [= <- <-]; now left].
  destruct (truthy (prop committed payload)) eqn:Hd; simpl;
    [|intros [= <- <-]; now left].
  destruct (json_part applyLocks (prop committed payload) key lockType)
    as [part| |]; simpl.
  - intros [= <- <-]. right. exists part. auto.
  - destruct (to_string _); simpl; intros [= <- <-]. now left.
  - discriminate.
Qed.

Lemma generateTrackerExample_deltas committed :
  generateTrackerExample applyLocks s committed
  = (du <- example_part applyLocks s committed "showUserStats" "userStats"
             "userStats" "userStats" nl ([], "") ;;
     di <- example_part applyLocks s committed "showInfoBox" "infoBox"
             "infoBox" "infoBox" nl ([], "") ;;
     dc <- example_part applyLocks s committed "showCharacterThoughts"
             "characterThoughts" "characters" "characters" "" ([], "") ;;
     Ok (example_of du di dc)).
Proof.
  unfold generateTrackerExample.
  apply bind_cong; [reflexivity|]. intros [pu xu].
  rewrite example_part_delta.
  destruct (example_part applyLocks s committed "showInfoBox" _ _ _ _ _)
    as [[pi xi]| |]; simpl; try reflexivity.
  rewrite example_part_delta.
  destruct (example_part applyLocks s committed "showCharacterThoughts" _ _ _ _ _)
    as [[pc xc]| |]; simpl; try reflexivity.
  unfold example_of. simpl. rewrite <- app_assoc, append_assoc. reflexivity.
Qed.

Lemma example_part_data c1 c2 show payload key lockType closing st :
  prop c1 payload = prop c2 payload ->
  example_part applyLocks s c1 show payload key lockType closing st
  = example_part applyLocks s c2 show payload key lockType closing st.
Proof. intros Hp. unfold example_part. now rewrite Hp. Qed.

Lemma example_of_nonempty pu xu pi xi pc xc xu' xi' xc' :
  pu ++ pi ++ pc <> [] ->
  example_of (pu, xu) (pi, xi) (pc, xc) = example_of (pu, xu') (pi, xi') (pc, xc').
Proof.
  intros Hne. unfold example_of. simpl.
  destruct (pu ++ pi ++ pc); [contradiction|reflexivity].
Qed.

Lemma json_userStats u i c part :
  json_category applyLocks s "showUserStats" u "userStats" "userStats" part ->
  example_part applyLocks s (tracker u i c) "showUserStats" "userStats"
    "userStats" "userStats" nl ([], "") = Ok ([part], "").
Proof. intros Hj. now apply example_part_json. Qed.

Lemma json_infoBox u i c part :
  json_category applyLocks s "showInfoBox" i "infoBox" "infoBox" part ->
  example_part applyLocks s (tracker u i c) "showInfoBox" "infoBox"
    "infoBox" "infoBox" nl ([], "") = Ok ([part], "").
Proof. intros Hj. now apply example_part_json. Qed.

Lemma json_characters u i c part :
  json_category applyLocks s "showCharacterThoughts" c "characters" "characters"
    part ->
  example_part applyLocks s (tracker u i c) "showCharacterThoughts"
    "characterThoughts" "characters" "characters" "" ([], "") = Ok ([part], "").
Proof. intros Hj. now apply example_part_json. Qed.

End ExampleFacts.

(** C10.  In generateTrackerExample, once an enabled tracker holds valid
    JSON, an enabled sibling whose payload is legacy text (a text that
    JSON.parse rejects) leaves no trace: the result is the result without
    that sibling's payload, in each of the three positions; and the result
    is the unified object made of the parts of the JSON trackers alone. *)
Theorem json_part_suppresses_legacy_text `{Builtins}
    (applyLocks : jsval -> string -> outcome jsval) (s u i c : jsval)
    (text part : string) :
  JSON_parse text = None ->
  (json_category applyLocks s "showInfoBox" i "infoBox" "infoBox" part
   \/ json_category applyLocks s "showCharacterThoughts" c "characters"
        "characters" part ->
   generateTrackerExample applyLocks s (tracker (JStr text) i c)
   = generateTrackerExample applyLocks s (tracker JUndefined i c))
  /\ (json_category applyLocks s "showUserStats" u "userStats" "userStats" part
      \/ json_category applyLocks s "showCharacterThoughts" c "characters"
           "characters" part ->
      generateTrackerExample applyLocks s (tracker u (JStr text) c)
      = generateTrackerExample applyLocks s (tracker u JUndefined c))
  /\ (json_category applyLocks s "showUserStats" u "userStats" "userStats" part
      \/ json_category applyLocks s "showInfoBox" i "infoBox" "infoBox" part ->
      generateTrackerExample applyLocks s (tracker u i (JStr text))
      = generateTrackerExample applyLocks s (tracker u i JUndefined))
  /\ (json_category applyLocks s "showUserStats" u "userStats" "userStats" part
      \/ json_category applyLocks s "showInfoBox" i "infoBox" "infoBox" part
      \/ json_category applyLocks s "showCharacterThoughts" c "characters"
           "characters" part ->
      forall out,
        generateTrackerExample applyLocks s (tracker u i c) = Ok out ->
        exists parts,
          parts <> [] /\ out = trim (unified parts)
          /\ Forall (fun p =>
                json_category applyLocks s "showUserStats" u "userStats"
                  "userStats" p
                \/ json_category applyLocks s "showInfoBox" i "infoBox"
                     "infoBox" p
                \/ json_category applyLocks s "showCharacterThoughts" c
                     "characters" "characters" p) parts).
Proof.
  intros Hbad.
  assert (Hleg : forall committed show payload key lockType closing,
             prop committed payload = JStr text ->
             exists x, example_part applyLocks s committed show payload key
                         lockType closing ([], "") = Ok ([], x)).
  { intros. now apply example_part_legacy with (text := text). }
  split; [|split; [|split]].
  - intros Hjson. rewrite !generateTrackerExample_deltas.
    destruct (Hleg (tracker (JStr text) i c) "showUserStats" "userStats"
                "userStats" "userStats" nl eq_refl) as [x ->].
    rewrite (example_part_absent applyLocks s (tracker JUndefined i c)) by reflexivity.
    simpl bind.
    rewrite (example_part_data applyLocks s (tracker (JStr text) i c)
               (tracker JUndefined i c) "showInfoBox") by reflexivity.
    apply bind_ext. intros [pi xi] Hi.
    rewrite (example_part_data applyLocks s (tracker (JStr text) i c)
               (tracker JUndefined i c) "showCharacterThoughts") by reflexivity.
    apply bind_ext. intros [pc xc] Hc. f_equal.
    apply example_of_nonempty. simpl.
    destruct Hjson as [Hj|Hj].
    + rewrite (json_infoBox applyLocks s JUndefined i c part Hj) in Hi.
      injection Hi as <- <-. discriminate.
    + rewrite (json_characters applyLocks s JUndefined i c part Hj) in Hc.
      injection Hc as <- <-. destruct pi; discriminate.
  - intros Hjson. rewrite !generateTrackerExample_deltas.
    rewrite (example_part_data applyLocks s (tracker u (JStr text) c)
               (tracker u JUndefined c) "showUserStats") by reflexivity.
    apply bind_ext. intros [pu xu] Hu.
    destruct (Hleg (tracker u (JStr text) c) "showInfoBox" "infoBox"
                "infoBox" "infoBox" nl eq_refl) as [x ->].
    rewrite (example_part_absent applyLocks s (tracker u JUndefined c)) by reflexivity.
    simpl bind.
    rewrite (example_part_data applyLocks s (tracker u (JStr text) c)
               (tracker u JUndefined c) "showCharacterThoughts") by reflexivity.
    apply bind_ext. intros [pc xc] Hc. f_equal.
    apply example_of_nonempty. simpl.
    destruct Hjson as [Hj|Hj].
    + rewrite (json_userStats applyLocks s u JUndefined c part Hj) in Hu.
      injection Hu as <- <-. discriminate.
    + rewrite (json_characters applyLocks s u JUndefined c part Hj) in Hc.
      injection Hc as <- <-. destruct pu; discriminate.
  - intros Hjson. rewrite !generateTrackerExample_deltas.
    rewrite (example_part_data applyLocks s (tracker u i (JStr text))
               (tracker u i JUndefined) "showUserStats") by reflexivity.
    apply bind_ext. intros [pu xu] Hu.
    rewrite (example_part_data applyLocks s (tracker u i (JStr text))
               (tracker u i JUndefined) "showInfoBox") by reflexivity.
    apply bind_ext. intros [pi xi] Hi.
    destruct (Hleg (tracker u i (JStr text)) "showCharacterThoughts"
                "characterThoughts" "characters" "characters" "" eq_refl)
      as [x ->].
    rewrite (example_part_absent applyLocks s (tracker u i JUndefined)) by reflexivity.
    simpl bind. f_equal.
    apply example_of_nonempty. simpl.
    destruct Hjson as [Hj|Hj].
    + rewrite (json_userStats applyLocks s u i JUndefined part Hj) in Hu.
      injection Hu as <- <-. discriminate.
    + rewrite (json_infoBox applyLocks s u i JUndefined part Hj) in Hi.
      injection Hi as <- <-. destruct pu; discriminate.
  - intros Hjson out. rewrite generateTrackerExample_deltas. intros Hout.
    apply bind_Ok in Hout as ([pu xu] & Hu & Hout).
    apply bind_Ok in Hout as ([pi xi] & Hi & Hout).
    apply bind_Ok in Hout as ([pc xc] & Hc & Hout).
    injection Hout as <-.
    exists (pu ++ pi ++ pc).
    assert (Hne : pu ++ pi ++ pc <> []).
    { destruct Hjson as [Hj|[Hj|Hj]].
      - rewrite (json_userStats applyLocks s u i c part Hj) in Hu.
        injection Hu as <- <-. discriminate.
      - rewrite (json_infoBox applyLocks s u i c part Hj) in Hi.
        injection Hi as <- <-. destruct pu; discriminate.
      - rewrite (json_characters applyLocks s u i c part Hj) in Hc.
        injection Hc as <- <-. destruct pu, pi; discriminate. }
    split; [exact Hne|]. split.
    + unfold example_of. simpl. destruct (pu ++ pi ++ pc); [contradiction|reflexivity].
    + apply example_part_parts in Hu, Hi, Hc.
      rewrite !Forall_app. repeat split.
      * destruct Hu as [->|(p & -> & Hp)]; [constructor|].
        constructor; [now left|constructor].
      * destruct Hi as [->|(p & -> & Hp)]; [constructor|].
        constructor; [right; now left|constructor].
      * destruct Hc as [->|(p & -> & Hp)]; [constructor|].
        constructor; [right; now right|constructor].
Qed.

(** The lock manager left aside, the valid JSON of the user stats makes
    the whole example; the legacy text of the info box is gone. *)
Lemma json_part_suppresses_legacy_text_witness :
  generateTrackerExample no_locks all_shown
    (tracker (JStr hp_json) (JStr legacy_text) JUndefined)
  = generateTrackerExample no_locks all_shown
      (tracker (JStr hp_json) JUndefined JUndefined)
  /\ generateTrackerExample no_locks all_shown
       (tracker (JStr hp_json) (JStr legacy_text) JUndefined)
     = Ok ("{" +:+ nl +:+ "  " +:+ dquote +:+ "userStats" +:+ dquote +:+ ": "
           +:+ hp_json +:+ nl +:+ "}").
Proof.
  split; [|reflexivity].
  apply (json_part_suppresses_legacy_text no_locks all_shown (JStr hp_json)
           JUndefined JUndefined legacy_text
           ("  " +:+ dquote +:+ "userStats" +:+ dquote +:+ ": " +:+ hp_json)).
  - reflexivity.
  - left. repeat split.
Defined.

(* ================================================================== *)
(** * Further properties of the module *)

Lemma nonempty_append a b : nonempty a = true -> nonempty (a +:+ b) = true.
Proof. destruct a; [discriminate|reflexivity]. Qed.

Lemma join_nonempty sep x l :
  nonempty x = true -> nonempty (join sep (x :: l)) = true.
Proof.
  intros Hx. destruct l as [|y l]; simpl; [assumption|].
  now apply nonempty_append.
Qed.

Lemma join_cons sep x l :
  l <> [] -> join sep (x :: l) = x +:+ sep +:+ join sep l.
Proof. destruct l; [contradiction|reflexivity]. Qed.

(** Joining two lists of non-empty texts glues the two joined texts. *)
Lemma join_app_glue (xs ys : list string) :
  forallb nonempty xs = true -> forallb nonempty ys = true ->
  join ", " (xs ++ ys) = glue (join ", " xs) (join ", " ys).
Proof.
  induction xs as [|x xs IH]; intros Hx Hy.
  - reflexivity.
  - simpl in Hx. apply andb_true_iff in Hx as [Hx Hxs].
    unfold glue. rewrite (join_nonempty ", " x xs Hx).
    destruct ys as [|y ys].
    + rewrite app_nil_r. reflexivity.
    + simpl in Hy. apply andb_true_iff in Hy as [Hy Hys].
      rewrite (join_nonempty ", " y ys Hy).
      destruct xs as [|x' xs].
      * reflexivity.
      * change ((x :: x' :: xs) ++ y :: ys) with (x :: ((x' :: xs) ++ y :: ys)).
        rewrite join_cons by discriminate.
        rewrite IH by (assumption || (simpl; now rewrite Hy, Hys)).
        unfold glue.
        simpl in Hxs. apply andb_true_iff in Hxs as [Hx' Hxs].
        rewrite (join_nonempty ", " x' xs Hx'), (join_nonempty ", " y ys Hy).
        rewrite (join_cons ", " x (x' :: xs)) by discriminate.
        now rewrite !append_assoc.
Qed.

Lemma forallb_filter_nonempty l : forallb nonempty (List.filter nonempty l) = true.
Proof.
  induction l as [|x l IH]; [reflexivity|]. simpl.
  destruct (nonempty x) eqn:Hx; [simpl; now rewrite Hx|assumption].
Qed.

Lemma mapM_app {A B} (f : A -> outcome B) l1 l2 :
  mapM f (l1 ++ l2) = (xs <- mapM f l1 ;; ys <- mapM f l2 ;; Ok (xs ++ ys)).
Proof.
  induction l1 as [|x l1 IH]; simpl.
  - destruct (mapM f l2); reflexivity.
  - destruct (f x) as [y| |]; simpl; try reflexivity.
    rewrite IH. destruct (mapM f l1); simpl; try reflexivity.
    destruct (mapM f l2); reflexivity.
Qed.

Section Arrays.
Variable resolve : jsval -> outcome string.
Hypothesis resolve_array : forall items,
  resolve (JArr items)
  = (texts <- mapM resolve items ;; Ok (join ", " (List.filter nonempty texts))).

Lemma resolve_array_app l1 l2 a b :
  resolve (JArr l1) = Ok a -> resolve (JArr l2) = Ok b ->
  resolve (JArr (l1 ++ l2)) = Ok (glue a b).
Proof.
  rewrite !resolve_array, mapM_app. intros H1 H2.
  apply bind_Ok in H1 as (xs & -> & [= <-]).
  apply bind_Ok in H2 as (ys & -> & [= <-]).
  simpl. rewrite List.filter_app.
  now rewrite join_app_glue by apply forallb_filter_nonempty.
Qed.

Lemma resolve_array_skip l1 x l2 :
  resolve x = Ok "" ->
  resolve (JArr (l1 ++ x :: l2)) = resolve (JArr (l1 ++ l2)).
Proof.
  intros Hx. rewrite !resolve_array, !mapM_app. simpl. rewrite Hx. simpl.
  destruct (mapM resolve l1) as [xs| |]; simpl; try reflexivity.
  destruct (mapM resolve l2) as [ys| |]; simpl; try reflexivity.
  now rewrite !List.filter_app.
Qed.

End Arrays.

Lemma ctx_getValue_array `{Builtins} items :
  ContextFormat.getValue (JArr items)
  = (texts <- mapM ContextFormat.getValue items ;;
     Ok (join ", " (List.filter nonempty texts))).
Proof. now rewrite ctx_getValue_unfold at 1. Qed.

Lemma hist_getValue_array `{Builtins} items :
  Historical.getValue (JArr items)
  = (texts <- mapM Historical.getValue items ;;
     Ok (join ", " (List.filter nonempty texts))).
Proof. now rewrite hist_getValue_unfold at 1. Qed.

(** X1.  Resolving the concatenation of two lists glues the two resolved
    texts: the one that is not empty when the other is, and otherwise the
    first, a comma and a space, and the second.  Both resolvers. *)
Theorem getValue_array_app `{Builtins} (l1 l2 : list jsval) (a b : string) :
  (ContextFormat.getValue (JArr l1) = Ok a ->
   ContextFormat.getValue (JArr l2) = Ok b ->
   ContextFormat.getValue (JArr (l1 ++ l2)) = Ok (glue a b))
  /\ (Historical.getValue (JArr l1) = Ok a ->
      Historical.getValue (JArr l2) = Ok b ->
      Historical.getValue (JArr (l1 ++ l2)) = Ok (glue a b)).
Proof.
  split.
  - apply resolve_array_app, ctx_getValue_array.
  - apply resolve_array_app, hist_getValue_array.
Qed.

Lemma getValue_array_app_witness :
  ContextFormat.getValue (JArr ([JStr "Sword"; JNull] ++ [JNum 3])) = Ok "Sword, 3".
Proof.
  apply (getValue_array_app [JStr "Sword"; JNull] [JNum 3] "Sword" "3"); reflexivity.
Defined.

(** X2.  An element that resolves to the empty text leaves no trace in
    the resolved list, wherever it stands: null, undefined, an empty
    string, an empty list, an unrecognized record.  Both resolvers. *)
Theorem getValue_array_skips_empty `{Builtins} (l1 l2 : list jsval) (x : jsval) :
  (ContextFormat.getValue x = Ok "" ->
   ContextFormat.getValue (JArr (l1 ++ x :: l2))
   = ContextFormat.getValue (JArr (l1 ++ l2)))
  /\ (Historical.getValue x = Ok "" ->
      Historical.getValue (JArr (l1 ++ x :: l2))
      = Historical.getValue (JArr (l1 ++ l2))).
Proof.
  split.
  - apply resolve_array_skip, ctx_getValue_array.
  - apply resolve_array_skip, hist_getValue_array.
Qed.

Lemma getValue_array_skips_empty_witness :
  Historical.getValue (JArr ([JStr "a"] ++ JObj [] :: [JStr "b"]))
  = Historical.getValue (JArr ([JStr "a"] ++ [JStr "b"])).
Proof.
  apply (getValue_array_skips_empty [JStr "a"] [JStr "b"] (JObj [])). reflexivity.
Defined.

Lemma common_elem items x :
  common_shape (JArr items) = true -> In x items -> common_shape x = true.
Proof. simpl. intros Hc Hin. rewrite forallb_forall in Hc. auto. Qed.

Lemma common_prop props k :
  common_shape (JObj props) = true -> common_shape (prop (JObj props) k) = true.
Proof.
  intros Hc. unfold prop.
  destruct (lookup_prop k props) as [v|] eqn:Hl; [|reflexivity].
  destruct (lookup_prop_In _ _ _ Hl) as [k' Hin].
  simpl in Hc. apply andb_true_iff in Hc as [Hc _].
  rewrite forallb_forall in Hc. apply (Hc (k', v) Hin).
Qed.

Section Agreement.
Context `{Builtins}.

Lemma getValue_bodies_agree f g field :
  common_shape field = true ->
  (forall v, (height v < height field)%nat -> common_shape v = true -> f v = g v) ->
  ContextFormat.getValue_body f field = Historical.getValue_body g field.
Proof.
  intros Hc Hrec.
  unfold ContextFormat.getValue_body, Historical.getValue_body.
  destruct field as [| | b | n | s | items | props]; simpl;
    rewrite ?andb_false_r; simpl; try reflexivity.
  - apply bind_cong; [|reflexivity].
    apply mapM_ext. intros x Hin. apply Hrec; [now apply height_elem|].
    now apply (common_elem items).
  - assert (Hp : forall k, f (prop (JObj props) k) = g (prop (JObj props) k)).
    { intros k. apply Hrec; [apply height_prop|now apply common_prop]. }
    simpl in Hc. apply andb_true_iff in Hc as [_ Hc].
    simpl in Hp.
    destruct (bool_decide (is_Some (lookup_prop "value" props))); [apply Hp|].
    destruct (bool_decide (is_Some (lookup_prop "mood" props))); [discriminate|].
    destruct (bool_decide (is_Some (lookup_prop "name" props)));
      destruct (bool_decide (is_Some (lookup_prop "title" props)));
      destruct (bool_decide (is_Some (lookup_prop "start" props)));
      destruct (bool_decide (is_Some (lookup_prop "end" props)));
      destruct (bool_decide (is_Some (lookup_prop "emoji" props)));
      destruct (bool_decide (is_Some (lookup_prop "forecast" props)));
      simpl in Hc; try discriminate; simpl;
      rewrite ?Hp; reflexivity.
Qed.

Lemma getValue_fuel_agree n field :
  (height field < n)%nat -> common_shape field = true ->
  ContextFormat.getValue_fuel n field = Historical.getValue_fuel n field.
Proof.
  revert field. induction n as [|n IH]; intros field Hn Hc; [lia|].
  simpl. apply getValue_bodies_agree; [assumption|].
  intros v Hv Hcv. apply IH; [lia|assumption].
Qed.

End Agreement.



(** The copies differ outside these shapes: a status record and a
    record of unknown keys resolve to text in the context formatter and
    to nothing in the historical one. *)
Lemma getValue_copies_differ :
  ContextFormat.getValue (JObj [("mood", JStr "Happy")]) = Ok "Happy"
  /\ Historical.getValue (JObj [("mood", JStr "Happy")]) = Ok ""
  /\ ContextFormat.getValue (JObj [("hp", JNum 7)]) = Ok "hp: 7"
  /\ Historical.getValue (JObj [("hp", JNum 7)]) = Ok "".
Proof. repeat split. Qed.

Lemma findM_found p l x :
  findM p l = Ok x -> x = JUndefined \/ In x l.
Proof.
  induction l as [|y l IH]; simpl; intros Hf.
  - left. now injection Hf as <-.
  - apply bind_Ok in Hf as (b & _ & Hf). destruct b.
    + injection Hf as <-. right. now left.
    + destruct (IH Hf); auto.
Qed.

Ltac invert_ok H :=
  repeat match type of H with
  | bind _ _ = Ok _ => let H' := fresh "Hstep" in apply bind_Ok in H as (? & H' & H)
  | (if ?c then _ else _) = Ok _ => destruct c eqn:?
  | Ok _ = Ok _ => injection H as <-
  end.

Section NothingPersists.
Context `{Builtins}.

Lemma hist_custom_stats_off d c acc r :
  forallb (fun s => negb (Historical.shouldIncludeStat false s))
          (elements (prop c "customStats")) = true ->
  Historical.hist_custom_stats false d c acc = Ok r -> r = acc.
Proof.
  intros Hoff Hr. unfold Historical.hist_custom_stats in Hr.
  apply bind_Ok in Hr as (stats & _ & Hr).
  destruct (truthy stats && isArray stats); [|now injection Hr as <-].
  apply bind_Ok in Hr as (cs & Hcs & Hr). apply member_Ok in Hcs. subst cs.
  destruct (truthy (prop c "customStats")); [|now injection Hr as <-].
  eapply (for_of_invariant (fun s => s = acc)); [reflexivity| |exact Hr].
  intros s x s' _ -> Hstep.
  apply bind_Ok in Hstep as (configStat & Hfind & Hstep).
  assert (Hno : Historical.shouldIncludeStat false configStat = false).
  { unfold Historical.array_find in Hfind.
    destruct (prop c "customStats") as [| | | | |items|]; try discriminate.
    apply findM_found in Hfind as [->|Hin]; [reflexivity|].
    simpl in Hoff. rewrite forallb_forall in Hoff.
    apply negb_true_iff. now apply Hoff. }
  rewrite Hno in Hstep. now injection Hstep as <-.
Qed.

Lemma hist_status_off d c acc r :
  Historical.shouldInclude false (prop c "statusSection") = false ->
  Historical.hist_status false d c acc = Ok r -> r = acc.
Proof.
  intros Hoff Hr. unfold Historical.hist_status in Hr.
  apply bind_Ok in Hr as (ss & Hss & Hr). apply member_Ok in Hss. subst ss.
  rewrite Hoff in Hr. now injection Hr as <-.
Qed.

Lemma hist_skills_off d c acc r :
  Historical.shouldInclude false (prop c "skillsSection") = false ->
  Historical.hist_skills false d c acc = Ok r -> r = acc.
Proof.
  intros Hoff Hr. unfold Historical.hist_skills in Hr.
  apply bind_Ok in Hr as (ss & Hss & Hr). apply member_Ok in Hss. subst ss.
  rewrite Hoff in Hr. now injection Hr as <-.
Qed.

Lemma hist_inventory_off d c acc r :
  truthy (prop c "inventoryPersistInHistory") = false ->
  Historical.hist_inventory false d c acc = Ok r -> r = acc.
Proof.
  intros Hoff Hr. unfold Historical.hist_inventory in Hr.
  apply bind_Ok in Hr as (b & Hb & Hr).
  apply bind_Ok in Hb as (p & Hp & Hb). apply member_Ok in Hp. subst p.
  rewrite Hoff in Hb. injection Hb as <-. now injection Hr as <-.
Qed.

Lemma hist_quests_off d c acc r :
  truthy (prop c "questsPersistInHistory") = false ->
  Historical.hist_quests false d c acc = Ok r -> r = acc.
Proof.
  intros Hoff Hr. unfold Historical.hist_quests in Hr.
  apply bind_Ok in Hr as (b & Hb & Hr).
  apply bind_Ok in Hb as (p & Hp & Hb). apply member_Ok in Hp. subst p.
  rewrite Hoff in Hb. injection Hb as <-. now injection Hr as <-.
Qed.

Lemma hist_widget_off d c k label acc r :
  Historical.shouldInclude false (prop (prop c "widgets") k) = false ->
  Historical.hist_widget false d c k label acc = Ok r -> r = acc.
Proof.
  intros Hoff Hr. unfold Historical.hist_widget in Hr.
  apply bind_Ok in Hr as (ws & Hws & Hr). apply member_Ok in Hws. subst ws.
  apply bind_Ok in Hr as (w & Hw & Hr). apply member_Ok in Hw. subst w.
  rewrite Hoff in Hr. now injection Hr as <-.
Qed.

Lemma hist_character_off charsConfig acc char r :
  forallb (fun f => negb (Historical.shouldIncludeStat false f))
          (visited (prop charsConfig "customFields")) = true ->
  Historical.shouldInclude false (prop charsConfig "thoughts") = false ->
  Historical.hist_character false charsConfig acc char = Ok r -> r = acc.
Proof.
  intros Hfields Hthoughts Hr. unfold Historical.hist_character in Hr.
  destruct (negb (truthy char) || negb (truthy (prop char "name")));
    [now injection Hr as <-|].
  apply bind_Ok in Hr as (cf & Hcf & Hr).
  assert (Hempty : cf = "").
  { destruct (truthy (prop char "details") && typeof_object (prop char "details"));
      [|now injection Hcf as <-].
    apply bind_Ok in Hcf as (configured & Hc & Hcf). apply member_Ok in Hc.
    subst configured.
    apply bind_Ok in Hcf as (fields & Hit & Hcf).
    eapply (for_of_invariant (fun s => s = "")); [reflexivity| |exact Hcf].
    intros s x s' Hin -> Hstep.
    assert (Hno : Historical.shouldIncludeStat false x = false).
    { unfold visited in Hfields. rewrite Hit in Hfields.
      rewrite forallb_forall in Hfields. apply negb_true_iff. now apply Hfields. }
    rewrite Hno in Hstep. now injection Hstep as <-. }
  subst cf.
  apply bind_Ok in Hr as (tc & Htc & Hr). apply member_Ok in Htc. subst tc.
  rewrite Hthoughts in Hr. simpl in Hr. now injection Hr as <-.
Qed.

Lemma formatHistorical_silent (trackerData trackerConfig : jsval)
    (userName : string) :
  nothing_persists trackerConfig = true ->
  trim "" = "" ->
  Historical.formatHistoricalTrackerData trackerData trackerConfig userName false
  = Ok "".
Proof.
  unfold nothing_persists. intros Hoff Htrim.
  repeat (apply andb_true_iff in Hoff as [Hoff ?]).
  repeat match goal with
         | Hn : negb _ = true |- _ => apply negb_true_iff in Hn
         end.
  destruct (formatHistoricalTrackerData_returns trackerData trackerConfig userName
              false) as [text Htext].
  rewrite Htext. f_equal.
  unfold Historical.formatHistoricalTrackerData in Htext.
  destruct (negb (truthy trackerData) || negb (truthy trackerConfig));
    [now injection Htext as <-|].
  destruct (Historical.hist_userStats false trackerData trackerConfig userName "")
    as [f1| |] eqn:Hus; simpl in Htext; [|now injection Htext as <-|discriminate].
  destruct (Historical.hist_infoBox false trackerData trackerConfig f1)
    as [f2| |] eqn:Hib; simpl in Htext; [|now injection Htext as <-|discriminate].
  destruct (Historical.hist_characters false trackerData trackerConfig f2)
    as [f3| |] eqn:Hch; simpl in Htext; [|now injection Htext as <-|discriminate].
  injection Htext as <-.
  assert (E1 : f1 = "").
  { unfold Historical.hist_userStats in Hus.
    destruct (truthy (prop trackerData "userStats")); [|now injection Hus as <-].
    apply bind_Ok in Hus as (d & _ & Hus).
    apply bind_Ok in Hus as (s1 & Hs1 & Hus). apply hist_custom_stats_off in Hs1; [|assumption].
    subst s1.
    apply bind_Ok in Hus as (s2 & Hs2 & Hus). apply hist_status_off in Hs2; [|assumption].
    subst s2.
    apply bind_Ok in Hus as (s3 & Hs3 & Hus). apply hist_skills_off in Hs3; [|assumption].
    subst s3.
    apply bind_Ok in Hus as (s4 & Hs4 & Hus). apply hist_inventory_off in Hs4; [|assumption].
    subst s4.
    apply bind_Ok in Hus as (s5 & Hs5 & Hus). apply hist_quests_off in Hs5; [|assumption].
    subst s5. now injection Hus as <-. }
  subst f1.
  assert (E2 : f2 = "").
  { unfold Historical.hist_infoBox in Hib.
    destruct (truthy (prop trackerData "infoBox")); [|now injection Hib as <-].
    apply bind_Ok in Hib as (d & _ & Hib).
    match goal with
    | Hw : forallb _ history_widgets = true |- _ =>
        simpl in Hw; repeat (apply andb_true_iff in Hw as [? Hw]);
        repeat match goal with
               | Hn : negb _ = true |- _ => apply negb_true_iff in Hn
               end
    end.
    repeat (apply bind_Ok in Hib as (? & Hw & Hib);
            apply hist_widget_off in Hw; [|assumption]; subst).
    now injection Hib as <-. }
  subst f2.
  assert (E3 : f3 = "").
  { unfold Historical.hist_characters in Hch.
    destruct (truthy (prop trackerData "characterThoughts")); [|now injection Hch as <-].
    apply bind_Ok in Hch as (d & _ & Hch).
    apply bind_Ok in Hch as (cs & _ & Hch).
    apply bind_Ok in Hch as (chars & _ & Hch).
    eapply (for_of_invariant (fun s => s = "")); [reflexivity| |exact Hch].
    intros s x s' _ -> Hstep.
    eapply hist_character_off; [| |exact Hstep]; assumption. }
  subst f3. exact Htrim.
Qed.


End NothingPersists.


Lemma preceding_user_before msgs i n j :
  preceding_user msgs i n = Ok j ->
  j = i \/ ((j < n)%nat /\ is_user_turn (message_at msgs j) = true).
Proof.
  induction n as [|n IH]; simpl; intros Hp.
  - left. now injection Hp as <-.
  - apply bind_Ok in Hp as (u & Hu & Hp). apply member_Ok in Hu. subst u.
    destruct (truthy (prop (message_at msgs n) "is_user")
              && negb (truthy (prop (message_at msgs n) "is_system"))) eqn:Hn.
    + injection Hp as <-. right. split; [lia|exact Hn].
    + destruct (IH Hp) as [->|[Hj Hu]]; [now left|]. right. split; [lia|exact Hu].
Qed.

Section StepCases.
Context `{Builtins}.

(** What one iteration of the loop does: nothing, or it appends the
    wrapped context of an assistant message, other than the last one, to
    the entry of its target. *)
Lemma injection_step_cases msgs cfg hp name position last m i m' :
  injection_step msgs cfg hp name position last m i = Ok m' ->
  m' = m
  \/ exists t preamble context trackerData,
       to_string (context_preamble hp) = Ok preamble
       /\ nonempty context = true
       /\ Historical.formatHistoricalTrackerData trackerData cfg name
            (strict_eq (prop hp "sendAllEnabledOnRefresh") (JBool true))
          = Ok context
       /\ m' = <[Z.of_nat t := default "" (m !! Z.of_nat t)
                               +:+ nl +:+ preamble +:+ nl +:+ context]> m
       /\ is_assistant (message_at msgs i) = true
       /\ Z.of_nat i <> last
       /\ (if strict_eq position (JStr "user_message_end")
           then (t < i)%nat /\ is_user_turn (message_at msgs t) = true
           else t = i).
Proof.
  unfold injection_step. intros Hs.
  apply bind_Ok in Hs as (u & Hu & Hs). apply member_Ok in Hu. subst u.
  destruct (truthy (prop (message_at msgs i) "is_user")
            || truthy (prop (message_at msgs i) "is_system")) eqn:Hrole;
    [left; now injection Hs as <-|].
  destruct (Z.of_nat i =? last) eqn:Hlast; [left; now injection Hs as <-|].
  apply bind_Ok in Hs as (swipeData & _ & Hs).
  destruct (negb (truthy swipeData)); [left; now injection Hs as <-|].
  apply bind_Ok in Hs as (trackerData & _ & Hs).
  destruct (negb (truthy trackerData)); [left; now injection Hs as <-|].
  apply bind_Ok in Hs as (context & Hctx & Hs).
  destruct (negb (nonempty context)) eqn:Hne; [left; now injection Hs as <-|].
  apply bind_Ok in Hs as (preamble & Hpre & Hs).
  apply bind_Ok in Hs as (t & Ht & Hs).
  destruct (strict_eq position (JStr "user_message_end") && (t =? i)%nat) eqn:Hskip;
    [left; now injection Hs as <-|].
  right. exists t, preamble, context, trackerData.
  split; [exact Hpre|]. split; [now apply negb_false_iff in Hne|].
  split; [exact Hctx|]. split.
  { injection Hs as <-. destruct (m !! Z.of_nat t); reflexivity. }
  split.
  { unfold is_assistant. apply orb_false_iff in Hrole as [-> ->]. reflexivity. }
  split; [now apply Z.eqb_neq|].
  destruct (strict_eq position (JStr "user_message_end")); simpl in Hskip.
  - apply preceding_user_before in Ht as [->|Ht]; [|exact Ht].
    rewrite Nat.eqb_refl in Hskip. discriminate.
  - now injection Ht as <-.
Qed.

End StepCases.

Section MapInvariants.
Context `{Builtins}.

(** A property of the empty map that every iteration keeps holds of the
    map that is built. *)
Lemma contextInjectionMap_invariant (P : gmap Z string -> Prop) msgs cfg hp name m :
  P ∅ ->
  (forall last s i s',
     lastAssistantIdx msgs = Ok last -> (i < length msgs)%nat -> P s ->
     injection_step msgs cfg hp name (injection_position hp) last s i = Ok s' ->
     P s') ->
  contextInjectionMap msgs cfg hp name = Ok m -> P m.
Proof.
  intros Hempty Hstep Hm. unfold contextInjectionMap in Hm.
  destruct (truthy (opt_member hp "enabled")); [|now injection Hm as <-].
  apply bind_Ok in Hm as (last & Hlast & Hm).
  eapply (for_of_invariant P); [exact Hempty| |exact Hm].
  intros s i s' Hin Hs Hi. apply (Hstep last s i s'); auto.
  apply in_seq in Hin. lia.
Qed.

Lemma lastAssistantIdx_from_found msgs n last :
  lastAssistantIdx_from msgs n = Ok last ->
  (forall i, (i < n)%nat -> is_assistant (message_at msgs i) = false)
  \/ exists j, (j < n)%nat /\ last = Z.of_nat j
               /\ is_assistant (message_at msgs j) = true.
Proof.
  induction n as [|n IH]; simpl; intros Hl; [left; intros; lia|].
  apply bind_Ok in Hl as (u & Hu & Hl). apply member_Ok in Hu. subst u.
  destruct (negb (truthy (prop (message_at msgs n) "is_user"))
            && negb (truthy (prop (message_at msgs n) "is_system"))) eqn:Hn.
  - injection Hl as <-. right. exists n. auto.
  - destruct (IH Hl) as [Hnone|(j & Hj & -> & Ha)].
    + left. intros i Hi. destruct (Nat.eq_dec i n) as [->|]; [exact Hn|].
      apply Hnone. lia.
    + right. exists j. split; [lia|auto].
Qed.

End MapInvariants.

Lemma map_keys_are_turns `{Builtins} (recentMessages : list jsval)
    (trackerConfig historyPersistence : jsval) (userName : string)
    (m : gmap Z string) (k : Z) (text : string) :
  contextInjectionMap recentMessages trackerConfig historyPersistence userName
  = Ok m ->
  m !! k = Some text ->
  exists t, k = Z.of_nat t /\ (t < length recentMessages)%nat
    /\ (if strict_eq (injection_position historyPersistence) (JStr "user_message_end")
        then is_user_turn (message_at recentMessages t) = true
        else is_assistant (message_at recentMessages t) = true).
Proof.
  intros Hm. revert k text.
  eapply (contextInjectionMap_invariant
            (fun m => forall k text, m !! k = Some text ->
               exists t, k = Z.of_nat t /\ (t < length recentMessages)%nat
                 /\ (if strict_eq (injection_position historyPersistence)
                                  (JStr "user_message_end")
                     then is_user_turn (message_at recentMessages t) = true
                     else is_assistant (message_at recentMessages t) = true)));
    [| |exact Hm].
  - intros k text Hk. rewrite lookup_empty in Hk. discriminate.
  - intros last s i s' _ Hi Hs Hstep k text Hk.
    apply injection_step_cases in Hstep
      as [->|(t & p & c & d & _ & _ & _ & -> & Ha & _ & Ht)]; [eauto|].
    destruct (decide (Z.of_nat t = k)) as [<-|Hne];
      [|rewrite lookup_insert_ne in Hk by assumption; eauto].
    exists t. split; [reflexivity|].
    destruct (strict_eq (injection_position historyPersistence)
                        (JStr "user_message_end")).
    + destruct Ht as [Hlt Hu]. split; [lia|exact Hu].
    + subst t. split; [exact Hi|exact Ha].
Qed.

(** X5.  Every entry of the injection map sits at the index of a turn of
    the window: under the anchor user_message_end a user-authored turn,
    under any other anchor a model-authored turn. *)
Theorem injection_keys_are_turns `{Builtins} (recentMessages : list jsval)
    (trackerConfig historyPersistence : jsval) (userName : string)
    (m : gmap Z string) (k : Z) (text : string) :
  contextInjectionMap recentMessages trackerConfig historyPersistence userName
  = Ok m ->
  m !! k = Some text ->
  exists t, k = Z.of_nat t /\ (t < length recentMessages)%nat
    /\ (if strict_eq (injection_position historyPersistence) (JStr "user_message_end")
        then is_user_turn (message_at recentMessages t) = true
        else is_assistant (message_at recentMessages t) = true).
Proof. apply map_keys_are_turns. Qed.

Lemma injection_keys_are_turns_witness :
  exists t, 0 = Z.of_nat t /\ (t < length shifted_window)%nat
    /\ is_user_turn (message_at shifted_window t) = true.
Proof.
  apply (injection_keys_are_turns shifted_window history_config
           (persistence "user_message_end") "Alice"
           {[ 0 := nl +:+ "Context for that moment:" +:+ nl
                   +:+ "Alice: Skills: Stealth, Archery" +:+ nl
                   +:+ "Location: Forest Clearing" ]} 0
           (nl +:+ "Context for that moment:" +:+ nl
            +:+ "Alice: Skills: Stealth, Archery" +:+ nl
            +:+ "Location: Forest Clearing")); reflexivity.
Defined.

(** The entries of the map and the preamble line. *)
Lemma map_entries_begin_with_preamble `{Builtins}
    (recentMessages : list jsval) (trackerConfig historyPersistence : jsval)
    (userName : string) (m : gmap Z string) (k : Z) (text preamble : string) :
  contextInjectionMap recentMessages trackerConfig historyPersistence userName
  = Ok m ->
  to_string (context_preamble historyPersistence) = Ok preamble ->
  m !! k = Some text ->
  exists rest, text = nl +:+ preamble +:+ nl +:+ rest.
Proof.
  intros Hm Hpre. revert k text.
  eapply (contextInjectionMap_invariant
            (fun m => forall k text, m !! k = Some text ->
               exists rest, text = nl +:+ preamble +:+ nl +:+ rest));
    [| |exact Hm].
  - intros k text Hk. rewrite lookup_empty in Hk. discriminate.
  - intros last s i s' _ Hi Hs Hstep k text Hk.
    apply injection_step_cases in Hstep
      as [->|(t & p & c & d & Hp & _ & _ & -> & _)]; [eauto|].
    rewrite Hpre in Hp. injection Hp as <-.
    destruct (decide (Z.of_nat t = k)) as [<-|Hne];
      [|rewrite lookup_insert_ne in Hk by assumption; eauto].
    rewrite lookup_insert_eq in Hk. injection Hk as <-.
    destruct (s !! Z.of_nat t) as [old|] eqn:Hold; simpl.
    + destruct (Hs _ _ Hold) as [rest ->].
      exists (rest +:+ nl +:+ preamble +:+ nl +:+ c).
      now rewrite !append_assoc.
    + now exists c.
Qed.

(** X6.  Every entry of the injection map begins with a newline, the
    preamble line and a newline: nothing precedes the first context of a
    turn. *)
Theorem injection_entries_begin_with_preamble `{Builtins}
    (recentMessages : list jsval) (trackerConfig historyPersistence : jsval)
    (userName : string) (m : gmap Z string) (k : Z) (text preamble : string) :
  contextInjectionMap recentMessages trackerConfig historyPersistence userName
  = Ok m ->
  to_string (context_preamble historyPersistence) = Ok preamble ->
  m !! k = Some text ->
  exists rest, text = nl +:+ preamble +:+ nl +:+ rest.
Proof. apply map_entries_begin_with_preamble. Qed.

Lemma injection_entries_begin_with_preamble_witness :
  exists rest,
    nl +:+ "Context for that moment:" +:+ nl
    +:+ "Alice: Skills: Stealth, Archery" +:+ nl +:+ "Location: Forest Clearing"
    = nl +:+ "Context for that moment:" +:+ nl +:+ rest.
Proof.
  apply (injection_entries_begin_with_preamble shifted_window history_config
           (persistence "assistant_message_end") "Alice" shifted_map 1);
    reflexivity.
Defined.

(** X7.  One iteration of the loop never overwrites: an entry that was in
    the map is still there afterwards, with its text kept as a prefix. *)
Theorem injection_step_appends `{Builtins} (recentMessages : list jsval)
    (trackerConfig historyPersistence : jsval) (userName : string)
    (position : jsval) (last : Z) (m m' : gmap Z string) (i : nat)
    (k : Z) (text : string) :
  injection_step recentMessages trackerConfig historyPersistence userName
    position last m i = Ok m' ->
  m !! k = Some text ->
  exists suffix, m' !! k = Some (text +:+ suffix).
Proof.
  intros Hstep Hk.
  apply injection_step_cases in Hstep
    as [->|(t & p & c & d & _ & _ & _ & -> & _)].
  - exists "". now rewrite append_empty_r.
  - destruct (decide (Z.of_nat t = k)) as [<-|Hne].
    + rewrite lookup_insert_eq, Hk. simpl. eauto.
    + rewrite lookup_insert_ne by assumption. exists "".
      now rewrite append_empty_r.
Qed.

Lemma injection_step_appends_witness :
  exists suffix,
    ({[ 0 := context_S +:+ context_S ]} : gmap Z string) !! 0
    = Some (context_S +:+ suffix).
Proof.
  apply (injection_step_appends double_window history_config
           (persistence "user_message_end") "Alice" (JStr "user_message_end") 3
           {[ 0 := context_S ]} {[ 0 := context_S +:+ context_S ]} 2 0 context_S);
    reflexivity.
Defined.

(** Two contributions to one user turn are concatenated in scan order. *)
Lemma double_window_accumulates :
  contextInjectionMap double_window history_config
    (persistence "user_message_end") "Alice"
  = Ok {[ 0 := context_S +:+ context_S ]}.
Proof. reflexivity. Qed.

Lemma map_without_entries (m : gmap Z string) :
  (forall k text, m !! k = Some text -> False) -> m = ∅.
Proof.
  intros Hnone. apply map_eq. intros k. rewrite lookup_empty.
  destruct (m !! k) eqn:Hk; [exfalso; eauto|reflexivity].
Qed.

(** X8.  Under the anchor user_message_end a window without any user turn
    gets no history context: when the map is built it is empty, there is
    no fallback to the model turn itself. *)
Theorem no_user_turn_no_injection `{Builtins} (recentMessages : list jsval)
    (trackerConfig historyPersistence : jsval) (userName : string) :
  returns (contextInjectionMap recentMessages trackerConfig historyPersistence
             userName) ->
  injection_position historyPersistence = JStr "user_message_end" ->
  (forall t, (t < length recentMessages)%nat ->
     is_user_turn (message_at recentMessages t) = false) ->
  contextInjectionMap recentMessages trackerConfig historyPersistence userName
  = Ok ∅.
Proof.
  intros [m Hm] Hpos Hnone. rewrite Hm. f_equal.
  apply map_without_entries. intros k text Hk.
  destruct (map_keys_are_turns recentMessages trackerConfig
              historyPersistence userName m k text Hm Hk) as (t & _ & Ht & Hrole).
  rewrite Hpos in Hrole. simpl in Hrole. rewrite (Hnone t Ht) in Hrole.
  discriminate.
Qed.

Lemma no_user_turn_no_injection_witness :
  contextInjectionMap model_only_window history_config
    (persistence "user_message_end") "Alice" = Ok ∅.
Proof.
  apply no_user_turn_no_injection.
  - eexists. reflexivity.
  - reflexivity.
  - intros t Ht. simpl in Ht.
    destruct t as [|[|[|t]]]; [reflexivity..|lia].
Defined.

(** With the other anchor the same window has entries: the exclusion is
    the anchor's, not the window's. *)
Lemma model_only_window_assistant_anchor :
  contextInjectionMap model_only_window history_config
    (persistence "assistant_message_end") "Alice"
  = Ok {[ 0 := context_S; 1 := context_S ]}.
Proof. reflexivity. Qed.

(** X9.  When nothing of the tracker configuration persists in history
    and the send-all-enabled switch is not on, the injection map that is
    built is empty, for every window and anchor. *)
Theorem nothing_persists_no_injection `{Builtins} (recentMessages : list jsval)
    (trackerConfig historyPersistence : jsval) (userName : string) :
  returns (contextInjectionMap recentMessages trackerConfig historyPersistence
             userName) ->
  nothing_persists trackerConfig = true ->
  strict_eq (prop historyPersistence "sendAllEnabledOnRefresh") (JBool true) = false ->
  trim "" = "" ->
  contextInjectionMap recentMessages trackerConfig historyPersistence userName
  = Ok ∅.
Proof.
  intros [m Hm] Hoff Hall Htrim. rewrite Hm. f_equal.
  eapply (contextInjectionMap_invariant (fun m => m = ∅)); [reflexivity| |exact Hm].
  intros last s i s' _ _ -> Hstep.
  apply injection_step_cases in Hstep
    as [->|(t & p & c & d & _ & Hne & Hctx & _)]; [reflexivity|].
  rewrite Hall in Hctx.
  rewrite (formatHistorical_silent d trackerConfig userName Hoff Htrim) in Hctx.
  injection Hctx as <-. discriminate.
Qed.

Lemma nothing_persists_no_injection_witness :
  contextInjectionMap shifted_window silent_config
    (persistence "assistant_message_end") "Alice" = Ok ∅.
Proof.
  apply nothing_persists_no_injection; try reflexivity.
  eexists. reflexivity.
Defined.

(** X10.  A window with a single model-authored turn gets no history
    context under any anchor: that turn is the current one, and only
    earlier model turns contribute. *)
Theorem single_model_turn_no_injection `{Builtins} (recentMessages : list jsval)
    (trackerConfig historyPersistence : jsval) (userName : string) :
  returns (contextInjectionMap recentMessages trackerConfig historyPersistence
             userName) ->
  (forall i j, (i < length recentMessages)%nat -> (j < length recentMessages)%nat ->
     is_assistant (message_at recentMessages i) = true ->
     is_assistant (message_at recentMessages j) = true -> i = j) ->
  contextInjectionMap recentMessages trackerConfig historyPersistence userName
  = Ok ∅.
Proof.
  intros [m Hm] Hone. rewrite Hm. f_equal.
  eapply (contextInjectionMap_invariant (fun m => m = ∅)); [reflexivity| |exact Hm].
  intros last s i s' Hlast Hi -> Hstep.
  apply injection_step_cases in Hstep
    as [->|(t & p & c & d & _ & _ & _ & _ & Ha & Hne & _)]; [reflexivity|].
  exfalso. unfold lastAssistantIdx in Hlast.
  apply lastAssistantIdx_from_found in Hlast as [Hnone|(j & Hj & -> & Haj)].
  - rewrite (Hnone i Hi) in Ha. discriminate.
  - apply Hne. f_equal. now apply Hone.
Qed.

Lemma single_model_turn_no_injection_witness :
  contextInjectionMap
    [user_turn "Hi"; user_turn "Go on"; model_turn_with "We walk" snapshot_S]
    history_config (persistence "user_message_end") "Alice" = Ok ∅.
Proof.
  apply single_model_turn_no_injection.
  - eexists. reflexivity.
  - intros i j Hi Hj. simpl in Hi, Hj.
    destruct i as [|[|[|i]]]; destruct j as [|[|[|j]]];
      try lia; try discriminate; reflexivity.
Defined.

(** *** The window and the assembly of the prompt *)

Lemma slice_last_suffix {A} (depth : Z) (chat : list A) :
  exists older, chat = older ++ slice_last depth chat.
Proof.
  unfold slice_last. eexists. symmetry. apply take_drop.
Qed.

Lemma slice_last_length {A} (depth : Z) (chat : list A) :
  0 <= depth ->
  length (slice_last depth chat)
  = if depth =? 0 then length chat else Nat.min (Z.to_nat depth) (length chat).
Proof.
  intros Hd. unfold slice_last. rewrite length_drop.
  destruct (Z.eqb_spec depth 0) as [->|Hne].
  - simpl. lia.
  - destruct (Z.ltb_spec (- depth) 0); lia.
Qed.

Lemma mapM_length {A B} (f : A -> outcome B) l r :
  mapM f l = Ok r -> length r = length l.
Proof.
  revert r. induction l as [|x l IH]; simpl; intros r Hr.
  - now injection Hr as <-.
  - apply bind_Ok in Hr as (y & _ & Hr). apply bind_Ok in Hr as (ys & Hys & Hr).
    injection Hr as <-. simpl. f_equal. auto.
Qed.

Lemma mapM_seq_lookup {B} (f : nat -> outcome B) a n r i :
  mapM f (seq a n) = Ok r -> (i < n)%nat ->
  exists y, f (a + i)%nat = Ok y /\ r !! i = Some y.
Proof.
  revert a r i. induction n as [|n IH]; simpl; intros a r i Hr Hi; [lia|].
  apply bind_Ok in Hr as (y & Hy & Hr). apply bind_Ok in Hr as (ys & Hys & Hr).
  injection Hr as <-. destruct i as [|i].
  - exists y. now rewrite Nat.add_0_r.
  - destruct (IH _ _ i Hys) as (z & Hz & Hl); [lia|].
    exists z. split; [|exact Hl]. now rewrite <- Nat.add_succ_comm.
Qed.

Lemma message_at_lookup (recentMessages : list jsval) i message :
  recentMessages !! i = Some message -> message_at recentMessages i = message.
Proof.
  intros Hl. unfold message_at. apply nth_lookup_Some with (d := JUndefined) in Hl.
  exact Hl.
Qed.

Section SeparateUpdateFacts.
Context `{Builtins}.

(** What one message of the history is. *)
Lemma history_message_Ok (m : gmap Z string) i message r :
  history_message m i message = Ok r ->
  exists content,
    r = JObj [("role", JStr (role_of message)); ("content", content)]
    /\ match m !! Z.of_nat i with
       | Some context =>
           exists text, to_string (prop message "mes") = Ok text
                        /\ content = JStr (text +:+ context)
       | None => content = prop message "mes"
       end.
Proof.
  unfold history_message. intros Hr.
  apply bind_Ok in Hr as (mes & Hmes & Hr). apply member_Ok in Hmes. subst mes.
  apply bind_Ok in Hr as (content & Hc & Hr). injection Hr as <-.
  exists content. split; [reflexivity|].
  destruct (m !! Z.of_nat i) as [context|].
  - apply bind_Ok in Hc as (text & Ht & Hc). injection Hc as <-. eauto.
  - now injection Hc as <-.
Qed.

(** The prompt is the system message, the history and the instruction. *)
Lemma generateSeparateUpdatePrompt_Ok characterInfo rpgPromptText
    extensionSettings updateDepth chat userName messages :
  generateSeparateUpdatePrompt characterInfo rpgPromptText extensionSettings
    updateDepth chat userName = Ok messages ->
  exists m history,
    contextInjectionMap (slice_last updateDepth chat)
      (prop extensionSettings "trackerConfig")
      (prop extensionSettings "historyPersistence") userName = Ok m
    /\ history_messages m (slice_last updateDepth chat) = Ok history
    /\ messages
       = JObj [("role", JStr "system");
               ("content", JStr (systemMessage characterInfo))]
         :: history
         ++ [JObj [("role", JStr "user");
                   ("content", JStr (instructionMessage rpgPromptText))]].
Proof.
  unfold generateSeparateUpdatePrompt. intros Hg.
  apply bind_Ok in Hg as (m & Hm & Hg). apply bind_Ok in Hg as (h & Hh & Hg).
  injection Hg as <-. eauto.
Qed.

(** The message of the prompt that stands for turn [i] of the window. *)
Lemma prompt_turn characterInfo rpgPromptText extensionSettings updateDepth
    chat userName messages i message :
  generateSeparateUpdatePrompt characterInfo rpgPromptText extensionSettings
    updateDepth chat userName = Ok messages ->
  slice_last updateDepth chat !! i = Some message ->
  exists m content,
    contextInjectionMap (slice_last updateDepth chat)
      (prop extensionSettings "trackerConfig")
      (prop extensionSettings "historyPersistence") userName = Ok m
    /\ messages !! S i
       = Some (JObj [("role", JStr (role_of message)); ("content", content)])
    /\ match m !! Z.of_nat i with
       | Some context =>
           exists text, to_string (prop message "mes") = Ok text
                        /\ content = JStr (text +:+ context)
       | None => content = prop message "mes"
       end.
Proof.
  intros Hg Hi.
  apply generateSeparateUpdatePrompt_Ok in Hg as (m & history & Hm & Hh & ->).
  unfold history_messages in Hh.
  pose proof (lookup_lt_Some _ _ _ Hi) as Hlt.
  destruct (mapM_seq_lookup _ _ _ _ i Hh Hlt) as (r & Hr & Hl).
  simpl in Hr. rewrite (message_at_lookup _ _ _ Hi) in Hr.
  apply history_message_Ok in Hr as (content & -> & Hc).
  exists m, content. split; [exact Hm|]. split; [|exact Hc].
  simpl. rewrite lookup_app_l; [exact Hl|].
  apply mapM_length in Hh. rewrite Hh, length_seq. exact Hlt.
Qed.

(** The map has no entry at the last model-authored turn. *)
Lemma map_skips_last_assistant (recentMessages : list jsval)
    (trackerConfig historyPersistence : jsval) (userName : string)
    (m : gmap Z string) (i : nat) :
  contextInjectionMap recentMessages trackerConfig historyPersistence userName
  = Ok m ->
  is_last_assistant recentMessages i ->
  m !! Z.of_nat i = None.
Proof.
  intros Hm (Hi & Ha & Hlater).
  destruct (m !! Z.of_nat i) as [text|] eqn:Hk; [exfalso|reflexivity].
  revert text Hk.
  eapply (contextInjectionMap_invariant
            (fun m => forall text, m !! Z.of_nat i = Some text -> False));
    [| |exact Hm].
  - intros text Hk. rewrite lookup_empty in Hk. discriminate.
  - intros last s x s' Hlast Hx Hs Hstep text Hk.
    assert (Hidx : last = Z.of_nat i).
    { unfold lastAssistantIdx in Hlast.
      eapply lastAssistantIdx_from_spec; eauto. }
    subst last.
    apply injection_step_cases in Hstep
      as [->|(t & p & c & d & _ & _ & _ & -> & Hax & Hne & Hpos)]; [eauto|].
    destruct (decide (Z.of_nat t = Z.of_nat i)) as [Heq|Hneq];
      [|rewrite lookup_insert_ne in Hk by assumption; eauto].
    apply Nat2Z.inj in Heq. subst t.
    destruct (strict_eq _ _).
    + destruct Hpos as [_ Hu]. unfold is_user_turn in Hu. unfold is_assistant in Ha.
      destruct (truthy (prop (message_at recentMessages i) "is_user"));
        simpl in *; congruence.
    + subst x. congruence.
Qed.

End SeparateUpdateFacts.

Lemma long_chat_prompt :
  exists first last,
    generateSeparateUpdatePrompt "" "Stats" update_settings 4 long_chat "Alice"
    = Ok [first;
          JObj [("role", JStr "user"); ("content", JStr "Hi")];
          JObj [("role", JStr "assistant");
                ("content", JStr ("Hello" +:+ context_S))];
          JObj [("role", JStr "user"); ("content", JStr "Go on")];
          JObj [("role", JStr "assistant"); ("content", JStr "We walk")];
          last].
Proof. do 2 eexists. reflexivity. Qed.

(** X11.  The separate update prompt is the system message, one message
    per turn of the window in the window's order, and the instruction.
    A turn's message has the role user when the turn's [is_user] is
    truthy and assistant otherwise, system turns included; its content
    is the turn's [mes] itself, or the text of [mes] followed by a
    newline, the preamble line and a context. *)
Theorem prompt_follows_window `{Builtins} (characterInfo rpgPromptText : string)
    (extensionSettings : jsval) (updateDepth : Z) (chat : list jsval)
    (userName : string) (messages : list jsval) (preamble : string) :
  generateSeparateUpdatePrompt characterInfo rpgPromptText extensionSettings
    updateDepth chat userName = Ok messages ->
  to_string (context_preamble (prop extensionSettings "historyPersistence"))
  = Ok preamble ->
  length messages = (length (slice_last updateDepth chat) + 2)%nat
  /\ messages !! 0%nat
     = Some (JObj [("role", JStr "system");
                   ("content", JStr (systemMessage characterInfo))])
  /\ messages !! S (length (slice_last updateDepth chat))
     = Some (JObj [("role", JStr "user");
                   ("content", JStr (instructionMessage rpgPromptText))])
  /\ forall i message,
       slice_last updateDepth chat !! i = Some message ->
       exists content,
         messages !! S i
         = Some (JObj [("role", JStr (role_of message)); ("content", content)])
         /\ (content = prop message "mes"
             \/ exists text context,
                  to_string (prop message "mes") = Ok text
                  /\ content
                     = JStr (text +:+ nl +:+ preamble +:+ nl +:+ context)).
Proof.
  intros Hg Hpre. split; [|split; [|split]].
  - apply generateSeparateUpdatePrompt_Ok in Hg as (m & history & _ & Hh & ->).
    apply mapM_length in Hh. rewrite length_seq in Hh.
    simpl. rewrite length_app, Hh. simpl. lia.
  - apply generateSeparateUpdatePrompt_Ok in Hg as (m & history & _ & _ & ->).
    reflexivity.
  - apply generateSeparateUpdatePrompt_Ok in Hg as (m & history & _ & Hh & ->).
    apply mapM_length in Hh. rewrite length_seq in Hh.
    simpl. rewrite lookup_app_r by lia. now rewrite Hh, Nat.sub_diag.
  - intros i message Hi.
    destruct (prompt_turn _ _ _ _ _ _ _ _ _ Hg Hi) as (m & content & Hm & Hl & Hc).
    exists content. split; [exact Hl|].
    destruct (m !! Z.of_nat i) as [context|] eqn:Hk; [right|now left].
    destruct Hc as (text & Ht & ->).
    destruct (map_entries_begin_with_preamble _ _ _ _ _ _ _ _ Hm Hpre Hk)
      as (rest & ->).
    exists text, rest. split; [exact Ht|]. reflexivity.
Qed.

Lemma prompt_follows_window_witness :
  exists content,
    content = JStr "Hello"
    \/ exists text context,
         to_string (JStr "Hello") = Ok text
         /\ content
            = JStr (text +:+ nl +:+ "Context for that moment:" +:+ nl +:+ context).
Proof.
  destruct long_chat_prompt as (first & last & Hg).
  destruct (prompt_follows_window "" "Stats" update_settings 4 long_chat "Alice"
              _ "Context for that moment:" Hg eq_refl) as (_ & _ & _ & Hturn).
  destruct (Hturn 1%nat (model_turn_with "Hello" snapshot_S) eq_refl)
    as (content & _ & Hc).
  exists content. exact Hc.
Defined.

(** X12.  The window of the update prompt is the end of the chat: with a
    positive [updateDepth] the last [updateDepth] turns, or all of them
    when the chat is shorter; with [updateDepth] 0 the whole chat, not an
    empty window. *)
Theorem update_window_is_chat_end (updateDepth : Z) (chat : list jsval) :
  0 <= updateDepth ->
  (exists older, chat = older ++ slice_last updateDepth chat)
  /\ length (slice_last updateDepth chat)
     = if updateDepth =? 0 then length chat
       else Nat.min (Z.to_nat updateDepth) (length chat).
Proof.
  intros Hd. split; [apply slice_last_suffix|now apply slice_last_length].
Qed.

Lemma update_window_is_chat_end_witness :
  (exists older, long_chat = older ++ slice_last 0 long_chat)
  /\ length (slice_last 0 long_chat) = 6%nat.
Proof. apply (update_window_is_chat_end 0 long_chat). lia. Defined.

(** X13.  The current turn goes out as it is: the message of the prompt
    that stands for the last model-authored turn of the window has the
    role assistant and the turn's [mes] as its content, whatever the
    history settings and the snapshots are. *)
Theorem current_turn_sent_verbatim `{Builtins} (characterInfo rpgPromptText : string)
    (extensionSettings : jsval) (updateDepth : Z) (chat : list jsval)
    (userName : string) (messages : list jsval) (i : nat) :
  generateSeparateUpdatePrompt characterInfo rpgPromptText extensionSettings
    updateDepth chat userName = Ok messages ->
  is_last_assistant (slice_last updateDepth chat) i ->
  messages !! S i
  = Some (JObj [("role", JStr "assistant");
                ("content",
                 prop (message_at (slice_last updateDepth chat) i) "mes")]).
Proof.
  intros Hg Hlast.
  assert (Hi : slice_last updateDepth chat !! i
               = Some (message_at (slice_last updateDepth chat) i)).
  { destruct (lookup_lt_is_Some_2 (slice_last updateDepth chat) i) as [x Hx];
      [apply Hlast|].
    now rewrite (message_at_lookup _ _ _ Hx). }
  destruct (prompt_turn _ _ _ _ _ _ _ _ _ Hg Hi) as (m & content & Hm & Hl & Hc).
  rewrite (map_skips_last_assistant _ _ _ _ _ _ Hm Hlast) in Hc. subst content.
  rewrite Hl. do 4 f_equal. unfold role_of.
  destruct Hlast as (_ & Ha & _). unfold is_assistant in Ha.
  destruct (truthy (prop _ "is_user")); [discriminate|reflexivity].
Qed.

Lemma current_turn_sent_verbatim_witness :
  exists messages,
    generateSeparateUpdatePrompt "" "Stats" update_settings 0
      [user_turn "Hi"; model_turn_with "We walk" snapshot_S; user_turn "On"]
      "Alice" = Ok messages
    /\ messages !! 2%nat
       = Some (JObj [("role", JStr "assistant"); ("content", JStr "We walk")]).
Proof.
  eexists. split; [reflexivity|].
  apply (current_turn_sent_verbatim "" "Stats" update_settings 0
           [user_turn "Hi"; model_turn_with "We walk" snapshot_S; user_turn "On"]
           "Alice" _ 1); [reflexivity|].
  split; [simpl; lia|]. split; [reflexivity|].
  intros j Hj. simpl in Hj. assert (j = 2%nat) as -> by lia. reflexivity.
Defined.

Lemma history_messages_plain `{Builtins} (earlier turns : list jsval) :
  Forall (fun message => is_nullish message = false) turns ->
  mapM (fun i => history_message ∅ i (message_at (earlier ++ turns) i))
       (seq (length earlier) (length turns))
  = Ok (map (fun message => JObj [("role", JStr (role_of message));
                                  ("content", prop message "mes")]) turns).
Proof.
  revert earlier. induction turns as [|message turns IH]; intros earlier Hall;
    [reflexivity|].
  apply Forall_cons in Hall as [Hm Hall]. simpl.
  assert (Hat : message_at (earlier ++ message :: turns) (length earlier) = message).
  { apply message_at_lookup. now rewrite lookup_app_r, Nat.sub_diag by lia. }
  rewrite Hat. unfold history_message at 1, member. rewrite Hm. simpl.
  rewrite lookup_empty. simpl.
  specialize (IH (earlier ++ [message]) Hall).
  rewrite length_app, Nat.add_1_r, <- app_assoc in IH. simpl in IH.
  rewrite IH. reflexivity.
Qed.



(** X15.  The anchor decides which side of the dialogue can carry a
    context: under [user_message_end] every turn that is not a user turn,
    and under any other anchor every turn that is not model-authored,
    goes out with its [mes] as the content. *)
Theorem other_side_sent_verbatim `{Builtins} (characterInfo rpgPromptText : string)
    (extensionSettings : jsval) (updateDepth : Z) (chat : list jsval)
    (userName : string) (messages : list jsval) (i : nat) (message : jsval) :
  generateSeparateUpdatePrompt characterInfo rpgPromptText extensionSettings
    updateDepth chat userName = Ok messages ->
  slice_last updateDepth chat !! i = Some message ->
  (if strict_eq (injection_position (prop extensionSettings "historyPersistence"))
                (JStr "user_message_end")
   then is_user_turn message else is_assistant message) = false ->
  messages !! S i
  = Some (JObj [("role", JStr (role_of message));
                ("content", prop message "mes")]).
Proof.
  intros Hg Hi Hside.
  destruct (prompt_turn _ _ _ _ _ _ _ _ _ Hg Hi) as (m & content & Hm & Hl & Hc).
  destruct (m !! Z.of_nat i) as [context|] eqn:Hk; [exfalso|now subst content].
  destruct (map_keys_are_turns _ _ _ _ _ _ _ Hm Hk) as (t & Ht & _ & Hturn).
  apply Nat2Z.inj in Ht. subst t.
  rewrite (message_at_lookup _ _ _ Hi) in Hturn.
  destruct (strict_eq _ _); congruence.
Qed.

Lemma other_side_sent_verbatim_witness :
  exists messages,
    generateSeparateUpdatePrompt "" "Stats" update_settings 4 long_chat "Alice"
    = Ok messages
    /\ messages !! 1%nat
       = Some (JObj [("role", JStr "user"); ("content", JStr "Hi")]).
Proof.
  eexists. split; [reflexivity|].
  apply (other_side_sent_verbatim "" "Stats" update_settings 4 long_chat "Alice"
           _ 0 (user_turn "Hi")); reflexivity.
Defined.

(** *** The character cards *)

Section CharacterCardFacts.
Context `{Builtins}.

Lemma member_step_listed muted st member :
  member_step (JArr muted) st member
  = if listed muted member
    then card <- member_card (S st.1) member ;; Ok (S st.1, st.2 +:+ card)
    else Ok st.
Proof.
  unfold member_step, listed.
  destruct (truthy member); simpl; [|reflexivity].
  destruct (truthy (prop member "name")); simpl; [|reflexivity].
  destruct (truthy (prop member "avatar")); simpl; [|reflexivity].
  destruct (existsb (strict_eq (prop member "avatar")) muted); reflexivity.
Qed.

(** The loop over the members writes the cards of the listed members,
    numbered in sequence. *)
Lemma member_loop_cards muted members characterIndex characterInfo :
  for_of members (characterIndex, characterInfo) (member_step (JArr muted))
  = (cards <- cards_from characterIndex (List.filter (listed muted) members) ;;
     Ok ((characterIndex + length (List.filter (listed muted) members))%nat,
         characterInfo +:+ cards)).
Proof.
  revert characterIndex characterInfo.
  induction members as [|member members IH]; intros n info; simpl.
  - now rewrite Nat.add_0_r, append_empty_r.
  - rewrite member_step_listed.
    destruct (listed muted member); simpl; [|apply IH].
    destruct (member_card (S n) member) as [card| |]; simpl; try reflexivity.
    rewrite IH. destruct (cards_from (S n) _) as [cards| |]; simpl; try reflexivity.
    now rewrite append_assoc, Nat.add_succ_r.
Qed.

End CharacterCardFacts.

(** X16.  In a group chat outside narrator mode, with the muted avatars
    given as an array, the character information is the header followed
    by the cards of the members that have a name and are not muted,
    numbered 1, 2, ... without gaps: a skipped member leaves no trace and
    takes no number. *)
Theorem group_cards_skip_muted `{Builtins}
    (extensionSettings this_chid characters selected_group groups : jsval)
    (group : jsval) (muted : list jsval) (first : jsval) (others : list jsval) :
  truthy (prop extensionSettings "narratorMode") = false ->
  truthy selected_group = true ->
  current_group selected_group groups = Ok group ->
  disabledMembers group = JArr muted ->
  getCharacterCardsInfo extensionSettings this_chid characters selected_group
    groups (Some (first :: others))
  = (cards <- cards_from 0 (List.filter (listed muted) (first :: others)) ;;
     Ok ("Characters in this roleplay:" +:+ nl +:+ nl +:+ cards)).
Proof.
  intros Hn Hg Hgroup Hmuted. unfold getCharacterCardsInfo.
  rewrite Hn, Hg, Hgroup. cbn [bind]. rewrite Hmuted, member_loop_cards.
  destruct (cards_from 0 _) as [cards| |]; reflexivity.
Qed.

Lemma group_cards_skip_muted_witness :
  getCharacterCardsInfo (JObj []) JUndefined JUndefined (JStr "g1")
    (JArr [group_of "g0" []; group_of "g1" [JStr "bob.png"]]) (Some party)
  = Ok ("Characters in this roleplay:" +:+ nl +:+ nl
        +:+ "<character1=" +:+ dquote +:+ "Ann" +:+ dquote +:+ ">" +:+ nl
        +:+ "A ranger." +:+ nl +:+ "</character1>" +:+ nl +:+ nl
        +:+ "<character2=" +:+ dquote +:+ "Cid" +:+ dquote +:+ ">" +:+ nl
        +:+ "A smith." +:+ nl +:+ "</character2>" +:+ nl +:+ nl).
Proof.
  apply (group_cards_skip_muted (JObj []) JUndefined JUndefined (JStr "g1")
           (JArr [group_of "g0" []; group_of "g1" [JStr "bob.png"]])
           (group_of "g1" [JStr "bob.png"]) [JStr "bob.png"]); reflexivity.
Defined.

(** *** The shape of a formatted tracker *)

Lemma ends_nl_base a : ends_nl (a +:+ nl).
Proof. now exists a. Qed.

Lemma ends_nl_cons a s : ends_nl s -> ends_nl (a +:+ s).
Proof. intros [p ->]. exists (a +:+ p). now rewrite append_assoc. Qed.

Lemma grows_refl f : grows f f.
Proof. exists "". split; [now rewrite append_empty_r|now left]. Qed.

Lemma grows_trans f g r : grows f g -> grows g r -> grows f r.
Proof.
  intros (s & -> & Hs) (t & -> & Ht). exists (s +:+ t).
  split; [now rewrite append_assoc|].
  destruct Ht as [->|[p ->]]; [now rewrite append_empty_r|].
  right. exists (s +:+ p). now rewrite append_assoc.
Qed.

Lemma for_of_grows {A} (l : list A) (body : string -> A -> outcome string) f r :
  (forall s x s', body s x = Ok s' -> grows s s') ->
  for_of l f body = Ok r -> grows f r.
Proof.
  intros Hbody Hr.
  eapply (for_of_invariant (fun s => grows f s)); [apply grows_refl| |exact Hr].
  intros s x s' _ Hs Hb. eapply grows_trans; [exact Hs|]. eapply Hbody, Hb.
Qed.

Ltac ends_tac :=
  repeat lazymatch goal with
  | |- ends_nl (_ +:+ nl) => apply ends_nl_base
  | |- ends_nl (_ +:+ _) => apply ends_nl_cons
  end.

(** The text is unchanged, or closed lines were appended. *)
Ltac grow_tac :=
  cbv zeta;
  repeat match goal with
  | |- grows _ (if ?c then _ else _) => destruct c
  end;
  first [ apply grows_refl
        | eexists; split; [reflexivity | right; ends_tac] ].

(** Splits a computation that returned into its steps. *)
Ltac steps H :=
  cbv beta in H;
  repeat match type of H with
  | bind _ _ = Ok _ =>
      let x := fresh "x" in let Hx := fresh "Hx" in
      apply bind_Ok in H as (x & Hx & H)
  | (if ?c then _ else _) = Ok _ => destruct c
  | Ok _ = Ok _ => injection H as <-
  end.

Section Shape.
Context `{Builtins}.
Variable extensionSettings : jsval.

Lemma format_stats_grows data f r :
  ContextFormat.format_stats extensionSettings data f = Ok r -> grows f r.
Proof.
  unfold ContextFormat.format_stats. intros Hr.
  apply bind_Ok in Hr as (stats & _ & Hr).
  destruct (truthy stats && isArray stats).
  - eapply for_of_grows; [|exact Hr]. intros s x s' Hs.
    steps Hs; grow_tac.
  - apply bind_Ok in Hr as (g & Hg & Hr).
    eapply grows_trans; (eapply for_of_grows; [|eassumption]);
      intros s x s' Hs; steps Hs; grow_tac.
Qed.

Lemma format_status_mood_grows data f r :
  ContextFormat.format_status_mood data f = Ok r -> grows f r.
Proof.
  unfold ContextFormat.format_status_mood. intros Hr.
  apply bind_Ok in Hr as (status & _ & Hr).
  apply bind_Ok in Hr as (g & Hg & Hr).
  apply bind_Ok in Hr as (mood & _ & Hr).
  eapply (grows_trans _ g).
  - steps Hg; grow_tac.
  - steps Hr; grow_tac.
Qed.

Lemma format_skills_grows data f r :
  ContextFormat.format_skills data f = Ok r -> grows f r.
Proof.
  unfold ContextFormat.format_skills. intros Hr.
  steps Hr; grow_tac.
Qed.

Lemma format_item_list_grows label v f r :
  ContextFormat.format_item_list label v f = Ok r -> grows f r.
Proof.
  unfold ContextFormat.format_item_list. intros Hr.
  steps Hr; grow_tac.
Qed.

Lemma format_inventory_grows data f r :
  ContextFormat.format_inventory data f = Ok r -> grows f r.
Proof.
  unfold ContextFormat.format_inventory. intros Hr.
  apply bind_Ok in Hr as (inv & _ & Hr).
  destruct (truthy inv); [|injection Hr as <-; apply grows_refl].
  apply bind_Ok in Hr as (f1 & H1 & Hr). apply format_item_list_grows in H1.
  apply bind_Ok in Hr as (f2 & H2 & Hr). apply format_item_list_grows in H2.
  apply bind_Ok in Hr as (f3 & H3 & Hr). apply format_item_list_grows in Hr.
  eapply grows_trans; [exact H1|]. eapply grows_trans; [exact H2|].
  eapply grows_trans; [|exact Hr].
  destruct (_ && _) in H3; [|injection H3 as <-; apply grows_refl].
  eapply for_of_grows; [|exact H3]. intros s x s' Hs.
  steps Hs; grow_tac.
Qed.

Lemma format_quests_grows data f r :
  ContextFormat.format_quests data f = Ok r -> grows f r.
Proof.
  unfold ContextFormat.format_quests. intros Hr.
  apply bind_Ok in Hr as (quests & _ & Hr).
  destruct (truthy quests); [|injection Hr as <-; apply grows_refl].
  apply bind_Ok in Hr as (f1 & H1 & Hr). apply format_item_list_grows in Hr.
  eapply grows_trans; [|exact Hr].
  steps H1; grow_tac.
Qed.

Lemma format_userStats_grows data userName r :
  ContextFormat.format_userStats extensionSettings data userName = Ok r ->
  grows (heading "userStats" userName) r.
Proof.
  unfold ContextFormat.format_userStats. intros Hr.
  apply bind_Ok in Hr as (f1 & H1 & Hr). apply format_stats_grows in H1.
  apply bind_Ok in Hr as (f2 & H2 & Hr). apply format_status_mood_grows in H2.
  apply bind_Ok in Hr as (f3 & H3 & Hr). apply format_skills_grows in H3.
  apply bind_Ok in Hr as (f4 & H4 & Hr). apply format_inventory_grows in H4.
  apply format_quests_grows in Hr.
  repeat (eapply grows_trans; [eassumption|]). apply grows_refl.
Qed.

Lemma format_known_grows data k label f r :
  ContextFormat.format_known data k label f = Ok r -> grows f r.
Proof.
  unfold ContextFormat.format_known. intros Hr. steps Hr; grow_tac.
Qed.

Lemma format_infoBox_grows data r :
  ContextFormat.format_infoBox data = Ok r -> grows (heading "infoBox" "") r.
Proof.
  unfold ContextFormat.format_infoBox. intros Hr.
  apply bind_Ok in Hr as (f1 & H1 & Hr). apply format_known_grows in H1.
  apply bind_Ok in Hr as (f2 & H2 & Hr). apply format_known_grows in H2.
  apply bind_Ok in Hr as (f3 & H3 & Hr). apply format_known_grows in H3.
  apply bind_Ok in Hr as (f4 & H4 & Hr). apply format_known_grows in H4.
  apply bind_Ok in Hr as (f5 & H5 & Hr). apply format_known_grows in H5.
  repeat (eapply grows_trans; [eassumption|]).
  eapply for_of_grows; [|exact Hr]. intros s x s' Hs.
  steps Hs; grow_tac.
Qed.

Lemma format_wrapped_grows v inner label f r :
  ContextFormat.format_wrapped v inner label f = Ok r -> grows f r.
Proof.
  unfold ContextFormat.format_wrapped. intros Hr. steps Hr; grow_tac.
Qed.

Lemma format_character_grows f char r :
  ContextFormat.format_character f char = Ok r -> grows f r.
Proof.
  unfold ContextFormat.format_character. intros Hr.
  apply bind_Ok in Hr as (name & _ & Hr).
  apply bind_Ok in Hr as (resolved & _ & Hr).
  apply bind_Ok in Hr as (f1 & H1 & Hr).
  apply bind_Ok in Hr as (f2 & H2 & Hr). apply format_wrapped_grows in H2.
  apply bind_Ok in Hr as (f3 & H3 & Hr). apply format_wrapped_grows in H3.
  eapply grows_trans; [|].
  { instantiate (1 := f +:+ "- " +:+ (if nonempty resolved then resolved else "Unknown") +:+ ":" +:+ nl). grow_tac. }
  eapply (grows_trans _ f1).
  { destruct (_ && _) in H1; [|injection H1 as <-; apply grows_refl].
    eapply for_of_grows; [|exact H1]. intros s x s' Hs.
    steps Hs; grow_tac. }
  eapply grows_trans; [exact H2|]. eapply grows_trans; [exact H3|].
  steps Hr; grow_tac.
Qed.

Lemma format_characters_grows data r :
  ContextFormat.format_characters data = Ok r ->
  r = "" \/ grows (heading "characters" "") r.
Proof.
  unfold ContextFormat.format_characters. intros Hr.
  destruct (isArray data); [right|left; now injection Hr as <-].
  eapply for_of_grows; [|exact Hr]. intros s x s'. apply format_character_grows.
Qed.

End Shape.

Lemma heading_ends_nl trackerType userName : ends_nl (heading trackerType userName).
Proof.
  unfold heading.
  destruct (String.eqb trackerType "userStats"); [ends_tac|].
  destruct (String.eqb trackerType "infoBox"); ends_tac.
Qed.

Lemma grows_heading trackerType userName text :
  grows (heading trackerType userName) text ->
  exists body, text = heading trackerType userName +:+ body /\ ends_nl text.
Proof.
  intros (body & -> & Hb). exists body. split; [reflexivity|].
  destruct Hb as [->|Hb]; [|now apply ends_nl_cons].
  rewrite append_empty_r. apply heading_ends_nl.
Qed.

(** X17.  [formatTrackerDataForContext] always returns a text, and the
    text is empty or a block under the heading of its tracker type (the
    stats heading with the user's name, [Info Box:] or
    [Present Characters:]) in which every line, the last one included,
    ends with a newline. *)
Theorem formatted_tracker_shape `{Builtins} (extensionSettings jsonData : jsval)
    (trackerType userName : string) :
  exists text,
    ContextFormat.formatTrackerDataForContext extensionSettings jsonData
      trackerType userName = Ok text
    /\ (text = ""
        \/ exists body,
             text = heading trackerType userName +:+ body /\ ends_nl text).
Proof.
  destruct (formatTrackerDataForContext_returns extensionSettings jsonData
              trackerType userName) as [text Ht].
  exists text. split; [exact Ht|].
  unfold ContextFormat.formatTrackerDataForContext in Ht.
  destruct (negb (truthy jsonData)); [left; now injection Ht as <-|].
  unfold try_catch in Ht.
  destruct (bind _ _) as [r|e|] eqn:Hr in Ht;
    [injection Ht as <-|left; now injection Ht as <-|discriminate].
  apply bind_Ok in Hr as (data & _ & Hr). unfold heading.
  destruct (String.eqb trackerType "userStats").
  { right. apply (grows_heading "userStats").
    eapply format_userStats_grows, Hr. }
  destruct (String.eqb trackerType "infoBox").
  { right. apply (grows_heading "infoBox" "").
    eapply format_infoBox_grows, Hr. }
  destruct (String.eqb trackerType "characters").
  - apply format_characters_grows in Hr as [->|Hr]; [now left|right].
    now apply (grows_heading "characters" "").
  - left. now injection Hr as <-.
Qed.

(** *** The inventory summary *)

Lemma stored_section_skips `{Builtins} (summary : string) (entry : string * jsval) :
  holds_items entry = false -> stored_section summary entry = Ok summary.
Proof. unfold stored_section, holds_items. now intros ->. Qed.

Lemma stored_loop_filter `{Builtins} (stored : list (string * jsval)) (summary : string) :
  for_of stored summary stored_section
  = for_of (List.filter holds_items stored) summary stored_section.
Proof.
  revert summary. induction stored as [|entry stored IH]; intros summary;
    [reflexivity|].
  simpl. destruct (holds_items entry) eqn:Hh.
  - simpl. destruct (stored_section summary entry); simpl; auto.
  - rewrite stored_section_skips by assumption. apply IH.
Qed.

(** X18.  In the summary of a version 2 inventory a stored location
    whose items are empty or the word None leaves no trace: the summary
    is that of the inventory without these locations, whatever the other
    sections hold. *)
Theorem inventory_skips_empty_locations `{Builtins} (onPerson clothing assets : jsval)
    (stored : list (string * jsval)) :
  buildInventorySummary (inventory_v2 onPerson clothing stored assets)
  = buildInventorySummary
      (inventory_v2 onPerson clothing (List.filter holds_items stored) assets).
Proof.
  unfold buildInventorySummary, inventory_v2. simpl.
  apply bind_ext; intros s1 _. apply bind_ext; intros s2 _.
  assert (Hfilter :
    (if (0 <? length stored)%nat then for_of stored s2 stored_section else Ok s2)
    = (if (0 <? length (List.filter holds_items stored))%nat
       then for_of (List.filter holds_items stored) s2 stored_section else Ok s2)).
  { rewrite stored_loop_filter.
    destruct stored as [|e l]; [reflexivity|].
    destruct (List.filter holds_items (e :: l)); reflexivity. }
  rewrite Hfilter. reflexivity.
Qed.

(** The example of the documentation of [buildInventorySummary]. *)
Lemma inventory_documented_example :
  buildInventorySummary
    (JObj [("onPerson", JStr "Sword"); ("stored", JObj [("Home", JStr "Gold")]);
           ("assets", JStr "Horse"); ("version", JNum 2)])
  = Ok ("On Person: Sword" +:+ nl +:+ "Stored - Home: Gold" +:+ nl
        +:+ "Assets: Horse").
Proof. reflexivity. Qed.

(** *** The instructions and the previous trackers *)



Lemma substitution_plain matched before after replacement :
  no_char "$" replacement = true ->
  substitution matched before after replacement = replacement.
Proof.
  induction replacement as [|c r IH]; [reflexivity|].
  simpl. intros Hr. apply andb_true_iff in Hr as [Hc Hr].
  apply negb_true_iff in Hc. rewrite Hc. now rewrite IH.
Qed.

(** With a replacement that has no dollar sign the scan does not depend
    on the text already passed. *)
Lemma replace_scan_before pattern replacement before before' s skip :
  no_char "$" replacement = true ->
  replace_scan pattern replacement before s skip
  = replace_scan pattern replacement before' s skip.
Proof.
  intros Hr. revert before before' skip.
  induction s as [|c s IH]; intros before before' skip; [reflexivity|].
  simpl. destruct skip as [|k]; [|apply IH].
  destruct (strip_prefix pattern (String c s)) as [after|].
  - rewrite !substitution_plain by assumption. f_equal. apply IH.
  - f_equal. apply IH.
Qed.

Lemma replace_scan_skip pattern replacement before x s :
  replace_scan pattern replacement before (x +:+ s) (String.length x)
  = replace_scan pattern replacement (before +:+ x) s 0.
Proof.
  revert before. induction x as [|c x IH]; intros before.
  - now rewrite append_empty_r.
  - change (replace_scan pattern replacement (before +:+ String c "") (x +:+ s)
              (String.length x)
            = replace_scan pattern replacement (before +:+ String c x) s 0).
    rewrite IH, append_assoc. reflexivity.
Qed.

Lemma replace_all_placeholder userName s :
  no_char "$" userName = true ->
  replace_all "{userName}" userName ("{userName}" +:+ s)
  = userName +:+ replace_all "{userName}" userName s.
Proof.
  intros Hn. unfold replace_all.
  change (substitution "{userName}" "" s userName
          +:+ replace_scan "{userName}" userName ("" +:+ "{")
                ("userName}" +:+ s) (String.length "userName}")
          = userName +:+ replace_scan "{userName}" userName "" s 0).
  rewrite substitution_plain by assumption. f_equal.
  rewrite replace_scan_skip. now apply replace_scan_before.
Qed.

Lemma replace_all_other userName c s :
  no_char "$" userName = true -> Ascii.eqb c "{" = false ->
  replace_all "{userName}" userName (String c s)
  = String c (replace_all "{userName}" userName s).
Proof.
  intros Hn Hc. unfold replace_all. cbn [replace_scan strip_prefix].
  rewrite Ascii.eqb_sym, Hc. f_equal. now apply replace_scan_before.
Qed.

(** X20.  In the custom tracker instructions every [{userName}] is
    replaced by the user's name and the text around it is kept, when
    the name has no dollar sign: a text without an opening brace is left
    as it is, and such a text followed by the placeholder gives the text
    followed by the name and the replacement of what comes after. *)
Theorem placeholder_replaced_by_name (userName before after : string) :
  no_char "$" userName = true ->
  no_char "{" before = true ->
  replace_all "{userName}" userName before = before
  /\ replace_all "{userName}" userName (before +:+ "{userName}" +:+ after)
     = before +:+ userName +:+ replace_all "{userName}" userName after.
Proof.
  intros Hn Hb. induction before as [|c before IH].
  - split; [reflexivity|]. now apply replace_all_placeholder.
  - simpl in Hb. apply andb_true_iff in Hb as [Hc Hb].
    apply negb_true_iff in Hc. destruct (IH Hb) as [IH1 IH2].
    change (String c before +:+ "{userName}" +:+ after)
      with (String c (before +:+ "{userName}" +:+ after)).
    rewrite !replace_all_other by assumption. rewrite IH1, IH2.
    split; reflexivity.
Qed.

Lemma placeholder_replaced_by_name_witness :
  replace_all "{userName}" "Alice" "Dear " = "Dear "
  /\ replace_all "{userName}" "Alice" ("Dear " +:+ "{userName}" +:+ ", hello.")
     = "Dear " +:+ "Alice" +:+ replace_all "{userName}" "Alice" ", hello.".
Proof. apply placeholder_replaced_by_name; reflexivity. Defined.

(** A name with dollar signs is not inserted as it is. *)
Lemma placeholder_dollar_name :
  replace_all "{userName}" "A$&$$B" "Hi {userName}!" = "Hi A{userName}$B!".
Proof. reflexivity. Qed.

Section PreviousFacts.
Context `{Builtins}.
Variable applyLocks : jsval -> string -> outcome jsval.
Variable JSON_stringify : jsval -> string.
Variable extensionSettings : jsval.

(** With user stats that are JSON, the state after the first tracker. *)
Lemma previous_userStats_json userStats infoBox characterThoughts lockedData parsed st :
  truthy (prop extensionSettings "showUserStats") = true ->
  truthy userStats = true ->
  applyLocks userStats "userStats" = Ok lockedData ->
  JSON_parse_value lockedData = Ok parsed ->
  previous_userStats applyLocks extensionSettings
    (tracker userStats infoBox characterThoughts) st
  = Ok (st.1, st.2 ++ [("userStats", parsed)]).
Proof.
  intros Hshow Hu Hl Hp. unfold previous_userStats, tracker. simpl.
  rewrite Hshow, Hu, Hl. simpl. rewrite Hp. reflexivity.
Qed.

Lemma unset_after_userStats unified parsed :
  unified = [] -> truthy parsed = true ->
  unset (unified ++ [("userStats", parsed)]) "userStats" = false.
Proof. intros -> Hp. unfold unset. simpl. now rewrite Hp. Qed.

Lemma unset_userStats_kept unified key value :
  String.eqb key "userStats" = false ->
  unset (unified ++ [(key, value)]) "userStats" = unset unified "userStats".
Proof.
  intros Hk. unfold unset. simpl. f_equal. f_equal.
  induction unified as [|[k v] l IH]; simpl.
  - now rewrite Hk.
  - destruct (String.eqb k "userStats"); [reflexivity|apply IH].
Qed.

(** Each tracker of the previous block reads its own payload only. *)
Lemma previous_infoBox_reads u c c' i st :
  previous_infoBox applyLocks extensionSettings (tracker u i c) st
  = previous_infoBox applyLocks extensionSettings (tracker u i c') st.
Proof. reflexivity. Qed.

Lemma previous_characters_reads u i i' c st :
  previous_characters applyLocks JSON_stringify (tracker u i c) st
  = previous_characters applyLocks JSON_stringify (tracker u i' c) st.
Proof. reflexivity. Qed.

Lemma previous_infoBox_absent u c st :
  previous_infoBox applyLocks extensionSettings (tracker u JUndefined c) st = Ok st.
Proof.
  unfold previous_infoBox, tracker. simpl. now rewrite andb_false_r.
Qed.

Lemma previous_characters_absent u i st :
  previous_characters applyLocks JSON_stringify (tracker u i JUndefined) st = Ok st.
Proof. reflexivity. Qed.

(** An info box in the old text format, after user stats that are set. *)
Lemma previous_infoBox_legacy u i c st :
  raises (locked <- applyLocks i "infoBox" ;; JSON_parse_value locked) ->
  unset st.2 "userStats" = false ->
  previous_infoBox applyLocks extensionSettings (tracker u i c) st = Ok st.
Proof.
  intros [e He] Hset. unfold previous_infoBox.
  replace (prop (tracker u i c) "infoBox") with i by reflexivity.
  destruct (truthy (prop extensionSettings "showInfoBox") && truthy i);
    [|reflexivity].
  destruct (applyLocks i "infoBox") as [locked| |]; simpl in *;
    try discriminate; [|now rewrite Hset].
  destruct (JSON_parse_value locked); simpl in *; try discriminate.
  now rewrite Hset.
Qed.

Lemma previous_characters_legacy u i c st :
  raises (if typeof_object c then applyLocks c "characters"
          else locked <- applyLocks c "characters" ;; JSON_parse_value locked) ->
  unset st.2 "userStats" = false ->
  previous_characters applyLocks JSON_stringify (tracker u i c) st = Ok st.
Proof.
  intros [e He] Hset. unfold previous_characters.
  replace (prop (tracker u i c) "characterThoughts") with c by reflexivity.
  destruct (truthy c); [|reflexivity].
  rewrite He. simpl. now rewrite Hset.
Qed.

(** The info box leaves the user stats of the state as they are. *)
Lemma previous_infoBox_keeps committedTrackerData st st' :
  previous_infoBox applyLocks extensionSettings committedTrackerData st = Ok st' ->
  unset st'.2 "userStats" = unset st.2 "userStats".
Proof.
  unfold previous_infoBox. intros Hs.
  destruct (_ && _) in Hs; [|now injection Hs as <-].
  assert (Hcatch :
    (if unset st.2 "userStats"
     then text <- to_string (prop committedTrackerData "infoBox") ;;
          Ok (st.1 +:+ text +:+ nl +:+ nl, st.2)
     else Ok st) = Ok st' ->
    unset st'.2 "userStats" = unset st.2 "userStats").
  { intros Hc. destruct (unset st.2 "userStats") eqn:Hset.
    - apply bind_Ok in Hc as (text & _ & Hc). now injection Hc as <-.
    - injection Hc as <-. now rewrite Hset. }
  destruct (applyLocks _ "infoBox") as [locked|e|]; simpl in Hs;
    [|auto|discriminate].
  destruct (JSON_parse_value locked) as [parsed|e|]; simpl in Hs;
    [|auto|discriminate].
  injection Hs as <-. simpl. now apply unset_userStats_kept.
Qed.

End PreviousFacts.

(** X21.  In the previous trackers of [generateRPGPromptText], user stats
    that are JSON with a truthy value silence the old text formats of
    the other two: an info box or character data whose locking or
    parsing raises is dropped, and the prompt is the one built without
    it. *)
Theorem previous_json_drops_legacy_text `{Builtins}
    (applyLocks : jsval -> string -> outcome jsval)
    (JSON_stringify : jsval -> string) (extensionSettings : jsval)
    (userStats infoBox characterThoughts : jsval)
    (buildUserStatsJSONInstruction buildInfoBoxJSONInstruction
       buildCharactersJSONInstruction : string)
    (addLockInstruction : string -> string) (userName : string)
    (lockedData parsed : jsval) :
  truthy (prop extensionSettings "showUserStats") = true ->
  truthy userStats = true ->
  applyLocks userStats "userStats" = Ok lockedData ->
  JSON_parse_value lockedData = Ok parsed ->
  truthy parsed = true ->
  (raises (locked <- applyLocks infoBox "infoBox" ;; JSON_parse_value locked) ->
   generateRPGPromptText applyLocks JSON_stringify extensionSettings
     (tracker userStats infoBox characterThoughts)
     buildUserStatsJSONInstruction buildInfoBoxJSONInstruction
     buildCharactersJSONInstruction addLockInstruction userName
   = generateRPGPromptText applyLocks JSON_stringify extensionSettings
       (tracker userStats JUndefined characterThoughts)
       buildUserStatsJSONInstruction buildInfoBoxJSONInstruction
       buildCharactersJSONInstruction addLockInstruction userName)
  /\ (raises (if typeof_object characterThoughts
              then applyLocks characterThoughts "characters"
              else locked <- applyLocks characterThoughts "characters" ;;
                   JSON_parse_value locked) ->
      generateRPGPromptText applyLocks JSON_stringify extensionSettings
        (tracker userStats infoBox characterThoughts)
        buildUserStatsJSONInstruction buildInfoBoxJSONInstruction
        buildCharactersJSONInstruction addLockInstruction userName
      = generateRPGPromptText applyLocks JSON_stringify extensionSettings
          (tracker userStats infoBox JUndefined)
          buildUserStatsJSONInstruction buildInfoBoxJSONInstruction
          buildCharactersJSONInstruction addLockInstruction userName).
Proof.
  intros Hshow Hu Hl Hp Ht.
  assert (Hset : forall promptText : string,
            unset ((promptText, [] ++ [("userStats", parsed)]).2) "userStats" = false).
  { intros promptText. now apply unset_after_userStats. }
  split; intros Hraises; unfold generateRPGPromptText.
  - replace (prop (tracker userStats infoBox characterThoughts) "userStats")
      with userStats by reflexivity.
    replace (prop (tracker userStats JUndefined characterThoughts) "userStats")
      with userStats by reflexivity.
    rewrite Hu. cbn [orb].
    rewrite !(previous_userStats_json _ _ _ _ _ _ _ _ Hshow Hu Hl Hp).
    cbn [bind fst snd].
    rewrite previous_infoBox_legacy by auto.
    rewrite previous_infoBox_absent. cbn [bind].
    now rewrite (previous_characters_reads _ _ _ infoBox JUndefined).
  - replace (prop (tracker userStats infoBox characterThoughts) "userStats")
      with userStats by reflexivity.
    replace (prop (tracker userStats infoBox JUndefined) "userStats")
      with userStats by reflexivity.
    rewrite Hu. cbn [orb].
    rewrite !(previous_userStats_json _ _ _ _ _ _ _ _ Hshow Hu Hl Hp).
    cbn [bind fst snd].
    rewrite (previous_infoBox_reads _ _ _ characterThoughts JUndefined).
    destruct (previous_infoBox _ _ _ _) as [st| |] eqn:Hst; try reflexivity.
    cbn [bind]. apply previous_infoBox_keeps in Hst. rewrite Hset in Hst.
    rewrite previous_characters_legacy by assumption.
    now rewrite previous_characters_absent.
Qed.

Lemma previous_json_drops_legacy_text_witness :
  generateRPGPromptText no_locks (fun _ => "{}") all_shown
    (tracker (JStr hp_json) (JStr legacy_text) (JStr "- Bob: waits"))
    "U" "I" "C" (fun _ => "") "Alice"
  = generateRPGPromptText no_locks (fun _ => "{}") all_shown
      (tracker (JStr hp_json) JUndefined (JStr "- Bob: waits"))
      "U" "I" "C" (fun _ => "") "Alice"
  /\ generateRPGPromptText no_locks (fun _ => "{}") all_shown
       (tracker (JStr hp_json) (JStr legacy_text) (JStr "- Bob: waits"))
       "U" "I" "C" (fun _ => "") "Alice"
     = generateRPGPromptText no_locks (fun _ => "{}") all_shown
         (tracker (JStr hp_json) (JStr legacy_text) JUndefined)
         "U" "I" "C" (fun _ => "") "Alice".
Proof.
  destruct (previous_json_drops_legacy_text no_locks (fun _ => "{}") all_shown
              (JStr hp_json) (JStr legacy_text) (JStr "- Bob: waits")
              "U" "I" "C" (fun _ => "") "Alice" (JStr hp_json)
              (JObj [("hp", JNum 7)]))
    as [Hinfo Hchars]; try reflexivity.
  split; [apply Hinfo|apply Hchars]; exists SyntaxError; reflexivity.
Defined.

(** *** The update prompt on every readable chat *)

Section UpdateReturns.
Context `{Builtins}.
Variable recentMessages : list jsval.
Hypothesis Hturns : forallb readable_turn recentMessages = true.

Lemma readable_at i :
  (i < length recentMessages)%nat ->
  readable_turn (message_at recentMessages i) = true.
Proof.
  intros Hi. rewrite forallb_forall in Hturns. apply Hturns.
  unfold message_at. now apply nth_In.
Qed.

Lemma member_at_returns i k :
  (i < length recentMessages)%nat ->
  member (message_at recentMessages i) k
  = Ok (prop (message_at recentMessages i) k).
Proof.
  intros Hi. pose proof (readable_at i Hi) as Hr. unfold readable_turn in Hr.
  apply andb_true_iff in Hr as [Hr _]. apply andb_true_iff in Hr as [Hr _].
  apply negb_true_iff in Hr. unfold member. now rewrite Hr.
Qed.

Lemma lastAssistantIdx_from_returns n :
  (n <= length recentMessages)%nat ->
  returns (lastAssistantIdx_from recentMessages n).
Proof.
  induction n as [|n IH]; intros Hn; simpl; [now eexists|].
  rewrite member_at_returns by lia. simpl.
  destruct (_ && _); [now eexists|apply IH; lia].
Qed.

Lemma preceding_user_returns i n :
  (n <= length recentMessages)%nat ->
  returns (preceding_user recentMessages i n).
Proof.
  induction n as [|n IH]; intros Hn; simpl; [now eexists|].
  rewrite member_at_returns by lia. simpl.
  destruct (_ && _); [now eexists|apply IH; lia].
Qed.

Lemma computed_prop_returns v k :
  plain k = true -> returns (computed_prop v k).
Proof.
  intros Hk. unfold computed_prop.
  destruct (to_string_plain k Hk) as [key ->]. now eexists.
Qed.

Lemma injection_step_returns trackerConfig historyPersistence userName
    position last m i :
  plain (prop historyPersistence "contextPreamble") = true ->
  (i < length recentMessages)%nat ->
  returns (injection_step recentMessages trackerConfig historyPersistence
             userName position last m i).
Proof.
  intros Hpre Hi. unfold injection_step.
  rewrite member_at_returns by assumption. cbn [bind].
  destruct (_ || _); [now eexists|].
  destruct (_ =? _); [now eexists|].
  assert (Hid : plain (if truthy (prop (message_at recentMessages i) "swipe_id")
                       then prop (message_at recentMessages i) "swipe_id"
                       else JNum 0) = true).
  { destruct (truthy _); [|reflexivity].
    pose proof (readable_at i Hi) as Hr. unfold readable_turn in Hr.
    apply andb_true_iff in Hr as [Hr _]. now apply andb_true_iff in Hr as [_ Hr]. }
  apply bind_returns.
  { destruct (_ && _); [|now eexists].
    apply bind_returns; [now apply computed_prop_returns|]. intros; now eexists. }
  intros swipeData. destruct (negb (truthy swipeData)); [now eexists|].
  apply bind_returns; [now apply computed_prop_returns|]. intros trackerData.
  destruct (negb (truthy trackerData)); [now eexists|].
  apply bind_returns; [apply formatHistoricalTrackerData_returns|].
  intros formattedContext. destruct (negb (nonempty formattedContext));
    [now eexists|].
  apply bind_returns.
  { apply to_string_plain.
    destruct (truthy (prop historyPersistence "contextPreamble"));
      [exact Hpre|reflexivity]. }
  intros preamble. apply bind_returns.
  { destruct (strict_eq position _); [|now eexists].
    apply preceding_user_returns. lia. }
  intros targetIdx. destruct (_ && _); now eexists.
Qed.

Lemma contextInjectionMap_returns trackerConfig historyPersistence userName :
  plain (prop historyPersistence "contextPreamble") = true ->
  returns (contextInjectionMap recentMessages trackerConfig historyPersistence
             userName).
Proof.
  intros Hpre. unfold contextInjectionMap.
  destruct (truthy (opt_member historyPersistence "enabled")); [|now eexists].
  apply bind_returns; [now apply lastAssistantIdx_from_returns|]. intros last.
  apply for_of_returns. intros m i Hi. apply in_seq in Hi.
  apply injection_step_returns; [assumption|lia].
Qed.

Lemma history_messages_returns (m : gmap Z string) :
  returns (history_messages m recentMessages).
Proof.
  unfold history_messages. apply mapM_returns. intros i Hi. apply in_seq in Hi.
  unfold history_message. rewrite member_at_returns by lia. cbn [bind].
  apply bind_returns; [|intros; now eexists].
  destruct (m !! Z.of_nat i); [|now eexists].
  apply bind_returns; [|intros; now eexists].
  apply to_string_plain.
  assert (Hlt : (i < length recentMessages)%nat) by lia.
  pose proof (readable_at i Hlt) as Hr. unfold readable_turn in Hr.
  now apply andb_true_iff in Hr as [_ Hr].
Qed.

End UpdateReturns.



(** X23.  The contextual summary is built for every committed tracker
    data: when the attributes are not sent and the last dice roll, if
    any, has a total and a formula without an own [toString] member
    inside, [generateContextualSummary] returns a text, whatever the
    three tracker payloads are. *)
Theorem summary_built_without_attributes `{Builtins}
    (extensionSettings committedTrackerData : jsval) (userName : string) :
  shouldSendAttributes extensionSettings = false ->
  plain (prop (prop extensionSettings "lastDiceRoll") "total") = true ->
  plain (prop (prop extensionSettings "lastDiceRoll") "formula") = true ->
  returns (generateContextualSummary extensionSettings committedTrackerData
             userName).
Proof.
  intros Hsend Htotal Hformula. unfold generateContextualSummary.
  apply bind_returns; [apply summary_part_returns|]. intros s1.
  apply bind_returns; [apply summary_part_returns|]. intros s2.
  apply bind_returns; [apply summary_part_returns|]. intros s3.
  unfold shouldSendAttributes in Hsend. cbv zeta. rewrite Hsend.
  apply bind_returns; [now eexists|]. intros s4.
  apply bind_returns; [|intros; now eexists].
  destruct (truthy (prop extensionSettings "lastDiceRoll")); [|now eexists].
  apply bind_returns; [now apply to_string_plain|]. intros total.
  apply bind_returns; [now apply to_string_plain|]. intros formula.
  now eexists.
Qed.

Lemma summary_built_without_attributes_witness :
  returns (generateContextualSummary
             (JObj [("showUserStats", JBool true); ("showInfoBox", JBool true);
                    ("lastDiceRoll",
                     JObj [("total", JNum 7); ("formula", JStr "2d6")])])
             (tracker (JObj [("inventory", JNum 3)]) (JStr legacy_text) JUndefined)
             "Alice").
Proof.
  apply summary_built_without_attributes; reflexivity.
Defined.
